(** * ThetaLang: the literal inlining pass over a store of AST nodes

    A shallow embedding of [src/compiler/optimization/LiteralInlinerPass.cpp].

    The C++ code works on [shared_ptr<ASTNode>] values: nodes are shared
    between the tree and the symbol tables, [TypeDeclarationNode::setType]
    mutates a node in place and [make_shared] creates new objects.  The
    embedding therefore keeps an explicit store of nodes indexed by
    addresses; every function of the pass is a computation in a state and
    failure monad over the pass state (store, the two symbol table stacks and
    the compiler's list of encountered exceptions). *)

From stdpp Require Import gmap strings list fin_maps pretty.

Set Default Proof Using "Type".
Open Scope string_scope.
Open Scope list_scope.

(** ** The AST node model *)

(** Addresses of heap-allocated nodes; a null [shared_ptr] is [None] in an
    [option ptr]. *)
Abbreviation ptr := positive.

(** [ASTNode::Types], restricted to the node kinds the pass dispatches on and
    the other variants of the data model. *)
Inductive Types :=
  | CAPSULE | LINK | BLOCK | ASSIGNMENT | IDENTIFIER | SYMBOL | ENUM
  | TYPE_DECLARATION | FUNCTION_DECLARATION
  | NUMBER_LITERAL | STRING_LITERAL | BOOLEAN_LITERAL
  | AST_NODE_LIST.

#[global] Instance Types_eq_dec : EqDecision Types.
Proof. solve_decision. Defined.

(** The dynamic class of a node with the members the pass reads.  A
    [dynamic_pointer_cast<C>] succeeds exactly on the classes deriving from
    [C]; [BlockNode] and [EnumNode] derive from [ASTNodeList]
    (LiteralInlinerPass.cpp:34 and :132 read their [getElements]). *)
Inductive NodeClass :=
  | PlainNode
  | CapsuleNode (name : string)
  | IdentifierNode (identifier : string)
  | LiteralNode (literalValue : string)
  | SymbolNode (symbol : string)
  | TypeDeclarationNode (type : string)
  | ASTNodeList (elements : list ptr)
  | BlockNode (elements : list ptr)
  | EnumNode (enumIdentifier : option ptr) (elements : list ptr).

(** The members of the [ASTNode] base class, and the derived part. *)
Record ASTNode := mkNode {
  nodeType : Types;
  id : Z;
  parent : option ptr;
  left : option ptr;
  right : option ptr;
  value : option ptr;
  class : NodeClass
}.

Abbreviation Heap := (gmap ptr ASTNode).

(** ** Symbol table stack *)

Abbreviation Frame := (gmap string ptr).

(** Modelled from the spec: [SymbolTableStack] (its header is not among the
    sources).  A stack of binding frames over a required base frame;
    [top] is the innermost frame. *)
Record SymbolTableStack := mkStack {
  top : Frame;
  below : list Frame
}.

Module SymbolTableStack.

(** Modelled from the spec: the initial [SymbolTableStack], holding only
    its empty base frame. *)
Definition empty : SymbolTableStack := mkStack ∅ [].

(** Modelled from the spec: [SymbolTableStack::enterScope] pushes a new,
    empty binding frame. *)
Definition enterScope (s : SymbolTableStack) : SymbolTableStack :=
  mkStack ∅ (top s :: below s).

(** Modelled from the spec: [SymbolTableStack::exitScope] pops the most
    recently pushed frame and fails when only the base frame is left. *)
Definition exitScope (s : SymbolTableStack) : option SymbolTableStack :=
  match below s with
  | [] => None
  | f :: fs => Some (mkStack f fs)
  end.

(** Modelled from the spec: [SymbolTableStack::insert] adds a binding to the
    top frame only and reports failure, leaving the stack as it is, when the
    key already exists in that frame. *)
Definition insert (key : string) (node : ptr) (s : SymbolTableStack)
  : bool * SymbolTableStack :=
  match top s !! key with
  | Some _ => (false, s)
  | None => (true, mkStack (<[key := node]> (top s)) (below s))
  end.

(** First frame of the list, innermost first, that binds the key. *)
Fixpoint lookupFrames (key : string) (fs : list Frame) : option ptr :=
  match fs with
  | [] => None
  | f :: rest =>
      match f !! key with
      | Some node => Some node
      | None => lookupFrames key rest
      end
  end.

(** Modelled from the spec: [SymbolTableStack::lookup] searches the frames
    from innermost to outermost and returns the first match. *)
Definition lookup (key : string) (s : SymbolTableStack) : option ptr :=
  lookupFrames key (top s :: below s).

End SymbolTableStack.

(** ** Diagnostics *)

Inductive Error :=
  | IllegalReassignmentError (identifier : string).

(** ** Pass state and its monad *)

Record PassState := mkState {
  heap : Heap;
  hoistedScope : SymbolTableStack;
  localScope : SymbolTableStack;
  encounteredExceptions : list Error
}.

(** The ways a run can leave the defined behaviour of C++: a member access
    through a null pointer (the result of a failed [dynamic_pointer_cast] or
    an absent child), [std::out_of_range] thrown by [string::substr], and
    [vector::back] on an empty vector. *)
Inductive Fault := NullDereference | OutOfRange | BackOfEmpty.

Inductive Result (A : Type) :=
  | Done (a : A) (s : PassState)
  | Crash (f : Fault).
Arguments Done {A} a s.
Arguments Crash {A} f.

Definition M (A : Type) : Type := PassState → Result A.

Definition ret {A} (a : A) : M A := λ s, Done a s.

Definition bind {A B} (m : M A) (k : A → M B) : M B :=
  λ s, match m s with
       | Done a s' => k a s'
       | Crash f => Crash f
       end.

Definition crash {A} (f : Fault) : M A := λ _, Crash f.

Declare Scope pass_scope.
Delimit Scope pass_scope with pass.
Notation "'let!' x ':=' m 'in' k" := (bind m (λ x, k))
  (at level 10, x name, m at level 100, k at level 200) : pass_scope.
Notation "'exec' m 'in' k" := (bind m (λ _, k))
  (at level 10, m at level 100, k at level 200) : pass_scope.
Open Scope pass_scope.

(** The two stacks owned by the pass; functions taking a
    [SymbolTableStack &scope] take the name of the stack. *)
Inductive ScopeRef := HoistedScope | LocalScope.

Definition getScope (r : ScopeRef) (s : PassState) : SymbolTableStack :=
  match r with
  | HoistedScope => hoistedScope s
  | LocalScope => localScope s
  end.

Definition setScope (r : ScopeRef) (t : SymbolTableStack) (s : PassState)
  : PassState :=
  match r with
  | HoistedScope => mkState (heap s) t (localScope s) (encounteredExceptions s)
  | LocalScope => mkState (heap s) (hoistedScope s) t (encounteredExceptions s)
  end.

Definition setHeap (h : Heap) (s : PassState) : PassState :=
  mkState h (hoistedScope s) (localScope s) (encounteredExceptions s).

(** [p->member] for a possibly null [p]. *)
Definition deref (p : option ptr) : M ASTNode :=
  λ s, match p with
       | None => Crash NullDereference
       | Some a =>
           match heap s !! a with
           | Some n => Done n s
           | None => Crash NullDereference
           end
       end.

(** [scope.lookup(key)] *)
Definition scopeLookup (r : ScopeRef) (key : string) : M (option ptr) :=
  λ s, Done (SymbolTableStack.lookup key (getScope r s)) s.

(** [scope.insert(key, node)]; the callers ignore the returned flag. *)
Definition scopeInsert (r : ScopeRef) (key : string) (node : ptr) : M unit :=
  λ s, Done tt (setScope r (SymbolTableStack.insert key node (getScope r s)).2 s).

(** [scope.enterScope()] *)
Definition scopeEnter (r : ScopeRef) : M unit :=
  λ s, Done tt (setScope r (SymbolTableStack.enterScope (getScope r s)) s).

(** [Compiler::getInstance().addException(e)] appends to the collector. *)
Definition addException (e : Error) : M unit :=
  λ s, Done tt (mkState (heap s) (hoistedScope s) (localScope s)
                        (encounteredExceptions s ++ [e])).

(** [std::string::substr(1)]: drops the first character, throws when the
    string is empty. *)
Definition substr1 (str : string) : M string :=
  match str with
  | EmptyString => crash OutOfRange
  | String _ rest => ret rest
  end.

(** [std::to_string(int)] on the loop index. *)
Definition to_string (i : nat) : string := pretty i.

(** Downcasts followed by a member read. *)
Definition getIdentifier (n : ASTNode) : M string :=
  match class n with
  | IdentifierNode name => ret name
  | _ => crash NullDereference
  end.

Definition getSymbol (n : ASTNode) : M string :=
  match class n with
  | SymbolNode sym => ret sym
  | _ => crash NullDereference
  end.

Definition getLiteralValue (n : ASTNode) : M string :=
  match class n with
  | LiteralNode v => ret v
  | _ => crash NullDereference
  end.

Definition getType (n : ASTNode) : M string :=
  match class n with
  | TypeDeclarationNode t => ret t
  | _ => crash NullDereference
  end.

(** [dynamic_pointer_cast<ASTNodeList>(n)->getElements()] *)
Definition getElements (n : ASTNode) : M (list ptr) :=
  match class n with
  | ASTNodeList els | BlockNode els | EnumNode _ els => ret els
  | _ => crash NullDereference
  end.

(** [dynamic_pointer_cast<BlockNode>(n)->getElements()] *)
Definition getBlockElements (n : ASTNode) : M (list ptr) :=
  match class n with
  | BlockNode els => ret els
  | _ => crash NullDereference
  end.

(** [dynamic_pointer_cast<EnumNode>(n)->getIdentifier()] *)
Definition getEnumIdentifier (n : ASTNode) : M (option ptr) :=
  match class n with
  | EnumNode i _ => ret i
  | _ => crash NullDereference
  end.

Definition withClass (n : ASTNode) (c : NodeClass) : ASTNode :=
  mkNode (nodeType n) (id n) (parent n) (left n) (right n) (value n) c.

(** [nodeList->setElements(els)] keeps the dynamic class of the list. *)
Definition setElements (a : ptr) (els : list ptr) : M unit :=
  λ s, match heap s !! a with
       | Some n =>
           match class n with
           | ASTNodeList _ => Done tt (setHeap (<[a := withClass n (ASTNodeList els)]> (heap s)) s)
           | BlockNode _ => Done tt (setHeap (<[a := withClass n (BlockNode els)]> (heap s)) s)
           | EnumNode i _ => Done tt (setHeap (<[a := withClass n (EnumNode i els)]> (heap s)) s)
           | _ => Crash NullDereference
           end
       | None => Crash NullDereference
       end.

(** [typeDef->setType(t)] *)
Definition setType (a : ptr) (t : string) : M unit :=
  λ s, match heap s !! a with
       | Some n =>
           match class n with
           | TypeDeclarationNode _ =>
               Done tt (setHeap (<[a := withClass n (TypeDeclarationNode t)]> (heap s)) s)
           | _ => Crash NullDereference
           end
       | None => Crash NullDereference
       end.

(** ** What the pass takes from the rest of the compiler

    [DataTypes.hpp], the identifier generator of [ASTNode] and the body of
    [Compiler::getQualifiedFunctionIdentifier] are not among the sources
    (Compiler.hpp:114 only declares the latter); the pass is parametric in
    them. *)
Class CompilerEnv := {
  DataTypes_NUMBER : string;
  DataTypes_STRING : string;
  DataTypes_BOOLEAN : string;
  generateId : Heap → Z;
  getQualifiedFunctionIdentifier : string → Heap → ptr → string
}.

Section LiteralInlinerPass.
Context `{env : CompilerEnv}.

(** [make_shared<T>(...)]: a new object at an address not in use. *)
Definition make_shared (n : ASTNode) : M ptr :=
  λ s, let a := fresh (dom (heap s)) in
       Done a (setHeap (<[a := n]> (heap s)) s).

(** [LiteralNode(type, value, parent)], following the constructor pattern
    [ASTNode(type, parent)] of CapsuleNode.hpp:15. *)
Definition newLiteralNode (t : Types) (v : string) (par : option ptr) : M ptr :=
  λ s, make_shared (mkNode t (generateId (heap s)) par None None None (LiteralNode v)) s.

(** [TypeDeclarationNode(type, parent)] *)
Definition newTypeDeclarationNode (t : string) (par : option ptr) : M ptr :=
  λ s, make_shared (mkNode TYPE_DECLARATION (generateId (heap s)) par None None None
                           (TypeDeclarationNode t)) s.

(** Modelled from the spec: [OptimizationPass::lookupInScope] (its source is
    not given): local scope first, hoisted scope as the fallback, a null
    pointer when neither binds the name. *)
Definition lookupInScope (name : string) : M (option ptr) :=
  λ s, match SymbolTableStack.lookup name (localScope s) with
       | Some a => Done (Some a) s
       | None => Done (SymbolTableStack.lookup name (hoistedScope s)) s
       end.

Definition isLiteralType (t : Types) : bool :=
  bool_decide (t = NUMBER_LITERAL) || bool_decide (t = STRING_LITERAL)
  || bool_decide (t = BOOLEAN_LITERAL).

(** LiteralInlinerPass.cpp:44-69.  The result is the new value of the
    reference [ast]. *)
Definition substituteIdentifiers (ast : ptr) : M (option ptr) :=
  let! n := deref (Some ast) in
  let! isDeclaration :=
    match value n with
    | None => ret false
    | Some v => let! vn := deref (Some v) in
                ret (bool_decide (nodeType vn = TYPE_DECLARATION))
    end in
  if isDeclaration : bool then ret (Some ast) else
  let! name := getIdentifier n in
  let! foundHoisted := scopeLookup HoistedScope name in
  let! foundInScope := scopeLookup LocalScope name in
  let foundIdentifier :=
    match foundInScope with Some _ => foundInScope | None => foundHoisted end in
  match foundIdentifier with
  | None => ret (Some ast)
  | Some found =>
      let! fn := deref (Some found) in
      if isLiteralType (nodeType fn) then
        let! v := getLiteralValue fn in
        let! lit := newLiteralNode (nodeType fn) v (Some ast) in
        ret (Some lit)
      else ret (Some ast)
  end.

(** LiteralInlinerPass.cpp:73-97 *)
Definition bindIdentifierToScope (ast : ptr) (scope : ScopeRef) : M unit :=
  let! n := deref (Some ast) in
  let! l := deref (left n) in
  let! identifier := getIdentifier l in
  let! r := deref (right n) in
  match right n with
  | None => crash NullDereference
  | Some rhs =>
      if bool_decide (nodeType r = FUNCTION_DECLARATION) then
        let! h := (λ s, Done (heap s) s) in
        let uniqueFuncIdentifier := getQualifiedFunctionIdentifier identifier h rhs in
        let! existing := scopeLookup scope uniqueFuncIdentifier in
        match existing with
        | Some _ => addException (IllegalReassignmentError identifier)
        | None => scopeInsert scope uniqueFuncIdentifier rhs
        end
      else
        let! found := scopeLookup scope identifier in
        match found with
        | Some _ => addException (IllegalReassignmentError identifier)
        | None => scopeInsert scope identifier rhs
        end
  end.

(** The loop of LiteralInlinerPass.cpp:134-146 from index [i] on; [false]
    when the loop left the function through the [return] of line 142. *)
Fixpoint unpackEnumElements (baseIdentifier : string) (scope : ScopeRef)
    (enumElements : list ptr) (i : nat) : M bool :=
  match enumElements with
  | [] => ret true
  | el :: rest =>
      let! eln := deref (Some el) in
      let! sym := getSymbol eln in
      let! name := substr1 sym in
      let enumElIdentifier := baseIdentifier +:+ "." +:+ name in
      let! found := scopeLookup scope enumElIdentifier in
      match found with
      | Some _ =>
          exec addException (IllegalReassignmentError enumElIdentifier) in
          ret false
      | None =>
          let! lit := newLiteralNode NUMBER_LITERAL (to_string i) None in
          exec scopeInsert scope enumElIdentifier lit in
          unpackEnumElements baseIdentifier scope rest (S i)
      end
  end.

(** LiteralInlinerPass.cpp:129-150 *)
Definition unpackEnumElementsInScope (node : ptr) (scope : ScopeRef) : M unit :=
  let! n := deref (Some node) in
  let! identPtr := getEnumIdentifier n in
  let! identNode := deref identPtr in
  let! baseIdentifier := getIdentifier identNode in
  let! enumElements := getElements n in
  let! completed := unpackEnumElements baseIdentifier scope enumElements 0 in
  if completed : bool then
    let! t := newTypeDeclarationNode DataTypes_NUMBER None in
    scopeInsert scope baseIdentifier t
  else ret tt.

(** LiteralInlinerPass.cpp:152-162 *)
Definition remapEnumTypeReferences (ast : ptr) : M unit :=
  let! n := deref (Some ast) in
  let! t := getType n in
  let! remappedType := lookupInScope t in
  match remappedType with
  | None => ret tt
  | Some found =>
      let! fn := deref (Some found) in
      let! t' := getType fn in
      setType ast t'
  end.

(** LiteralInlinerPass.cpp:164-174 *)
Definition isLiteralAssignment (ast : ptr) : M bool :=
  let! n := deref (Some ast) in
  if negb (bool_decide (nodeType n = ASSIGNMENT)) then ret false else
  let! l := deref (left n) in
  let! tn := deref (value l) in
  let! identifierType := getType tn in
  let! r := deref (right n) in
  ret ((bool_decide (nodeType r = BOOLEAN_LITERAL)
          && bool_decide (identifierType = DataTypes_BOOLEAN))
       || (bool_decide (nodeType r = NUMBER_LITERAL)
          && bool_decide (identifierType = DataTypes_NUMBER))
       || (bool_decide (nodeType r = STRING_LITERAL)
          && bool_decide (identifierType = DataTypes_STRING))).

(** The condition of LiteralInlinerPass.cpp:33-34: the parent is a block
    whose last element carries the id of [ast]. *)
Definition isLastOfBlock (ast : ptr) : M bool :=
  let! n := deref (Some ast) in
  let! par := deref (parent n) in
  if bool_decide (nodeType par = BLOCK) then
    let! els := getBlockElements par in
    match last els with
    | None => crash BackOfEmpty
    | Some e =>
        let! en := deref (Some e) in
        ret (bool_decide (id en = id n))
    end
  else ret false.

(** LiteralInlinerPass.cpp:17-40.  The result is the new value of the
    reference [ast]; [None] is [nullptr]. *)
Definition optimizeAST (ast : ptr) (isCapsuleDirectChild : bool) : M (option ptr) :=
  let! n := deref (Some ast) in
  if bool_decide (nodeType n = IDENTIFIER) then substituteIdentifiers ast
  else if bool_decide (nodeType n = TYPE_DECLARATION) then
    exec remapEnumTypeReferences ast in ret (Some ast)
  else if bool_decide (nodeType n = ENUM) then
    exec unpackEnumElementsInScope ast LocalScope in ret None
  else if bool_decide (nodeType n = ASSIGNMENT) && negb isCapsuleDirectChild then
    exec bindIdentifierToScope ast LocalScope in
    let! literal := isLiteralAssignment ast in
    if literal : bool then
      let! isLast := isLastOfBlock ast in
      if isLast : bool then ret (Some ast) else ret None
    else ret (Some ast)
  else ret (Some ast).

(** The first loop of [hoistNecessary], LiteralInlinerPass.cpp:107-118, from
    index [i] on; the result is [removeAtIndices]. *)
Fixpoint hoistElements (topLevelElements : list ptr) (i : nat) : M (list nat) :=
  match topLevelElements with
  | [] => ret []
  | el :: rest =>
      let! eln := deref (Some el) in
      if bool_decide (nodeType eln = ENUM) then
        exec unpackEnumElementsInScope el HoistedScope in
        let! removed := hoistElements rest (S i) in
        ret (i :: removed)
      else if bool_decide (nodeType eln = ASSIGNMENT) then
        exec bindIdentifierToScope el HoistedScope in
        hoistElements rest (S i)
      else hoistElements rest (S i)
  end.

(** The second loop, LiteralInlinerPass.cpp:121-123: [vector::erase] at the
    recorded indices, last index first. *)
Definition eraseAtIndices {A} (removeAtIndices : list nat) (v : list A) : list A :=
  foldl (λ acc i, delete i acc) v (reverse removeAtIndices).

(** LiteralInlinerPass.cpp:99-127 *)
Definition hoistNecessary (ast : ptr) : M unit :=
  let! n := deref (Some ast) in
  let! nodeList := deref (value n) in
  let! topLevelElements := getElements nodeList in
  exec scopeEnter HoistedScope in
  let! removeAtIndices := hoistElements topLevelElements 0 in
  match value n with
  | None => crash NullDereference
  | Some listPtr => setElements listPtr (eraseAtIndices removeAtIndices topLevelElements)
  end.

End LiteralInlinerPass.

(** ** Capsule nodes

    CapsuleNode.hpp.  [ASTNode::getNodeTypePretty] and the [toJSON] of the
    other node classes are not among the sources; the printer of capsules is
    parametric in them. *)
Class NodePrinter := {
  getNodeTypePretty : ASTNode → string;
  valueToJSON : Heap → ptr → string
}.

Module Capsule.
Section Capsule.
Context `{printer : NodePrinter}.

(** The double quote character. *)
Definition dquote : string := String (Ascii.ascii_of_nat 34) EmptyString.

(** CapsuleNode.hpp:21-31, [CapsuleNode::toJSON] of the capsule [n] named
    [name]. *)
Definition toJSON (h : Heap) (n : ASTNode) (name : string) : string :=
  "{"
  +:+ dquote +:+ "type" +:+ dquote +:+ ": " +:+ dquote
  +:+ getNodeTypePretty n +:+ dquote
  +:+ ", " +:+ dquote +:+ "name" +:+ dquote +:+ ": " +:+ dquote
  +:+ name +:+ dquote
  +:+ ", " +:+ dquote +:+ "value" +:+ dquote +:+ ": "
  +:+ match value n with
      | Some v => valueToJSON h v
      | None => "null"
      end
  +:+ "}".

End Capsule.
End Capsule.

(** ** Reading the store *)

Section Views.
Context `{env : CompilerEnv}.

Definition otherScope (r : ScopeRef) : ScopeRef :=
  match r with
  | HoistedScope => LocalScope
  | LocalScope => HoistedScope
  end.

(** The key under which [bindIdentifierToScope] binds an assignment whose
    left-hand identifier is [identifier] and whose right-hand side is the
    node [rn] at [rhs]. *)
Definition bindingKey (identifier : string) (h : Heap) (rhs : ptr) (rn : ASTNode)
  : string :=
  if bool_decide (nodeType rn = FUNCTION_DECLARATION)
  then getQualifiedFunctionIdentifier identifier h rhs
  else identifier.

(** The binding an identifier occurrence resolves to in
    [substituteIdentifiers]: the local stack first, the hoisted stack as the
    fallback. *)
Definition resolveIdentifier (name : string) (s : PassState) : option ptr :=
  match SymbolTableStack.lookup name (localScope s) with
  | Some a => Some a
  | None => SymbolTableStack.lookup name (hoistedScope s)
  end.

(** Whether the [value] slot of an identifier holds a type declaration, which
    marks a declaration site; [None] when the slot points outside the store. *)
Definition valueIsTypeDeclaration (h : Heap) (n : ASTNode) : option bool :=
  match value n with
  | None => Some false
  | Some v =>
      match h !! v with
      | Some vn => Some (bool_decide (nodeType vn = TYPE_DECLARATION))
      | None => None
      end
  end.

(** The kind of the right-hand side [rn] matches the declared type name. *)
Definition literalMatchesType (rn : ASTNode) (declared : string) : bool :=
  (bool_decide (nodeType rn = BOOLEAN_LITERAL)
     && bool_decide (declared = DataTypes_BOOLEAN))
  || (bool_decide (nodeType rn = NUMBER_LITERAL)
     && bool_decide (declared = DataTypes_NUMBER))
  || (bool_decide (nodeType rn = STRING_LITERAL)
     && bool_decide (declared = DataTypes_STRING)).

(** The last element of a node that is a block; [None] for any other
    node. *)
Definition finalStatementOf (pn : ASTNode) : option ptr :=
  if bool_decide (nodeType pn = BLOCK) then
    match class pn with
    | BlockNode els => last els
    | _ => None
    end
  else None.

(** The name of an enum element: the symbol at [e] without its sigil. *)
Definition symbolName (h : Heap) (e : ptr) : option string :=
  match h !! e with
  | Some en =>
      match class en with
      | SymbolNode (String _ name) => Some name
      | _ => None
      end
  | None => None
  end.

(** The base identifier and the element names of the enum at [node];
    [None] when a child is missing or of the wrong class. *)
Definition enumView (h : Heap) (node : ptr) : option (string * list string) :=
  match h !! node with
  | Some n =>
      match class n with
      | EnumNode (Some ip) els =>
          match h !! ip with
          | Some idn =>
              match class idn with
              | IdentifierNode base =>
                  match mapM (symbolName h) els with
                  | Some names => Some (base, names)
                  | None => None
                  end
              | _ => None
              end
          | None => None
          end
      | _ => None
      end
  | None => None
  end.

(** The scope key of an enum element. *)
Definition enumKey (base name : string) : string := base +:+ "." +:+ name.

(** The node at [q] is a Number literal of value [i]. *)
Definition isNumberLiteral (h : Heap) (q : ptr) (i : nat) : Prop :=
  ∃ qn, h !! q = Some qn ∧ nodeType qn = NUMBER_LITERAL
        ∧ class qn = LiteralNode (to_string i).

(** The node at [q] is a type declaration of the primitive kind NUMBER. *)
Definition isNumberType (h : Heap) (q : ptr) : Prop :=
  ∃ qn, h !! q = Some qn ∧ nodeType qn = TYPE_DECLARATION
        ∧ class qn = TypeDeclarationNode DataTypes_NUMBER.

(** The elements of a node of a class deriving from [ASTNodeList]. *)
Definition elementsOf (n : ASTNode) : option (list ptr) :=
  match class n with
  | ASTNodeList els | BlockNode els | EnumNode _ els => Some els
  | _ => None
  end.

(** Whether the node at [e] has the node type ENUM. *)
Definition isEnum (h : Heap) (e : ptr) : bool :=
  match h !! e with
  | Some n => bool_decide (nodeType n = ENUM)
  | None => false
  end.

(** The left-hand identifier of the assignment at [e] and the key under
    which the binding rule binds it; [None] when a child is missing or of
    the wrong class. *)
Definition assignmentView (h : Heap) (e : ptr) : option (string * string) :=
  match h !! e with
  | Some n =>
      match left n, right n with
      | Some l, Some rhs =>
          match h !! l, h !! rhs with
          | Some ln, Some rn =>
              match class ln with
              | IdentifierNode identifier =>
                  Some (identifier, bindingKey identifier h rhs rn)
              | _ => None
              end
          | _, _ => None
          end
      | _, _ => None
      end
  | None => None
  end.

(** A top-level declaration the hoisting phase can process: it is in the
    store, and when it is an Enum or an Assignment its children are in
    place. *)
Definition wfTopLevel (h : Heap) (e : ptr) : bool :=
  match h !! e with
  | Some n =>
      if bool_decide (nodeType n = ENUM) then
        bool_decide (is_Some (enumView h e))
      else if bool_decide (nodeType n = ASSIGNMENT) then
        bool_decide (is_Some (assignmentView h e))
      else true
  | None => false
  end.

(** The key of a top-level declaration that is an Assignment; [Some None]
    for the other node types. *)
Definition topLevelKey (h : Heap) (e : ptr) : option (option string) :=
  match h !! e with
  | Some n =>
      if bool_decide (nodeType n = ASSIGNMENT)
      then match assignmentView h e with
           | Some (_, key) => Some (Some key)
           | None => None
           end
      else Some None
  | None => None
  end.

(** The keys of the Assignments among a sequence of declarations. *)
Definition assignmentKeys (keys : list (option string)) : list string :=
  omap (λ key, key) keys.

(** The positions, counted from [i], of the elements satisfying [P]. *)
Fixpoint indicesWhere {A} (P : A → bool) (l : list A) (i : nat) : list nat :=
  match l with
  | [] => []
  | x :: rest =>
      if P x then i :: indicesWhere P rest (S i)
      else indicesWhere P rest (S i)
  end.

(** How a function given the stack [scope] may change the pass state:
    the store only gains nodes, the other stack is untouched, no frame is
    pushed or popped, the top frame only gains bindings, and the collector
    only gains diagnostics. *)
Definition grows (scope : ScopeRef) (s s' : PassState) : Prop :=
  heap s ⊆ heap s'
  ∧ getScope (otherScope scope) s' = getScope (otherScope scope) s
  ∧ below (getScope scope s') = below (getScope scope s)
  ∧ top (getScope scope s) ⊆ top (getScope scope s')
  ∧ encounteredExceptions s `prefix_of` encounteredExceptions s'.

(** The list [l'] is [l] or [l] followed by one more entry. *)
Definition atMostOneMore {A} (l l' : list A) : Prop :=
  l' = l ∨ ∃ x, l' = l ++ [x].

(** The node at [a] is a literal of kind [t] and value [v]. *)
Definition isLiteralCopy (h : Heap) (a : ptr) (t : Types) (v : string) : Prop :=
  ∃ lit, h !! a = Some lit ∧ nodeType lit = t ∧ class lit = LiteralNode v.

End Views.

(** ** A run of the pass

    [OptimizationPass::optimize] and the traversal that calls [optimizeAST]
    are not among the sources.  A run is described by what the spec says
    about it, with the order of the visits left open. *)

Section Traversal.
Context `{env : CompilerEnv}.

(** Modelled from the spec: what the traversal of [OptimizationPass] (its
    source is not given) does once the hoisting phase is over.  It applies
    the per-node step to a node, telling it whether the node is a direct
    capsule-level declaration, and it enters and exits a local scope per
    nested block (spec 4.1, 4.4 phase B).  Which nodes are visited, and in
    which order, is not fixed here. *)
Inductive Action :=
  | Visit (ast : ptr) (isCapsuleDirectChild : bool)
  | EnterScope
  | ExitScope.

(** Modelled from the spec: [scope.exitScope()]; a stack that refuses to pop
    its base frame is left as it is. *)
Definition scopeExit (r : ScopeRef) : M unit :=
  λ s, match SymbolTableStack.exitScope (getScope r s) with
       | Some t => Done tt (setScope r t s)
       | None => Done tt s
       end.

(** Modelled from the spec: one action of the traversal.  A visit yields
    the new value of the reference it was given. *)
Definition step (a : Action) : M (list (option ptr)) :=
  match a with
  | Visit ast isCapsuleDirectChild =>
      let! r := optimizeAST ast isCapsuleDirectChild in ret [r]
  | EnterScope => exec scopeEnter LocalScope in ret []
  | ExitScope => exec scopeExit LocalScope in ret []
  end.

(** Modelled from the spec: the traversal takes its actions in order; the
    result lists the references of the visits. *)
Fixpoint traverse (actions : list Action) : M (list (option ptr)) :=
  match actions with
  | [] => ret []
  | a :: rest =>
      let! r := step a in
      let! rs := traverse rest in
      ret (r ++ rs)
  end.

(** Modelled from the spec: a run of the pass on a capsule: the hoisting
    phase once, before the traversal (spec 4.4, phase A). *)
Definition optimize (capsule : ptr) (actions : list Action)
  : M (list (option ptr)) :=
  exec hoistNecessary capsule in traverse actions.

(** Modelled from the spec: the state a run starts in.  The scope state is
    derived fresh on every invocation (spec 4.2); the tree and the collector
    of diagnostics are the ones the run finds. *)
Definition freshRun (h : Heap) (diagnostics : list Error) : PassState :=
  mkState h SymbolTableStack.empty SymbolTableStack.empty diagnostics.

(** The references of the visits when no visit changes its reference. *)
Definition unchanged (actions : list Action) : list (option ptr) :=
  flat_map (λ a, match a with
                 | Visit ast _ => [Some ast]
                 | EnterScope | ExitScope => []
                 end) actions.

(** In the state [s] the action finds nothing to rewrite and nothing to
    report.  A visited node is no Enum; an identifier occurrence is a
    declaration site or resolves to no literal binding; the name of a type
    declaration is not bound; an Assignment below the capsule level finds
    its key free in the local stack and is not elidable: its right-hand side
    is no literal of the declared type, or it is the last statement of its
    block. *)
Inductive Idle (s : PassState) : Action → Prop :=
  | idle_enter : Idle s EnterScope
  | idle_exit : Idle s ExitScope
  | idle_other ast n isCapsuleDirectChild :
      heap s !! ast = Some n →
      nodeType n ≠ IDENTIFIER → nodeType n ≠ TYPE_DECLARATION →
      nodeType n ≠ ENUM → nodeType n ≠ ASSIGNMENT →
      Idle s (Visit ast isCapsuleDirectChild)
  | idle_capsule_assignment ast n :
      heap s !! ast = Some n → nodeType n = ASSIGNMENT →
      Idle s (Visit ast true)
  | idle_declaration_site ast n isCapsuleDirectChild :
      heap s !! ast = Some n → nodeType n = IDENTIFIER →
      valueIsTypeDeclaration (heap s) n = Some true →
      Idle s (Visit ast isCapsuleDirectChild)
  | idle_unbound_identifier ast n name isCapsuleDirectChild :
      heap s !! ast = Some n → nodeType n = IDENTIFIER →
      valueIsTypeDeclaration (heap s) n = Some false →
      class n = IdentifierNode name →
      resolveIdentifier name s = None →
      Idle s (Visit ast isCapsuleDirectChild)
  | idle_identifier_of_no_literal ast n name found fn isCapsuleDirectChild :
      heap s !! ast = Some n → nodeType n = IDENTIFIER →
      valueIsTypeDeclaration (heap s) n = Some false →
      class n = IdentifierNode name →
      resolveIdentifier name s = Some found →
      heap s !! found = Some fn → isLiteralType (nodeType fn) = false →
      Idle s (Visit ast isCapsuleDirectChild)
  | idle_type_declaration ast n t isCapsuleDirectChild :
      heap s !! ast = Some n → nodeType n = TYPE_DECLARATION →
      class n = TypeDeclarationNode t →
      resolveIdentifier t s = None →
      Idle s (Visit ast isCapsuleDirectChild)
  | idle_assignment ast n l ln identifier tv tn declared rhs rn :
      heap s !! ast = Some n → nodeType n = ASSIGNMENT →
      left n = Some l → heap s !! l = Some ln →
      class ln = IdentifierNode identifier →
      value ln = Some tv → heap s !! tv = Some tn →
      class tn = TypeDeclarationNode declared →
      right n = Some rhs → heap s !! rhs = Some rn →
      SymbolTableStack.lookup (bindingKey identifier (heap s) rhs rn)
                              (localScope s) = None →
      (literalMatchesType rn declared = false
       ∨ ∃ par pn e en,
           parent n = Some par ∧ heap s !! par = Some pn
           ∧ finalStatementOf pn = Some e
           ∧ heap s !! e = Some en ∧ id en = id n) →
      Idle s (Visit ast false).

(** Every action of the traversal is idle in the state in which it is
    taken. *)
Fixpoint IdleRun (actions : list Action) (s : PassState) : Prop :=
  match actions with
  | [] => True
  | a :: rest =>
      Idle s a ∧ ∀ r s1, step a s = Done r s1 → IdleRun rest s1
  end.

End Traversal.

(** ** A concrete environment and concrete trees *)

Module Sample.
#[local] Open Scope positive_scope.

Definition env : CompilerEnv := {|
  DataTypes_NUMBER := "Number";
  DataTypes_STRING := "String";
  DataTypes_BOOLEAN := "Boolean";
  generateId := λ h, Z.pos (fresh (dom h));
  getQualifiedFunctionIdentifier := λ name _ _, name +:+ "()"
|}.

Definition node (a : ptr) (t : Types) (par l r v : option ptr) (c : NodeClass)
  : ASTNode := mkNode t (Z.pos a) par l r v c.

(** The block
    [{ x: Number = 5; y: Number = x; x: Number = 6; z: x = 7; x }]. *)
Definition blockHeap : Heap :=
  list_to_map [
    (1, node 1 BLOCK None None None None (BlockNode [2; 6; 10; 14; 18]));
    (2, node 2 ASSIGNMENT (Some 1) (Some 3) (Some 5) None PlainNode);
    (3, node 3 IDENTIFIER (Some 2) None None (Some 4) (IdentifierNode "x"));
    (4, node 4 TYPE_DECLARATION (Some 3) None None None (TypeDeclarationNode "Number"));
    (5, node 5 NUMBER_LITERAL (Some 2) None None None (LiteralNode "5"));
    (6, node 6 ASSIGNMENT (Some 1) (Some 7) (Some 9) None PlainNode);
    (7, node 7 IDENTIFIER (Some 6) None None (Some 8) (IdentifierNode "y"));
    (8, node 8 TYPE_DECLARATION (Some 7) None None None (TypeDeclarationNode "Number"));
    (9, node 9 IDENTIFIER (Some 6) None None None (IdentifierNode "x"));
    (10, node 10 ASSIGNMENT (Some 1) (Some 11) (Some 13) None PlainNode);
    (11, node 11 IDENTIFIER (Some 10) None None (Some 12) (IdentifierNode "x"));
    (12, node 12 TYPE_DECLARATION (Some 11) None None None (TypeDeclarationNode "Number"));
    (13, node 13 NUMBER_LITERAL (Some 10) None None None (LiteralNode "6"));
    (14, node 14 ASSIGNMENT (Some 1) (Some 15) (Some 17) None PlainNode);
    (15, node 15 IDENTIFIER (Some 14) None None (Some 16) (IdentifierNode "z"));
    (16, node 16 TYPE_DECLARATION (Some 15) None None None (TypeDeclarationNode "x"));
    (17, node 17 NUMBER_LITERAL (Some 14) None None None (LiteralNode "7"));
    (18, node 18 IDENTIFIER (Some 1) None None None (IdentifierNode "x"))
  ].

(** The capsule
    [capsule Main { enum Level { :low, :high }  x: Number = 5  x: Number = 6
                    enum Color { :red, :green, :red, :blue } }]. *)
Definition capsuleHeap : Heap :=
  list_to_map [
    (1, node 1 CAPSULE None None None (Some 2) (CapsuleNode "Main"));
    (2, node 2 AST_NODE_LIST (Some 1) None None None (ASTNodeList [3; 7; 11; 15]));
    (3, node 3 ENUM (Some 2) None None None (EnumNode (Some 4) [5; 6]));
    (4, node 4 IDENTIFIER (Some 3) None None None (IdentifierNode "Level"));
    (5, node 5 SYMBOL (Some 3) None None None (SymbolNode ":low"));
    (6, node 6 SYMBOL (Some 3) None None None (SymbolNode ":high"));
    (7, node 7 ASSIGNMENT (Some 2) (Some 8) (Some 10) None PlainNode);
    (8, node 8 IDENTIFIER (Some 7) None None (Some 9) (IdentifierNode "x"));
    (9, node 9 TYPE_DECLARATION (Some 8) None None None (TypeDeclarationNode "Number"));
    (10, node 10 NUMBER_LITERAL (Some 7) None None None (LiteralNode "5"));
    (11, node 11 ASSIGNMENT (Some 2) (Some 12) (Some 14) None PlainNode);
    (12, node 12 IDENTIFIER (Some 11) None None (Some 13) (IdentifierNode "x"));
    (13, node 13 TYPE_DECLARATION (Some 12) None None None (TypeDeclarationNode "Number"));
    (14, node 14 NUMBER_LITERAL (Some 11) None None None (LiteralNode "6"));
    (15, node 15 ENUM (Some 2) None None None (EnumNode (Some 16) [17; 18; 19; 20]));
    (16, node 16 IDENTIFIER (Some 15) None None None (IdentifierNode "Color"));
    (17, node 17 SYMBOL (Some 15) None None None (SymbolNode ":red"));
    (18, node 18 SYMBOL (Some 15) None None None (SymbolNode ":green"));
    (19, node 19 SYMBOL (Some 15) None None None (SymbolNode ":red"));
    (20, node 20 SYMBOL (Some 15) None None None (SymbolNode ":blue"))
  ].

(** The pass before it has seen the capsule. *)
Definition capsuleStart : PassState :=
  mkState capsuleHeap SymbolTableStack.empty SymbolTableStack.empty [].

(** The capsule
    [capsule Main { enum Level { :low, :high }  x: Number = a  x: Number = b }],
    which declares [x] twice and holds no literal assignment. *)
Definition twiceDeclaredHeap : Heap :=
  list_to_map [
    (1, node 1 CAPSULE None None None (Some 2) (CapsuleNode "Main"));
    (2, node 2 AST_NODE_LIST (Some 1) None None None (ASTNodeList [3; 7; 11]));
    (3, node 3 ENUM (Some 2) None None None (EnumNode (Some 4) [5; 6]));
    (4, node 4 IDENTIFIER (Some 3) None None None (IdentifierNode "Level"));
    (5, node 5 SYMBOL (Some 3) None None None (SymbolNode ":low"));
    (6, node 6 SYMBOL (Some 3) None None None (SymbolNode ":high"));
    (7, node 7 ASSIGNMENT (Some 2) (Some 8) (Some 10) None PlainNode);
    (8, node 8 IDENTIFIER (Some 7) None None (Some 9) (IdentifierNode "x"));
    (9, node 9 TYPE_DECLARATION (Some 8) None None None (TypeDeclarationNode "Number"));
    (10, node 10 IDENTIFIER (Some 7) None None None (IdentifierNode "a"));
    (11, node 11 ASSIGNMENT (Some 2) (Some 12) (Some 14) None PlainNode);
    (12, node 12 IDENTIFIER (Some 11) None None (Some 13) (IdentifierNode "x"));
    (13, node 13 TYPE_DECLARATION (Some 12) None None None (TypeDeclarationNode "Number"));
    (14, node 14 IDENTIFIER (Some 11) None None None (IdentifierNode "b"))
  ].

(** The capsule [capsule Main { y: Number = x  x: Number = 5  z: Number = y }]. *)
Definition chainHeap : Heap :=
  list_to_map [
    (1, node 1 CAPSULE None None None (Some 2) (CapsuleNode "Main"));
    (2, node 2 AST_NODE_LIST (Some 1) None None None (ASTNodeList [3; 7; 11]));
    (3, node 3 ASSIGNMENT (Some 2) (Some 4) (Some 6) None PlainNode);
    (4, node 4 IDENTIFIER (Some 3) None None (Some 5) (IdentifierNode "y"));
    (5, node 5 TYPE_DECLARATION (Some 4) None None None (TypeDeclarationNode "Number"));
    (6, node 6 IDENTIFIER (Some 3) None None None (IdentifierNode "x"));
    (7, node 7 ASSIGNMENT (Some 2) (Some 8) (Some 10) None PlainNode);
    (8, node 8 IDENTIFIER (Some 7) None None (Some 9) (IdentifierNode "x"));
    (9, node 9 TYPE_DECLARATION (Some 8) None None None (TypeDeclarationNode "Number"));
    (10, node 10 NUMBER_LITERAL (Some 7) None None None (LiteralNode "5"));
    (11, node 11 ASSIGNMENT (Some 2) (Some 12) (Some 14) None PlainNode);
    (12, node 12 IDENTIFIER (Some 11) None None (Some 13) (IdentifierNode "z"));
    (13, node 13 TYPE_DECLARATION (Some 12) None None None (TypeDeclarationNode "Number"));
    (14, node 14 IDENTIFIER (Some 11) None None None (IdentifierNode "y"))
  ].

(** A depth-first traversal of that capsule: each declaration, its
    left-hand identifier, the type annotation and the right-hand side. *)
Definition chainTraversal : list Action :=
  [Visit 3 true; Visit 4 false; Visit 5 false; Visit 6 false;
   Visit 7 true; Visit 8 false; Visit 9 false; Visit 10 false;
   Visit 11 true; Visit 12 false; Visit 13 false; Visit 14 false].

(** The same capsule once the first run has replaced the right-hand side of
    [y] by the literal it created at address 15:
    [capsule Main { y: Number = 5  x: Number = 5  z: Number = y }]. *)
Definition chainOptimizedHeap : Heap :=
  <[3 := node 3 ASSIGNMENT (Some 2) (Some 4) (Some 15) None PlainNode]>
    (<[15 := node 15 NUMBER_LITERAL (Some 6) None None None (LiteralNode "5")]>
       chainHeap).

Definition chainOptimizedTraversal : list Action :=
  [Visit 3 true; Visit 4 false; Visit 5 false; Visit 15 false;
   Visit 7 true; Visit 8 false; Visit 9 false; Visit 10 false;
   Visit 11 true; Visit 12 false; Visit 13 false; Visit 14 false].

(** A depth-first traversal of the capsule that declares [x] twice, after
    its enum has been hoisted. *)
Definition twiceDeclaredTraversal : list Action :=
  [Visit 7 true; Visit 8 false; Visit 9 false; Visit 10 false;
   Visit 11 true; Visit 12 false; Visit 13 false; Visit 14 false].

(** The capsule [capsule Main { f = { x: Number = a; x: Number = b } }]:
    the only top-level key is [f], the block declares [x] twice. *)
Definition twiceInBlockHeap : Heap :=
  list_to_map [
    (1, node 1 CAPSULE None None None (Some 2) (CapsuleNode "Main"));
    (2, node 2 AST_NODE_LIST (Some 1) None None None (ASTNodeList [3]));
    (3, node 3 ASSIGNMENT (Some 2) (Some 4) (Some 6) None PlainNode);
    (4, node 4 IDENTIFIER (Some 3) None None (Some 5) (IdentifierNode "f"));
    (5, node 5 TYPE_DECLARATION (Some 4) None None None (TypeDeclarationNode "Number"));
    (6, node 6 BLOCK (Some 3) None None None (BlockNode [7; 11]));
    (7, node 7 ASSIGNMENT (Some 6) (Some 8) (Some 10) None PlainNode);
    (8, node 8 IDENTIFIER (Some 7) None None (Some 9) (IdentifierNode "x"));
    (9, node 9 TYPE_DECLARATION (Some 8) None None None (TypeDeclarationNode "Number"));
    (10, node 10 IDENTIFIER (Some 7) None None None (IdentifierNode "a"));
    (11, node 11 ASSIGNMENT (Some 6) (Some 12) (Some 14) None PlainNode);
    (12, node 12 IDENTIFIER (Some 11) None None (Some 13) (IdentifierNode "x"));
    (13, node 13 TYPE_DECLARATION (Some 12) None None None (TypeDeclarationNode "Number"));
    (14, node 14 IDENTIFIER (Some 11) None None None (IdentifierNode "b"))
  ].

Definition twiceInBlockTraversal : list Action :=
  [Visit 3 true; Visit 4 false; Visit 5 false; Visit 6 false;
   EnterScope;
   Visit 7 false; Visit 8 false; Visit 9 false; Visit 10 false;
   Visit 11 false; Visit 12 false; Visit 13 false; Visit 14 false;
   ExitScope].

(** The capsule
    [capsule Main { x: Number = 5  f: Number = { y: Number = a; z: Number = 7 } }]:
    its keys are pairwise distinct, [a] is bound nowhere, and the literal
    assignment in the block is the last statement. *)
Definition settledHeap : Heap :=
  list_to_map [
    (1, node 1 CAPSULE None None None (Some 2) (CapsuleNode "Main"));
    (2, node 2 AST_NODE_LIST (Some 1) None None None (ASTNodeList [3; 7]));
    (3, node 3 ASSIGNMENT (Some 2) (Some 4) (Some 6) None PlainNode);
    (4, node 4 IDENTIFIER (Some 3) None None (Some 5) (IdentifierNode "x"));
    (5, node 5 TYPE_DECLARATION (Some 4) None None None (TypeDeclarationNode "Number"));
    (6, node 6 NUMBER_LITERAL (Some 3) None None None (LiteralNode "5"));
    (7, node 7 ASSIGNMENT (Some 2) (Some 8) (Some 10) None PlainNode);
    (8, node 8 IDENTIFIER (Some 7) None None (Some 9) (IdentifierNode "f"));
    (9, node 9 TYPE_DECLARATION (Some 8) None None None (TypeDeclarationNode "Number"));
    (10, node 10 BLOCK (Some 7) None None None (BlockNode [11; 15]));
    (11, node 11 ASSIGNMENT (Some 10) (Some 12) (Some 14) None PlainNode);
    (12, node 12 IDENTIFIER (Some 11) None None (Some 13) (IdentifierNode "y"));
    (13, node 13 TYPE_DECLARATION (Some 12) None None None (TypeDeclarationNode "Number"));
    (14, node 14 IDENTIFIER (Some 11) None None None (IdentifierNode "a"));
    (15, node 15 ASSIGNMENT (Some 10) (Some 16) (Some 18) None PlainNode);
    (16, node 16 IDENTIFIER (Some 15) None None (Some 17) (IdentifierNode "z"));
    (17, node 17 TYPE_DECLARATION (Some 16) None None None (TypeDeclarationNode "Number"));
    (18, node 18 NUMBER_LITERAL (Some 15) None None None (LiteralNode "7"))
  ].

(** A depth-first traversal of that capsule, the block in a scope of its
    own. *)
Definition settledTraversal : list Action :=
  [Visit 3 true; Visit 4 false; Visit 5 false; Visit 6 false;
   Visit 7 true; Visit 8 false; Visit 9 false; Visit 10 false;
   EnterScope;
   Visit 11 false; Visit 12 false; Visit 13 false; Visit 14 false;
   Visit 15 false; Visit 16 false; Visit 17 false; Visit 18 false;
   ExitScope].

(** An environment whose qualified function identifier tells declarations
    apart by their address. *)
Definition envByAddress : CompilerEnv := {|
  DataTypes_NUMBER := "Number";
  DataTypes_STRING := "String";
  DataTypes_BOOLEAN := "Boolean";
  generateId := λ h, Z.pos (fresh (dom h));
  getQualifiedFunctionIdentifier := λ name _ rhs, name +:+ pretty (Npos rhs)
|}.

Definition printer : NodePrinter := {|
  getNodeTypePretty := λ _, "Capsule";
  valueToJSON := λ _ _, "[]"
|}.

(** Two function declarations assigned to [f]. *)
Definition overloadHeap : Heap :=
  list_to_map [
    (1, node 1 BLOCK None None None None (BlockNode [2; 5]));
    (2, node 2 ASSIGNMENT (Some 1) (Some 3) (Some 4) None PlainNode);
    (3, node 3 IDENTIFIER (Some 2) None None None (IdentifierNode "f"));
    (4, node 4 FUNCTION_DECLARATION (Some 2) None None None PlainNode);
    (5, node 5 ASSIGNMENT (Some 1) (Some 6) (Some 7) None PlainNode);
    (6, node 6 IDENTIFIER (Some 5) None None None (IdentifierNode "f"));
    (7, node 7 FUNCTION_DECLARATION (Some 5) None None None PlainNode)
  ].

Definition overloadStart : PassState :=
  mkState overloadHeap SymbolTableStack.empty SymbolTableStack.empty [].

(** The enum [enum E { :a, <empty symbol> }]. *)
Definition emptySymbolHeap : Heap :=
  list_to_map [
    (1, node 1 ENUM None None None None (EnumNode (Some 2) [3; 4]));
    (2, node 2 IDENTIFIER (Some 1) None None None (IdentifierNode "E"));
    (3, node 3 SYMBOL (Some 1) None None None (SymbolNode ":a"));
    (4, node 4 SYMBOL (Some 1) None None None (SymbolNode ""))
  ].

Definition emptySymbolStart : PassState :=
  mkState emptySymbolHeap SymbolTableStack.empty SymbolTableStack.empty [].

(** The enum [enum Level { :low, :high }], a reference [Level.high] and a
    type annotation [Level]. *)
Definition enumUseHeap : Heap :=
  list_to_map [
    (3, node 3 ENUM None None None None (EnumNode (Some 4) [5; 6]));
    (4, node 4 IDENTIFIER (Some 3) None None None (IdentifierNode "Level"));
    (5, node 5 SYMBOL (Some 3) None None None (SymbolNode ":low"));
    (6, node 6 SYMBOL (Some 3) None None None (SymbolNode ":high"));
    (7, node 7 IDENTIFIER None None None None (IdentifierNode "Level.high"));
    (8, node 8 TYPE_DECLARATION None None None None (TypeDeclarationNode "Level"))
  ].

Definition enumUseStart : PassState :=
  mkState enumUseHeap SymbolTableStack.empty SymbolTableStack.empty [].

(** The same tree when the top frame of the hoisted stack already binds
    [Level], to the node at address 7. *)
Definition levelBound : PassState :=
  mkState enumUseHeap (mkStack {[ "Level" := 7 ]} []) SymbolTableStack.empty [].

(** The assignments [x: Number = 5] and [y: Number = z] without a
    parent. *)
Definition orphanHeap : Heap :=
  list_to_map [
    (2, node 2 ASSIGNMENT None (Some 3) (Some 5) None PlainNode);
    (3, node 3 IDENTIFIER (Some 2) None None (Some 4) (IdentifierNode "x"));
    (4, node 4 TYPE_DECLARATION (Some 3) None None None (TypeDeclarationNode "Number"));
    (5, node 5 NUMBER_LITERAL (Some 2) None None None (LiteralNode "5"));
    (6, node 6 ASSIGNMENT None (Some 7) (Some 9) None PlainNode);
    (7, node 7 IDENTIFIER (Some 6) None None (Some 8) (IdentifierNode "y"));
    (8, node 8 TYPE_DECLARATION (Some 7) None None None (TypeDeclarationNode "Number"));
    (9, node 9 IDENTIFIER (Some 6) None None None (IdentifierNode "z"))
  ].

Definition orphanStart : PassState :=
  mkState orphanHeap SymbolTableStack.empty SymbolTableStack.empty [].

(** The capsule [capsule Main { y: Number = x  x: Number = 5 }], which uses
    [x] before it declares it. *)
Definition forwardUseHeap : Heap :=
  list_to_map [
    (1, node 1 CAPSULE None None None (Some 2) (CapsuleNode "Main"));
    (2, node 2 AST_NODE_LIST (Some 1) None None None (ASTNodeList [7; 11]));
    (7, node 7 ASSIGNMENT (Some 2) (Some 8) (Some 10) None PlainNode);
    (8, node 8 IDENTIFIER (Some 7) None None (Some 9) (IdentifierNode "y"));
    (9, node 9 TYPE_DECLARATION (Some 8) None None None (TypeDeclarationNode "Number"));
    (10, node 10 IDENTIFIER (Some 7) None None None (IdentifierNode "x"));
    (11, node 11 ASSIGNMENT (Some 2) (Some 12) (Some 14) None PlainNode);
    (12, node 12 IDENTIFIER (Some 11) None None (Some 13) (IdentifierNode "x"));
    (13, node 13 TYPE_DECLARATION (Some 12) None None None (TypeDeclarationNode "Number"));
    (14, node 14 NUMBER_LITERAL (Some 11) None None None (LiteralNode "5"))
  ].

Definition forwardUseStart : PassState :=
  mkState forwardUseHeap SymbolTableStack.empty SymbolTableStack.empty [].

(** Inside the block when the hoisted stack binds [x] to the literal 6 and
    the local stack binds it to the literal 5. *)
Definition xShadowed : PassState :=
  mkState blockHeap (mkStack {[ "x" := 13 ]} [∅])
          (mkStack {[ "x" := 5 ]} [∅]) [].

(** The pass at the start of the block: nothing bound yet. *)
Definition blockStart : PassState :=
  mkState blockHeap SymbolTableStack.empty SymbolTableStack.empty [].

(** The pass inside the block after its first statement: [x] is bound, in
    the top frame of the local stack, to the literal at address 5. *)
Definition xBoundOnTop : PassState :=
  mkState blockHeap SymbolTableStack.empty
          (mkStack {[ "x" := 5 ]} [∅]) [].

(** The pass inside a scope nested in that block: [x] is bound in the outer
    frame of the local stack only. *)
Definition xBoundBelow : PassState :=
  mkState blockHeap SymbolTableStack.empty
          (mkStack ∅ [{[ "x" := 5 ]}; ∅]) [].

End Sample.

(** * Properties *)

Section Basics.
Context `{env : CompilerEnv}.

Lemma lookup_top_Some key node (t : SymbolTableStack) :
  top t !! key = Some node → SymbolTableStack.lookup key t = Some node.
Proof. intros H. unfold SymbolTableStack.lookup. simpl. by rewrite H. Qed.

Lemma lookup_None_top key (t : SymbolTableStack) :
  SymbolTableStack.lookup key t = None → top t !! key = None.
Proof.
  unfold SymbolTableStack.lookup. simpl.
  destruct (top t !! key); [discriminate | done].
Qed.

Lemma insert_unbound key node (t : SymbolTableStack) :
  SymbolTableStack.lookup key t = None →
  SymbolTableStack.insert key node t
  = (true, mkStack (<[key := node]> (top t)) (below t)).
Proof.
  intros H%lookup_None_top. unfold SymbolTableStack.insert. by rewrite H.
Qed.

Lemma getScope_setScope r t s : getScope r (setScope r t s) = t.
Proof. by destruct r. Qed.

Lemma getScope_setScope_other r t s :
  getScope (otherScope r) (setScope r t s) = getScope (otherScope r) s.
Proof. by destruct r. Qed.

Lemma heap_setScope r t s : heap (setScope r t s) = heap s.
Proof. by destruct r. Qed.

Lemma exceptions_setScope r t s :
  encounteredExceptions (setScope r t s) = encounteredExceptions s.
Proof. by destruct r. Qed.

Lemma app_singleton_ne {A} (l : list A) (x : A) : l ++ [x] ≠ l.
Proof.
  intros H. apply (f_equal length) in H. rewrite length_app in H.
  simpl in H. lia.
Qed.

End Basics.

Section Monad.

Lemma bind_Done {A B} (m : M A) (k : A → M B) s a s' :
  m s = Done a s' → bind m k s = k a s'.
Proof. intros H. unfold bind. by rewrite H. Qed.

Lemma deref_Some a s n : heap s !! a = Some n → deref (Some a) s = Done n s.
Proof. intros H. unfold deref. by rewrite H. Qed.

End Monad.

(** Running the next step of a computation whose result is known. *)
Ltac run H := rewrite (bind_Done _ _ _ _ _ H).
Ltac run_deref H := rewrite (bind_Done _ _ _ _ _ (deref_Some _ _ _ H)).

Section BindingRule.
Context `{env : CompilerEnv}.

(** The effect of the binding rule on an assignment whose children are in
    place. *)
Lemma bindIdentifierToScope_eq ast scope s n l ln identifier rhs rn :
  heap s !! ast = Some n →
  left n = Some l → heap s !! l = Some ln →
  class ln = IdentifierNode identifier →
  right n = Some rhs → heap s !! rhs = Some rn →
  bindIdentifierToScope ast scope s =
    let key := bindingKey identifier (heap s) rhs rn in
    match SymbolTableStack.lookup key (getScope scope s) with
    | Some _ => addException (IllegalReassignmentError identifier) s
    | None => scopeInsert scope key rhs s
    end.
Proof.
  intros Hn Hl Hln Hc Hr Hrn.
  unfold bindIdentifierToScope, bind, deref, getIdentifier, bindingKey.
  repeat (progress (simpl; rewrite ?Hn, ?Hl, ?Hln, ?Hc, ?Hr, ?Hrn)).
  case_bool_decide; simpl; unfold scopeLookup;
    by destruct (SymbolTableStack.lookup _ _).
Qed.

Lemma bindIdentifierToScope_completes
    ast scope s n l ln identifier rhs rn :
  heap s !! ast = Some n →
  left n = Some l → heap s !! l = Some ln →
  class ln = IdentifierNode identifier →
  right n = Some rhs → heap s !! rhs = Some rn →
  ∃ s', bindIdentifierToScope ast scope s = Done tt s' ∧ heap s' = heap s.
Proof.
  intros Hn Hl Hln Hc Hr Hrn.
  rewrite (bindIdentifierToScope_eq _ _ _ _ _ _ _ _ _ Hn Hl Hln Hc Hr Hrn).
  simpl. destruct (SymbolTableStack.lookup _ _).
  - by eexists.
  - eexists. split; [reflexivity|]. apply heap_setScope.
Qed.

(** C4 (amended): the binding rule raises its Illegal-Reassignment
    diagnostic if and only if [lookup] finds the target key in some frame of
    the target stack, innermost to outermost, and not only in the top one.
    On such a collision exactly one diagnostic, naming the plain identifier,
    is appended, and both stacks and the store are left as they were;
    otherwise no diagnostic is appended and the key is bound, in the top
    frame of the target stack only, to the right-hand side. *)
Theorem bindIdentifierToScope_collision_iff_lookup
    ast scope s n l ln identifier rhs rn :
  heap s !! ast = Some n →
  left n = Some l → heap s !! l = Some ln →
  class ln = IdentifierNode identifier →
  right n = Some rhs → heap s !! rhs = Some rn →
  let key := bindingKey identifier (heap s) rhs rn in
  let target := getScope scope s in
  ∃ s', bindIdentifierToScope ast scope s = Done tt s'
    ∧ heap s' = heap s
    ∧ getScope (otherScope scope) s' = getScope (otherScope scope) s
    ∧ (encounteredExceptions s' ≠ encounteredExceptions s
       ↔ is_Some (SymbolTableStack.lookup key target))
    ∧ (is_Some (SymbolTableStack.lookup key target) →
       encounteredExceptions s'
         = encounteredExceptions s ++ [IllegalReassignmentError identifier]
       ∧ getScope scope s' = target)
    ∧ (SymbolTableStack.lookup key target = None →
       encounteredExceptions s' = encounteredExceptions s
       ∧ getScope scope s' = mkStack (<[key := rhs]> (top target)) (below target)).
Proof.
  intros Hn Hl Hln Hc Hr Hrn key target.
  rewrite (bindIdentifierToScope_eq _ _ _ _ _ _ _ _ _ Hn Hl Hln Hc Hr Hrn).
  simpl. fold key. fold target.
  destruct (SymbolTableStack.lookup key target) as [found|] eqn:Hlook.
  - eexists. split; [reflexivity|]. simpl.
    split; [done|]. split; [by destruct scope|].
    split; [|split].
    + split; [eauto | intros _; apply app_singleton_ne].
    + intros _. split; [done | by destruct scope].
    + intros [=].
  - eexists. split; [reflexivity|].
    rewrite heap_setScope, getScope_setScope_other, exceptions_setScope,
      getScope_setScope.
    fold target. rewrite (insert_unbound _ _ _ Hlook). simpl.
    split; [done|]. split; [done|]. split; [|split].
    + split; [done | intros [? [=]]].
    + intros [? [=]].
    + done.
Qed.

End BindingRule.

Section Substitution.
Context `{env : CompilerEnv}.

(** An identifier occurrence that is not a declaration site and resolves to
    a literal binding is replaced by a new literal node, allocated at an
    address the store does not use; nothing else changes. *)
Lemma substituteIdentifiers_literal ast s n name found fn v :
  heap s !! ast = Some n →
  valueIsTypeDeclaration (heap s) n = Some false →
  class n = IdentifierNode name →
  resolveIdentifier name s = Some found →
  heap s !! found = Some fn →
  isLiteralType (nodeType fn) = true →
  class fn = LiteralNode v →
  let a := fresh (dom (heap s)) in
  let lit := mkNode (nodeType fn) (generateId (heap s)) (Some ast)
                    None None None (LiteralNode v) in
  substituteIdentifiers ast s = Done (Some a) (setHeap (<[a := lit]> (heap s)) s).
Proof.
  intros Hn Hval Hc Hres Hfn Hlit Hv a lit.
  assert (Hrest : ∀ s0, heap s0 = heap s → hoistedScope s0 = hoistedScope s →
            localScope s0 = localScope s →
    (let! name := getIdentifier n in
     let! foundHoisted := scopeLookup HoistedScope name in
     let! foundInScope := scopeLookup LocalScope name in
     let foundIdentifier :=
       match foundInScope with Some _ => foundInScope | None => foundHoisted end in
     match foundIdentifier with
     | None => ret (Some ast)
     | Some found =>
         let! fn := deref (Some found) in
         if isLiteralType (nodeType fn) then
           let! v := getLiteralValue fn in
           let! lit := newLiteralNode (nodeType fn) v (Some ast) in
           ret (Some lit)
         else ret (Some ast)
     end) s0 = Done (Some (fresh (dom (heap s0))))
                    (setHeap (<[fresh (dom (heap s0)) :=
                       mkNode (nodeType fn) (generateId (heap s0)) (Some ast)
                              None None None (LiteralNode v)]> (heap s0)) s0)).
  { intros s0 Hh Hhs Hls. unfold bind, getIdentifier, scopeLookup, deref.
    rewrite Hc. simpl. rewrite Hhs, Hls. unfold resolveIdentifier in Hres.
    destruct (SymbolTableStack.lookup name (localScope s)) as [b|] eqn:Hloc.
    - injection Hres as ->. rewrite Hh, Hfn, Hlit.
      unfold getLiteralValue. rewrite Hv. simpl. by rewrite Hh.
    - rewrite Hres. rewrite Hh, Hfn, Hlit.
      unfold getLiteralValue. rewrite Hv. simpl. by rewrite Hh. }
  unfold substituteIdentifiers, bind at 1, deref at 1. rewrite Hn.
  unfold valueIsTypeDeclaration in Hval. unfold bind at 1.
  destruct (value n) as [tv|].
  - unfold bind at 1, deref at 1.
    destruct (heap s !! tv) as [tn|]; [|done].
    injection Hval as Hval. unfold ret at 1. rewrite Hval.
    by apply Hrest.
  - unfold ret at 1. by apply Hrest.
Qed.

Lemma fresh_not_in_heap (h : Heap) : h !! fresh (dom h) = None.
Proof. apply not_elem_of_dom, is_fresh. Qed.

Lemma fresh_ne_bound (h : Heap) a n : h !! a = Some n → fresh (dom h) ≠ a.
Proof. intros H Heq. rewrite <- Heq, fresh_not_in_heap in H. discriminate. Qed.

(** C2 (amended): an identifier occurrence that is not a declaration site
    (its own [value] slot is empty or does not hold a type declaration) and
    whose name resolves, local scope first and hoisted scope as the
    fallback, to a Number, String or Boolean literal binding is replaced by
    a newly allocated literal node of the same kind and value.  The node the
    binding points to and both stacks are left as they were, and a second
    such occurrence of the same name substituted afterwards receives another
    new node: the two copies and the bound literal are three distinct
    objects. *)
Theorem substituteIdentifiers_copies_binding
    ast ast2 s n n2 name found fn v :
  heap s !! ast = Some n →
  valueIsTypeDeclaration (heap s) n = Some false →
  class n = IdentifierNode name →
  heap s !! ast2 = Some n2 →
  valueIsTypeDeclaration (heap s) n2 = Some false →
  class n2 = IdentifierNode name →
  resolveIdentifier name s = Some found →
  heap s !! found = Some fn →
  isLiteralType (nodeType fn) = true →
  class fn = LiteralNode v →
  ∃ a lit s1 a2 lit2 s2,
    substituteIdentifiers ast s = Done (Some a) s1
    ∧ heap s !! a = None
    ∧ heap s1 = <[a := lit]> (heap s)
    ∧ nodeType lit = nodeType fn ∧ class lit = LiteralNode v
    ∧ heap s1 !! found = Some fn
    ∧ hoistedScope s1 = hoistedScope s ∧ localScope s1 = localScope s
    ∧ encounteredExceptions s1 = encounteredExceptions s
    ∧ substituteIdentifiers ast2 s1 = Done (Some a2) s2
    ∧ heap s1 !! a2 = None
    ∧ heap s2 = <[a2 := lit2]> (heap s1)
    ∧ nodeType lit2 = nodeType fn ∧ class lit2 = LiteralNode v
    ∧ heap s2 !! found = Some fn
    ∧ heap s2 !! a = Some lit
    ∧ a ≠ found ∧ a2 ≠ found ∧ a ≠ a2
    ∧ hoistedScope s2 = hoistedScope s ∧ localScope s2 = localScope s.
Proof.
  intros Hn Hval Hc Hn2 Hval2 Hc2 Hres Hfn Hlit Hv.
  pose proof (substituteIdentifiers_literal _ _ _ _ _ _ _
                Hn Hval Hc Hres Hfn Hlit Hv) as H1.
  simpl in H1.
  set (a := fresh (dom (heap s))) in *.
  set (lit := mkNode (nodeType fn) (generateId (heap s)) (Some ast)
                     None None None (LiteralNode v)) in *.
  set (s1 := setHeap (<[a := lit]> (heap s)) s) in *.
  assert (Ha : heap s !! a = None) by apply fresh_not_in_heap.
  assert (Hafound : a ≠ found) by (by apply (fresh_ne_bound _ _ fn)).
  assert (Hext : ∀ b m, heap s !! b = Some m → heap s1 !! b = Some m).
  { intros b m Hb. simpl. rewrite lookup_insert_ne; [done|].
    by apply (fresh_ne_bound _ _ m). }
  assert (Hval2' : valueIsTypeDeclaration (heap s1) n2 = Some false).
  { unfold valueIsTypeDeclaration in *. destruct (value n2) as [tv|]; [|done].
    destruct (heap s !! tv) as [tn|] eqn:Htv; [|done].
    by rewrite (Hext _ _ Htv). }
  pose proof (substituteIdentifiers_literal ast2 s1 n2 name found fn v
                (Hext _ _ Hn2) Hval2' Hc2 Hres (Hext _ _ Hfn) Hlit Hv) as H2.
  simpl in H2.
  set (a2 := fresh (dom (heap s1))) in *.
  set (lit2 := mkNode (nodeType fn) (generateId (heap s1)) (Some ast2)
                      None None None (LiteralNode v)) in *.
  assert (Ha2 : heap s1 !! a2 = None) by apply fresh_not_in_heap.
  assert (Ha1 : heap s1 !! a = Some lit) by (simpl; apply lookup_insert_eq).
  assert (Ha2found : a2 ≠ found).
  { apply (fresh_ne_bound _ _ fn). by apply Hext. }
  assert (Haa2 : a ≠ a2).
  { intros Heq. pose proof (fresh_ne_bound _ _ _ Ha1) as Hne. by apply Hne. }
  exists a, lit, s1, a2, lit2, (setHeap (<[a2 := lit2]> (heap s1)) s1).
  repeat split; try done.
  - by apply Hext.
  - simpl. rewrite lookup_insert_ne by done. rewrite lookup_insert_ne by done.
    done.
  - simpl. rewrite lookup_insert_ne by done. apply lookup_insert_eq.
Qed.

(** Whatever an identifier is bound to, substitution never answers with the
    absent reference. *)
Lemma substituteIdentifiers_present e st r st' :
  substituteIdentifiers e st = Done r st' → r ≠ None.
Proof.
  unfold substituteIdentifiers, bind.
  destruct (deref (Some e) st) as [n s1|]; [|done].
  match goal with |- match ?x with _ => _ end = _ → _ =>
    destruct x as [[] s2|]; [by intros [= <- <-]| |done] end.
  destruct (getIdentifier n s2) as [name s3|]; [|done].
  unfold scopeLookup.
  match goal with |- match ?x with _ => _ end _ = _ → _ =>
    destruct x as [found|]; [|by intros [= <- <-]] end.
  destruct (deref (Some found) s3) as [fn s4|]; [|done].
  destruct (isLiteralType (nodeType fn)); [|by intros [= <- <-]].
  destruct (getLiteralValue fn s4) as [v s5|]; [|done].
  destruct (newLiteralNode (nodeType fn) v (Some e) s5) as [lit s6|]; [|done].
  by intros [= <- <-].
Qed.

End Substitution.

Section Remapping.
Context `{env : CompilerEnv}.

Lemma lookupInScope_resolve name s :
  lookupInScope name s = Done (resolveIdentifier name s) s.
Proof.
  unfold lookupInScope, resolveIdentifier.
  by destruct (SymbolTableStack.lookup name (localScope s)).
Qed.

(** The three ways the remapping of a type declaration can go: the name is
    not bound and nothing happens; the name is bound to a type declaration
    and its type is copied; the name is bound to a node of another class
    and the null result of the downcast is dereferenced. *)
Lemma remapEnumTypeReferences_cases ast s n t :
  heap s !! ast = Some n → class n = TypeDeclarationNode t →
  remapEnumTypeReferences ast s =
    match resolveIdentifier t s with
    | None => Done tt s
    | Some found =>
        match class <$> heap s !! found with
        | Some (TypeDeclarationNode t') =>
            Done tt (setHeap (<[ast := withClass n (TypeDeclarationNode t')]>
                                (heap s)) s)
        | _ => Crash NullDereference
        end
    end.
Proof.
  intros Hn Hc. unfold remapEnumTypeReferences. run_deref Hn.
  unfold getType at 1. rewrite Hc. unfold bind at 1, ret at 1.
  run (lookupInScope_resolve t s).
  destruct (resolveIdentifier t s) as [found|]; [|done].
  unfold bind, deref, getType, setType.
  destruct (heap s !! found) as [fn|]; [|done]. simpl.
  destruct (class fn); try done. simpl. by rewrite Hn, Hc.
Qed.

End Remapping.

Section Elision.
Context `{env : CompilerEnv}.

Lemma bindIdentifierToScope_heap ast scope s s' :
  bindIdentifierToScope ast scope s = Done tt s' → heap s' = heap s.
Proof.
  unfold bindIdentifierToScope, bind, deref, getIdentifier.
  destruct (heap s !! ast) as [n|]; [|done].
  destruct (left n) as [l|]; [|done].
  destruct (heap s !! l) as [ln|]; [|done].
  destruct (class ln); try done. unfold ret.
  destruct (right n) as [rhs|]; [|done].
  destruct (heap s !! rhs) as [rn|]; [|done].
  unfold scopeLookup, addException, scopeInsert.
  case_bool_decide; destruct (SymbolTableStack.lookup _ _);
    intros [= <-]; simpl; by rewrite ?heap_setScope.
Qed.

Lemma isLiteralAssignment_eq ast s n l ln tv tn declared rhs rn :
  heap s !! ast = Some n → nodeType n = ASSIGNMENT →
  left n = Some l → heap s !! l = Some ln →
  value ln = Some tv → heap s !! tv = Some tn →
  class tn = TypeDeclarationNode declared →
  right n = Some rhs → heap s !! rhs = Some rn →
  isLiteralAssignment ast s = Done (literalMatchesType rn declared) s.
Proof.
  intros Hn Ht Hl Hln Htv Htn Hc Hr Hrn.
  unfold isLiteralAssignment, bind, deref, getType.
  rewrite Hn. rewrite bool_decide_eq_true_2 by done. simpl.
  rewrite Hl, Hln, Htv, Htn, Hc. simpl. by rewrite Hr, Hrn.
Qed.

Lemma isLastOfBlock_eq ast s n par pn :
  heap s !! ast = Some n → parent n = Some par → heap s !! par = Some pn →
  (nodeType pn = BLOCK →
   ∃ e en, finalStatementOf pn = Some e ∧ heap s !! e = Some en
           ∧ (id en = id n ↔ e = ast)) →
  isLastOfBlock ast s
  = Done (bool_decide (finalStatementOf pn = Some ast)) s.
Proof.
  intros Hn Hp Hpn Hblock.
  unfold isLastOfBlock, bind, deref, getBlockElements, finalStatementOf in *.
  rewrite Hn, Hp, Hpn.
  case_bool_decide as Hb.
  - destruct (Hblock Hb) as (e & en & Hlast & Hen & Hid).
    destruct (class pn); try done. simpl. rewrite Hlast, Hen.
    unfold ret. f_equal. apply bool_decide_ext. rewrite Hid.
    split; [by intros -> | by intros [=]].
  - unfold ret. by rewrite bool_decide_eq_false_2.
Qed.

(** C3 (amended): for an Assignment node that is not a direct capsule-level
    declaration, the pass first applies the binding rule to the local scope
    and then sets the held reference to absent exactly when the right-hand
    side is a literal whose kind matches the declared type (boolean/boolean,
    number/number, string/string) and the assignment is not the last element
    of a Block parent; whether the binding succeeded or collided plays no
    part in the decision.  In every other case the reference keeps pointing
    to the assignment. *)
Theorem optimizeAST_assignment_elision
    ast s n l ln identifier tv tn declared rhs rn par pn :
  heap s !! ast = Some n → nodeType n = ASSIGNMENT →
  left n = Some l → heap s !! l = Some ln →
  class ln = IdentifierNode identifier →
  value ln = Some tv → heap s !! tv = Some tn →
  class tn = TypeDeclarationNode declared →
  right n = Some rhs → heap s !! rhs = Some rn →
  parent n = Some par → heap s !! par = Some pn →
  (nodeType pn = BLOCK →
   ∃ e en, finalStatementOf pn = Some e ∧ heap s !! e = Some en
           ∧ (id en = id n ↔ e = ast)) →
  ∃ r s', optimizeAST ast false s = Done r s'
    ∧ bindIdentifierToScope ast LocalScope s = Done tt s'
    ∧ (r = None ↔ literalMatchesType rn declared = true
                   ∧ finalStatementOf pn ≠ Some ast)
    ∧ (r ≠ None → r = Some ast).
Proof.
  intros Hn Ht Hl Hln Hc Htv Htn Hct Hr Hrn Hp Hpn Hblock.
  destruct (bindIdentifierToScope_completes
              ast LocalScope s n l ln identifier rhs rn Hn Hl Hln Hc Hr Hrn)
    as (s' & Hbind & Hheap).
  assert (Hlit : isLiteralAssignment ast s'
                 = Done (literalMatchesType rn declared) s').
  { apply (isLiteralAssignment_eq _ _ n l ln tv tn declared rhs);
      rewrite ?Hheap; done. }
  assert (Hlast : isLastOfBlock ast s'
                  = Done (bool_decide (finalStatementOf pn = Some ast)) s').
  { apply (isLastOfBlock_eq _ _ n par); rewrite ?Hheap; done. }
  assert (Hrun : optimizeAST ast false s =
    Done (if literalMatchesType rn declared
          then if bool_decide (finalStatementOf pn = Some ast)
               then Some ast else None
          else Some ast) s').
  { unfold optimizeAST. run_deref Hn.
    rewrite Ht. simpl.
    run Hbind. run Hlit.
    destruct (literalMatchesType rn declared); [|done].
    run Hlast. by case_bool_decide. }
  eexists _, s'. split; [exact Hrun|]. split; [exact Hbind|].
  destruct (literalMatchesType rn declared); case_bool_decide;
    repeat split; try done; try (intros [? ?]; done); congruence.
Qed.

End Elision.

Section EnumUnpacking.
Context `{env : CompilerEnv}.

Lemma append_empty_r (a : string) : a +:+ "" = a.
Proof.
  induction a as [|c a IH]; [done|].
  change (String c a +:+ "") with (String c (a +:+ "")). by rewrite IH.
Qed.

Lemma enumKey_inj base : Inj (=) (=) (enumKey base).
Proof.
  intros a b H. unfold enumKey in H.
  apply (inj (String.app base)) in H. by apply (inj (String.app ".")) in H.
Qed.

Lemma enumKey_ne_base base name : enumKey base name ≠ base.
Proof.
  unfold enumKey. intros H. rewrite <- (append_empty_r base) in H at 2.
  apply (inj (String.app base)) in H. discriminate.
Qed.

Lemma symbolName_mono (h h' : Heap) e name :
  h ⊆ h' → symbolName h e = Some name → symbolName h' e = Some name.
Proof.
  intros Hsub. unfold symbolName.
  destruct (h !! e) as [en|] eqn:He; [|done].
  by rewrite (lookup_weaken _ _ _ _ He Hsub).
Qed.

Lemma lookup_insert_top_ne key key' a (t : SymbolTableStack) :
  key ≠ key' →
  SymbolTableStack.lookup key (mkStack (<[key' := a]> (top t)) (below t))
  = SymbolTableStack.lookup key t.
Proof.
  intros Hne. unfold SymbolTableStack.lookup. simpl.
  by rewrite lookup_insert_ne.
Qed.

Lemma lookup_same_frames key (t t' : SymbolTableStack) :
  top t' !! key = top t !! key → below t' = below t →
  SymbolTableStack.lookup key t' = SymbolTableStack.lookup key t.
Proof.
  intros Htop Hbelow. unfold SymbolTableStack.lookup. simpl.
  by rewrite Htop, Hbelow.
Qed.

(** One iteration of the loop on an element whose key is free. *)
Lemma unpackEnumElements_insert base scope el rest i s name :
  symbolName (heap s) el = Some name →
  SymbolTableStack.lookup (enumKey base name) (getScope scope s) = None →
  let a := fresh (dom (heap s)) in
  let lit := mkNode NUMBER_LITERAL (generateId (heap s)) None None None None
                    (LiteralNode (to_string i)) in
  let t := getScope scope s in
  unpackEnumElements base scope (el :: rest) i s
  = unpackEnumElements base scope rest (S i)
      (setScope scope (mkStack (<[enumKey base name := a]> (top t)) (below t))
                (setHeap (<[a := lit]> (heap s)) s)).
Proof.
  intros Hsym Hfree a lit t. unfold symbolName in Hsym.
  destruct (heap s !! el) as [en|] eqn:Hel; [|done].
  destruct (class en) as [| | | |sym| | | |] eqn:Hc; try done.
  destruct sym as [|c sym]; [done|]. injection Hsym as ->.
  cbn [unpackEnumElements].
  run_deref Hel.
  unfold getSymbol. rewrite Hc. unfold bind at 1, ret at 1.
  unfold bind at 1, substr1, ret at 1.
  unfold bind at 1, scopeLookup at 1. fold (enumKey base name).
  rewrite Hfree.
  unfold bind at 1, newLiteralNode, make_shared.
  unfold bind at 1, scopeInsert.
  assert (Hscope : getScope scope (setHeap (<[a:=lit]> (heap s)) s) = t)
    by (by destruct scope).
  fold a. fold lit. rewrite Hscope.
  by rewrite (insert_unbound _ _ _ Hfree).
Qed.

(** One iteration of the loop on an element whose key is taken. *)
Lemma unpackEnumElements_collide base scope el rest i s name found :
  symbolName (heap s) el = Some name →
  SymbolTableStack.lookup (enumKey base name) (getScope scope s) = Some found →
  unpackEnumElements base scope (el :: rest) i s
  = Done false (mkState (heap s) (hoistedScope s) (localScope s)
       (encounteredExceptions s ++ [IllegalReassignmentError (enumKey base name)])).
Proof.
  intros Hsym Hfound. unfold symbolName in Hsym.
  destruct (heap s !! el) as [en|] eqn:Hel; [|done].
  destruct (class en) as [| | | |sym| | | |] eqn:Hc; try done.
  destruct sym as [|c sym]; [done|]. injection Hsym as ->.
  cbn [unpackEnumElements].
  run_deref Hel.
  unfold getSymbol. rewrite Hc. unfold bind at 1, ret at 1.
  unfold bind at 1, substr1, ret at 1.
  unfold bind at 1, scopeLookup at 1. fold (enumKey base name).
  by rewrite Hfound.
Qed.

(** The loop over a prefix of elements with pairwise distinct names whose
    keys are all free binds every element of the prefix, in the top frame of
    the target stack, to a Number literal holding its index, and goes on
    with the remaining elements. *)
Lemma unpackEnumElements_prefix base scope els names :
  ∀ i s,
  Forall2 (λ e name, symbolName (heap s) e = Some name) els names →
  NoDup names →
  (∀ name, name ∈ names →
     SymbolTableStack.lookup (enumKey base name) (getScope scope s) = None) →
  ∃ s', (∀ rest, unpackEnumElements base scope (els ++ rest) i s
                 = unpackEnumElements base scope rest (i + length names) s')
    ∧ heap s ⊆ heap s'
    ∧ encounteredExceptions s' = encounteredExceptions s
    ∧ getScope (otherScope scope) s' = getScope (otherScope scope) s
    ∧ below (getScope scope s') = below (getScope scope s)
    ∧ (∀ key, key ∉ (enumKey base <$> names) →
         top (getScope scope s') !! key = top (getScope scope s) !! key)
    ∧ (∀ j name, names !! j = Some name →
         ∃ q, top (getScope scope s') !! enumKey base name = Some q
              ∧ isNumberLiteral (heap s') q (i + j)).
Proof.
  revert els. induction names as [|name names IH]; intros els i s Hall Hnd Hfree.
  - apply Forall2_nil_inv_r in Hall as ->. exists s.
    split; [intros rest; simpl; by rewrite Nat.add_0_r|].
    repeat split; done.
  - apply Forall2_cons_inv_r in Hall as (el & els' & Hel & Hrest & ->).
    apply NoDup_cons in Hnd as [Hnotin Hnd].
    assert (Hfree0 := Hfree name (list_elem_of_here _ _)).
    pose proof (λ rest, unpackEnumElements_insert base scope el rest i s name
                          Hel Hfree0) as Hstep.
    cbv zeta in Hstep.
    set (a := fresh (dom (heap s))) in *.
    set (lit := mkNode NUMBER_LITERAL (generateId (heap s)) None None None None
                       (LiteralNode (to_string i))) in *.
    set (t := getScope scope s) in *.
    set (s1 := setScope scope _ _) in *.
    assert (Hheap1 : heap s1 = <[a := lit]> (heap s)).
    { unfold s1. by rewrite heap_setScope. }
    assert (Hsub : heap s ⊆ heap s1).
    { rewrite Hheap1. apply insert_subseteq, fresh_not_in_heap. }
    assert (Hscope1 : getScope scope s1
                      = mkStack (<[enumKey base name := a]> (top t)) (below t)).
    { unfold s1. by rewrite getScope_setScope. }
    destruct (IH els' (S i) s1) as (s' & Hrun & Hsub' & Hexc & Hother & Hbelow
                                    & Hframe & Hbound).
    { eapply Forall2_impl; [exact Hrest|]. intros e nm Hnm.
      by apply (symbolName_mono _ _ _ _ Hsub). }
    { done. }
    { intros nm Hnm. rewrite Hscope1.
      rewrite lookup_insert_top_ne.
      - apply Hfree. by apply list_elem_of_further.
      - intros Heq%enumKey_inj. by subst. }
    exists s'. split.
    { intros rest. rewrite <- app_comm_cons, Hstep, Hrun.
      cbn [length].
      by replace (i + S (length names)) with (S i + length names) by lia. }
    split; [by etrans|].
    split; [rewrite Hexc; unfold s1; by rewrite exceptions_setScope|].
    split.
    { rewrite Hother. unfold s1. rewrite getScope_setScope_other.
      by destruct scope. }
    split; [by rewrite Hbelow, Hscope1|].
    split.
    + intros key Hkey. rewrite fmap_cons, not_elem_of_cons in Hkey.
      destruct Hkey as [Hne Hkey]. rewrite (Hframe _ Hkey), Hscope1. simpl.
      by rewrite lookup_insert_ne.
    + intros [|j] nm Hj; simpl in Hj.
      * injection Hj as <-. exists a. split.
        -- rewrite Hframe, Hscope1; [simpl; apply lookup_insert_eq|].
           intros (nm & Heq%enumKey_inj & Hin)%list_elem_of_fmap. by subst.
        -- exists lit. split; [|by rewrite Nat.add_0_r].
           apply (lookup_weaken (heap s1)); [|done].
           rewrite Hheap1. apply lookup_insert_eq.
      * destruct (Hbound j nm Hj) as (q & Hq & Hlit). exists q.
        split; [done|]. by replace (i + S j) with (S i + j) by lia.
Qed.

(** What [unpackEnumElementsInScope] does before its loop. *)
Lemma unpackEnumElementsInScope_eq node scope s base names :
  enumView (heap s) node = Some (base, names) →
  ∃ els,
    Forall2 (λ e name, symbolName (heap s) e = Some name) els names
    ∧ unpackEnumElementsInScope node scope s
      = (let! completed := unpackEnumElements base scope els 0 in
         if completed : bool then
           let! t := newTypeDeclarationNode DataTypes_NUMBER None in
           scopeInsert scope base t
         else ret tt) s.
Proof.
  unfold enumView. intros Hview.
  destruct (heap s !! node) as [n|] eqn:Hn; [|done].
  destruct (class n) as [| | | | | | | |[ip|] els] eqn:Hc; try done.
  destruct (heap s !! ip) as [idn|] eqn:Hip; [|done].
  destruct (class idn) as [| |b| | | | | |] eqn:Hcid; try done.
  destruct (mapM (symbolName (heap s)) els) as [nms|] eqn:Hnms; [|done].
  injection Hview as -> ->.
  exists els. split; [by apply mapM_Some_1|].
  unfold unpackEnumElementsInScope.
  run_deref Hn.
  unfold getEnumIdentifier, getElements. rewrite Hc.
  unfold bind at 1, ret at 1.
  run_deref Hip.
  unfold getIdentifier. rewrite Hcid. done.
Qed.

(** C1 (amended): for an enum with base identifier E whose element names,
    sigils stripped, are pairwise distinct, unpacked into a scope that binds
    none of the derived keys, afterwards lookup of "E.<name>" on that scope
    returns a Number literal node whose value is the zero-based declaration
    index of the element, lookup of "E" returns a type declaration of the
    primitive kind NUMBER, and no diagnostic has been appended. *)
Theorem unpackEnumElementsInScope_binds_indices node scope s base names :
  enumView (heap s) node = Some (base, names) →
  NoDup names →
  (∀ name, name ∈ names →
     SymbolTableStack.lookup (enumKey base name) (getScope scope s) = None) →
  SymbolTableStack.lookup base (getScope scope s) = None →
  ∃ s', unpackEnumElementsInScope node scope s = Done tt s'
    ∧ (∀ i name, names !! i = Some name →
         ∃ q, SymbolTableStack.lookup (enumKey base name) (getScope scope s')
              = Some q
              ∧ isNumberLiteral (heap s') q i)
    ∧ (∃ t, SymbolTableStack.lookup base (getScope scope s') = Some t
            ∧ isNumberType (heap s') t)
    ∧ encounteredExceptions s' = encounteredExceptions s.
Proof.
  intros Hview Hnd Hfree Hbase.
  destruct (unpackEnumElementsInScope_eq _ scope _ _ _ Hview)
    as (els & Hall & ->).
  destruct (unpackEnumElements_prefix base scope els names 0 s Hall Hnd Hfree)
    as (s1 & Hrun & Hsub & Hexc & Hother & Hbelow & Hframe & Hbound).
  specialize (Hrun []). rewrite app_nil_r in Hrun. simpl in Hrun.
  run Hrun.
  assert (Hbase1 : top (getScope scope s1) !! base = None).
  { rewrite Hframe; [by apply lookup_None_top|].
    intros (nm & Heq & _)%list_elem_of_fmap.
    by apply (enumKey_ne_base base nm). }
  unfold bind, newTypeDeclarationNode, make_shared, scopeInsert.
  set (t := fresh (dom (heap s1))).
  set (ty := mkNode TYPE_DECLARATION _ _ _ _ _ _).
  assert (Hscope : getScope scope (setHeap (<[t := ty]> (heap s1)) s1)
                   = getScope scope s1) by (by destruct scope).
  rewrite Hscope. unfold SymbolTableStack.insert. rewrite Hbase1. simpl.
  eexists. split; [reflexivity|].
  rewrite getScope_setScope, heap_setScope, exceptions_setScope. simpl.
  split; [|split; [|done]].
  - intros i name Hi. destruct (Hbound i name Hi) as (q & Hq & qn & Hqn & Hlit).
    exists q. split.
    + apply lookup_top_Some. simpl. rewrite lookup_insert_ne; [done|].
      intros Heq. by apply (enumKey_ne_base base name).
    + exists qn. split; [|done]. rewrite lookup_insert_ne; [done|].
      by apply (fresh_ne_bound _ _ qn).
  - exists t. split.
    + apply lookup_top_Some. simpl. apply lookup_insert_eq.
    + exists ty. split; [apply lookup_insert_eq | done].
Qed.

(** C10: when unpacking an enum reaches an element whose key is already
    bound (by the target stack or by an earlier element of the same enum),
    processing of that enum stops there: one Illegal-Reassignment
    diagnostic naming the colliding key is appended, the elements before it
    stay bound to their indices, no other key of the target stack changes
    (nothing is bound for the elements at or after the collision, and the
    bare base identifier is not bound to a NUMBER type declaration), and
    an Enum node met by the per-node traversal is still replaced by the
    absent reference. *)
Theorem unpackEnumElementsInScope_stops_at_collision
    node scope s n base pre name post :
  heap s !! node = Some n →
  enumView (heap s) node = Some (base, pre ++ name :: post) →
  NoDup pre →
  (∀ nm, nm ∈ pre →
     SymbolTableStack.lookup (enumKey base nm) (getScope scope s) = None) →
  (name ∈ pre
   ∨ is_Some (SymbolTableStack.lookup (enumKey base name) (getScope scope s))) →
  ∃ s', unpackEnumElementsInScope node scope s = Done tt s'
    ∧ encounteredExceptions s'
      = encounteredExceptions s ++ [IllegalReassignmentError (enumKey base name)]
    ∧ (∀ j nm, pre !! j = Some nm →
         ∃ q, SymbolTableStack.lookup (enumKey base nm) (getScope scope s')
              = Some q
              ∧ isNumberLiteral (heap s') q j)
    ∧ (∀ key, key ∉ (enumKey base <$> pre) →
         SymbolTableStack.lookup key (getScope scope s')
         = SymbolTableStack.lookup key (getScope scope s))
    ∧ SymbolTableStack.lookup base (getScope scope s')
      = SymbolTableStack.lookup base (getScope scope s)
    ∧ getScope (otherScope scope) s' = getScope (otherScope scope) s
    ∧ (scope = LocalScope → nodeType n = ENUM →
       ∀ isCapsuleDirectChild,
         optimizeAST node isCapsuleDirectChild s = Done None s').
Proof.
  intros Hn Hview Hnd Hfree Hcollide.
  destruct (unpackEnumElementsInScope_eq _ scope _ _ _ Hview)
    as (els & Hall & Heq).
  apply Forall2_app_inv_r in Hall as (els1 & els2 & Hall1 & Hall2 & ->).
  apply Forall2_cons_inv_r in Hall2 as (el & els3 & Hel & _ & ->).
  destruct (unpackEnumElements_prefix base scope els1 pre 0 s Hall1 Hnd Hfree)
    as (s1 & Hrun & Hsub & Hexc & Hother & Hbelow & Hframe & Hbound).
  assert (Hlook : ∀ key, key ∉ (enumKey base <$> pre) →
            SymbolTableStack.lookup key (getScope scope s1)
            = SymbolTableStack.lookup key (getScope scope s)).
  { intros key Hkey. apply lookup_same_frames; [by apply Hframe | done]. }
  assert (Hfound : ∃ found,
            SymbolTableStack.lookup (enumKey base name) (getScope scope s1)
            = Some found).
  { destruct (decide (name ∈ pre)) as [Hin|Hnotin].
    - apply list_elem_of_lookup in Hin as [j Hj].
      destruct (Hbound j name Hj) as (q & Hq & _). exists q.
      by apply lookup_top_Some.
    - destruct Hcollide as [?|[found Hfound]]; [done|]. exists found.
      rewrite Hlook; [done|].
      intros (nm & Heq'%enumKey_inj & Hin)%list_elem_of_fmap. by subst. }
  destruct Hfound as [found Hfound].
  pose proof (unpackEnumElements_collide base scope el els3 (0 + length pre)
                s1 name found (symbolName_mono _ _ _ _ Hsub Hel) Hfound) as Hstop.
  rewrite <- Hrun in Hstop.
  assert (Hunpack : unpackEnumElementsInScope node scope s
    = Done tt (mkState (heap s1) (hoistedScope s1) (localScope s1)
        (encounteredExceptions s1
           ++ [IllegalReassignmentError (enumKey base name)]))).
  { rewrite Heq. by run Hstop. }
  eexists. split; [exact Hunpack|]. simpl.
  assert (Hsame : ∀ r,
    getScope r (mkState (heap s1) (hoistedScope s1) (localScope s1)
        (encounteredExceptions s1
           ++ [IllegalReassignmentError (enumKey base name)]))
    = getScope r s1) by (by intros []).
  rewrite !Hsame.
  split; [by rewrite Hexc|].
  split.
  { intros j nm Hj. destruct (Hbound j nm Hj) as (q & Hq & Hlit).
    exists q. split; [by apply lookup_top_Some | done]. }
  split; [exact Hlook|].
  split.
  { apply Hlook. intros (nm & Heq' & _)%list_elem_of_fmap.
    by apply (enumKey_ne_base base nm). }
  split; [done|].
  intros -> Hty b. unfold optimizeAST.
  run_deref Hn. rewrite Hty. simpl.
  by run Hunpack.
Qed.

End EnumUnpacking.

Section Hoisting.
Context `{env : CompilerEnv}.

(** Erasing the recorded positions, last one first, leaves the elements that
    were not recorded, in their order. *)
Lemma eraseAtIndices_indicesWhere {A} (P : A → bool) (l pre : list A) :
  eraseAtIndices (indicesWhere P l (length pre)) (pre ++ l)
  = pre ++ filter (λ x, P x = false) l.
Proof.
  revert pre. induction l as [|x l IH]; intros pre; [done|].
  specialize (IH (pre ++ [x])).
  rewrite length_app, Nat.add_1_r, <- app_assoc in IH. simpl in IH.
  unfold eraseAtIndices in *. cbn [indicesWhere].
  destruct (P x) eqn:HP.
  - rewrite reverse_cons, foldl_app, IH. simpl.
    rewrite filter_cons_False by (by rewrite HP).
    rewrite <- app_assoc. simpl. apply delete_middle.
  - rewrite IH, filter_cons_True by done. by rewrite <- app_assoc.
Qed.

Lemma indicesWhere_ext {A} (P Q : A → bool) (l : list A) i :
  (∀ x, x ∈ l → P x = Q x) → indicesWhere P l i = indicesWhere Q l i.
Proof.
  revert i. induction l as [|x l IH]; intros i Heq; [done|]. simpl.
  rewrite (Heq x) by apply list_elem_of_here.
  rewrite (IH (S i)) by (intros y Hy; apply Heq; by apply list_elem_of_further).
  done.
Qed.

Lemma enumView_mono (h h' : Heap) e x :
  h ⊆ h' → enumView h e = Some x → enumView h' e = Some x.
Proof.
  intros Hsub. unfold enumView.
  destruct (h !! e) as [n|] eqn:Hn; [|done].
  rewrite (lookup_weaken _ _ _ _ Hn Hsub).
  destruct (class n) as [| | | | | | | |[ip|] els]; try done.
  destruct (h !! ip) as [idn|] eqn:Hip; [|done].
  rewrite (lookup_weaken _ _ _ _ Hip Hsub).
  destruct (class idn); try done.
  destruct (mapM (symbolName h) els) as [names|] eqn:Hnames; [|done].
  intros [= <-].
  assert (mapM (symbolName h') els = Some names) as ->; [|done].
  apply mapM_Some. apply mapM_Some in Hnames.
  eapply Forall2_impl; [exact Hnames|]. intros ???.
  by eapply symbolName_mono.
Qed.

Lemma assignmentView_mono (h h' : Heap) e :
  h ⊆ h' → is_Some (assignmentView h e) → is_Some (assignmentView h' e).
Proof.
  intros Hsub. unfold assignmentView.
  destruct (h !! e) as [n|] eqn:Hn; [|by intros [? [=]]].
  rewrite (lookup_weaken _ _ _ _ Hn Hsub).
  destruct (left n) as [l|]; [|by intros [? [=]]].
  destruct (right n) as [rhs|]; [|by intros [? [=]]].
  destruct (h !! l) as [ln|] eqn:Hl; [|by intros [? [=]]].
  destruct (h !! rhs) as [rn|] eqn:Hr; [|by intros [? [=]]].
  rewrite (lookup_weaken _ _ _ _ Hl Hsub), (lookup_weaken _ _ _ _ Hr Hsub).
  destruct (class ln); by intros [? [=]].
Qed.

Lemma wfTopLevel_mono (h h' : Heap) e :
  h ⊆ h' → wfTopLevel h e = true → wfTopLevel h' e = true.
Proof.
  intros Hsub. unfold wfTopLevel.
  destruct (h !! e) as [n|] eqn:Hn; [|done].
  rewrite (lookup_weaken _ _ _ _ Hn Hsub).
  repeat case_bool_decide; try done.
  - destruct H0 as [x Hx]. exfalso. apply H1. exists x.
    by apply (enumView_mono h h').
  - exfalso. apply H2. by apply (assignmentView_mono h h').
Qed.

Lemma isEnum_mono (h h' : Heap) e :
  h ⊆ h' → is_Some (h !! e) → isEnum h' e = isEnum h e.
Proof.
  intros Hsub [n Hn]. unfold isEnum.
  by rewrite Hn, (lookup_weaken _ _ _ _ Hn Hsub).
Qed.

(** The loop of the unpacking returns on every list of symbols; it only adds
    nodes to the store. *)
Lemma unpackEnumElements_returns base scope names :
  ∀ els i s,
  Forall2 (λ e name, symbolName (heap s) e = Some name) els names →
  ∃ completed s', unpackEnumElements base scope els i s = Done completed s'
                  ∧ heap s ⊆ heap s'.
Proof.
  induction names as [|name names IH]; intros els i s Hall.
  - apply Forall2_nil_inv_r in Hall as ->. by exists true, s.
  - apply Forall2_cons_inv_r in Hall as (el & els' & Hel & Hrest & ->).
    destruct (SymbolTableStack.lookup (enumKey base name) (getScope scope s))
      as [found|] eqn:Hlook.
    + rewrite (unpackEnumElements_collide _ _ _ _ _ _ _ _ Hel Hlook).
      by eexists _, _.
    + rewrite (unpackEnumElements_insert _ _ _ _ _ _ _ Hel Hlook).
      set (s1 := setScope scope _ _).
      assert (Hsub : heap s ⊆ heap s1).
      { unfold s1. rewrite heap_setScope. simpl.
        apply insert_subseteq, fresh_not_in_heap. }
      destruct (IH els' (S i) s1) as (b & s' & Hrun & Hsub').
      { eapply Forall2_impl; [exact Hrest|]. intros ???.
        by eapply symbolName_mono. }
      exists b, s'. split; [done | by etrans].
Qed.

(** Unpacking returns on every enum whose children are in place. *)
Lemma unpackEnumElementsInScope_returns node scope s :
  is_Some (enumView (heap s) node) →
  ∃ s', unpackEnumElementsInScope node scope s = Done tt s' ∧ heap s ⊆ heap s'.
Proof.
  intros [[base names] Hview].
  destruct (unpackEnumElementsInScope_eq _ scope _ _ _ Hview)
    as (els & Hall & ->).
  destruct (unpackEnumElements_returns base scope names els 0 s Hall)
    as (b & s1 & Hrun & Hsub).
  run Hrun. destruct b.
  - unfold bind, newTypeDeclarationNode, make_shared, scopeInsert.
    eexists. split; [reflexivity|]. rewrite heap_setScope. simpl.
    etrans; [exact Hsub|]. apply insert_subseteq, fresh_not_in_heap.
  - by exists s1.
Qed.

(** The binding rule returns on every assignment whose children are in
    place, and leaves the store as it is. *)
Lemma bindIdentifierToScope_returns ast scope s :
  is_Some (assignmentView (heap s) ast) →
  ∃ s', bindIdentifierToScope ast scope s = Done tt s' ∧ heap s' = heap s.
Proof.
  unfold assignmentView. intros [x Hx].
  destruct (heap s !! ast) as [n|] eqn:Hn; [|done].
  destruct (left n) as [l|] eqn:Hl; [|done].
  destruct (right n) as [rhs|] eqn:Hr; [|done].
  destruct (heap s !! l) as [ln|] eqn:Hln; [|done].
  destruct (heap s !! rhs) as [rn|] eqn:Hrn; [|done].
  destruct (class ln) as [| |identifier| | | | | |] eqn:Hc; try done.
  by apply (bindIdentifierToScope_completes _ _ _ n l ln identifier rhs rn).
Qed.

(** The first loop of the hoisting returns on every sequence of well-formed
    top-level declarations, and records exactly the positions of the Enum
    nodes. *)
Lemma hoistElements_records_enums els :
  ∀ i s,
  forallb (wfTopLevel (heap s)) els = true →
  ∃ s', hoistElements els i s
        = Done (indicesWhere (isEnum (heap s)) els i) s'
        ∧ heap s ⊆ heap s'.
Proof.
  induction els as [|el els IH]; intros i s Hwf; [by exists s|].
  simpl in Hwf. apply andb_true_iff in Hwf as [Hel Hels].
  assert (Hmono : ∀ s1, heap s ⊆ heap s1 →
            ∃ s', hoistElements els (S i) s1
                  = Done (indicesWhere (isEnum (heap s)) els (S i)) s'
                  ∧ heap s ⊆ heap s').
  { intros s1 Hsub. destruct (IH (S i) s1) as (s' & Hrun & Hsub').
    - apply forallb_forall. intros e He.
      apply (wfTopLevel_mono (heap s)); [done|].
      by eapply forallb_forall in Hels.
    - exists s'. split; [|by etrans]. rewrite Hrun. f_equal.
      apply indicesWhere_ext. intros e He%list_elem_of_In.
      apply isEnum_mono; [done|].
      eapply forallb_forall in Hels; [|exact He].
      unfold wfTopLevel in Hels. by destruct (heap s !! e). }
  unfold wfTopLevel in Hel. cbn [hoistElements indicesWhere]. unfold isEnum.
  destruct (heap s !! el) as [eln|] eqn:Heln; [|done].
  run_deref Heln.
  case_bool_decide as Henum.
  - apply bool_decide_eq_true in Hel.
    destruct (unpackEnumElementsInScope_returns el HoistedScope s Hel)
      as (s1 & Hunpack & Hsub).
    run Hunpack.
    destruct (Hmono s1 Hsub) as (s' & Hrun & Hsub').
    run Hrun. by exists s'.
  - case_bool_decide as Hassign.
    + apply bool_decide_eq_true in Hel.
      destruct (bindIdentifierToScope_returns el HoistedScope s Hel)
        as (s1 & Hbind & Hheap).
      run Hbind.
      apply Hmono. by rewrite Hheap.
    + by apply Hmono.
Qed.

(** C5: on a capsule whose body is a sequence of well-formed top-level
    declarations the hoisting phase returns, and afterwards the sequence
    equals the original one with exactly the Enum nodes removed: every
    other top-level node, Assignments included, is still there in its
    original relative order.  The per-node step applied to a direct child
    of the capsule leaves an Assignment and the pass state as they are, and
    never answers with the absent reference for a node that is not an
    Enum. *)
Theorem hoistNecessary_removes_exactly_enums ast s n listPtr ln els :
  heap s !! ast = Some n → value n = Some listPtr →
  heap s !! listPtr = Some ln → elementsOf ln = Some els →
  forallb (wfTopLevel (heap s)) els = true →
  ∃ s' ln', hoistNecessary ast s = Done tt s'
    ∧ heap s' !! listPtr = Some ln'
    ∧ elementsOf ln' = Some (filter (λ e, isEnum (heap s) e = false) els)
    ∧ (∀ e st en, heap st !! e = Some en → nodeType en = ASSIGNMENT →
         optimizeAST e true st = Done (Some e) st)
    ∧ (∀ e st en r st', heap st !! e = Some en → nodeType en ≠ ENUM →
         optimizeAST e true st = Done r st' → r ≠ None).
Proof.
  intros Hn Hv Hln Hels Hwf.
  set (s0 := setScope HoistedScope
               (SymbolTableStack.enterScope (getScope HoistedScope s)) s).
  destruct (hoistElements_records_enums els 0 s0 Hwf) as (s1 & Hrun & Hsub).
  change (heap s0) with (heap s) in Hrun, Hsub.
  pose proof (lookup_weaken _ _ _ _ Hln Hsub) as Hln1.
  assert (Hget : getElements ln = ret els).
  { unfold getElements, elementsOf in *. by destruct (class ln); simplify_eq. }
  pose proof (eraseAtIndices_indicesWhere (isEnum (heap s)) els []) as Herase.
  simpl in Herase.
  assert (Hset : ∃ s' ln',
    setElements listPtr (filter (λ e, isEnum (heap s) e = false) els) s1
    = Done tt s' ∧ heap s' !! listPtr = Some ln'
    ∧ elementsOf ln' = Some (filter (λ e, isEnum (heap s) e = false) els)).
  { unfold setElements. rewrite Hln1. unfold elementsOf in Hels.
    destruct (class ln) eqn:Hc; try done;
      (eexists _, _; split; [reflexivity|]; simpl;
       split; [apply lookup_insert_eq | done]). }
  destruct Hset as (s' & ln' & Hset & Hln' & Hels').
  exists s', ln'. split; [|split; [done|split; [done|split]]].
  - unfold hoistNecessary.
    run_deref Hn. rewrite Hv.
    run_deref Hln. rewrite Hget.
    unfold bind at 1, ret at 1. unfold bind at 1, scopeEnter. fold s0.
    run Hrun. by rewrite Herase.
  - intros e st en Hen Hty. unfold optimizeAST.
    run_deref Hen. by rewrite Hty.
  - intros e st en r st' Hen Hty. unfold optimizeAST.
    run_deref Hen.
    case_bool_decide as Hid.
    { apply substituteIdentifiers_present. }
    case_bool_decide as Htd.
    { unfold bind, ret. destruct (remapEnumTypeReferences e st); [|done].
      by intros [= <- <-]. }
    rewrite bool_decide_eq_false_2 by done.
    destruct (bool_decide (nodeType en = ASSIGNMENT)); simpl; [|by intros [= <-]].
    by intros [= <-].
Qed.

Lemma lookup_enterScope key (t : SymbolTableStack) :
  SymbolTableStack.lookup key (SymbolTableStack.enterScope t)
  = SymbolTableStack.lookup key t.
Proof.
  unfold SymbolTableStack.lookup, SymbolTableStack.enterScope. simpl.
  by rewrite lookup_empty.
Qed.

Lemma withClass_class n : withClass n (class n) = n.
Proof. by destruct n. Qed.

(** Writing back the elements a list already has changes nothing. *)
Lemma setElements_same listPtr s ln els :
  heap s !! listPtr = Some ln → elementsOf ln = Some els →
  setElements listPtr els s = Done tt s.
Proof.
  intros Hln Hels. unfold setElements, elementsOf in *. rewrite Hln.
  assert (Hs : setHeap (<[listPtr := ln]> (heap s)) s = s).
  { rewrite insert_id by done. by destruct s. }
  destruct (class ln) eqn:Hc; simplify_eq;
    rewrite <- Hc, withClass_class; by rewrite Hs.
Qed.

(** The first loop of the hoisting over declarations none of which is an
    Enum: the store and the local stack stay as they are, nothing is
    recorded for removal, and no diagnostic is appended exactly when the
    assignment keys are pairwise distinct and free in the hoisted stack. *)
Lemma hoistElements_without_enums els :
  ∀ keys i s,
  (∀ e, e ∈ els → isEnum (heap s) e = false) →
  mapM (topLevelKey (heap s)) els = Some keys →
  ∃ s' extra, hoistElements els i s = Done [] s'
    ∧ heap s' = heap s
    ∧ localScope s' = localScope s
    ∧ encounteredExceptions s' = encounteredExceptions s ++ extra
    ∧ (extra = [] ↔
       NoDup (assignmentKeys keys)
       ∧ ∀ key, key ∈ assignmentKeys keys →
           SymbolTableStack.lookup key (hoistedScope s) = None).
Proof.
  induction els as [|el els IH]; intros keys i s Hnoenum Hkeys.
  - apply mapM_Some, Forall2_nil_inv_l in Hkeys as ->.
    exists s, []. rewrite app_nil_r.
    repeat split; try done; [constructor | by intros ? ?%elem_of_nil].
  - apply mapM_Some in Hkeys.
    apply Forall2_cons_inv_l in Hkeys as (k & keys' & Hk & Hkeys' & ->).
    apply mapM_Some in Hkeys'.
    assert (Hnoenum' : ∀ e, e ∈ els → isEnum (heap s) e = false).
    { intros e He. apply Hnoenum. by apply list_elem_of_further. }
    pose proof (Hnoenum el (list_elem_of_here _ _)) as Hel.
    unfold isEnum in Hel. unfold topLevelKey in Hk.
    destruct (heap s !! el) as [eln|] eqn:Heln; [|done].
    cbn [hoistElements].
    run_deref Heln. rewrite Hel.
    destruct (bool_decide (nodeType eln = ASSIGNMENT)) eqn:Hassign.
    + destruct (assignmentView (heap s) el) as [[identifier key]|] eqn:Hview;
        [|done].
      injection Hk as <-. unfold assignmentView in Hview. rewrite Heln in Hview.
      destruct (left eln) as [l|] eqn:Hl; [|done].
      destruct (right eln) as [rhs|] eqn:Hr; [|done].
      destruct (heap s !! l) as [ln|] eqn:Hln; [|done].
      destruct (heap s !! rhs) as [rn|] eqn:Hrn; [|done].
      destruct (class ln) as [| |ident| | | | | |] eqn:Hc; try done.
      injection Hview as -> <-.
      pose proof (bindIdentifierToScope_eq el HoistedScope s eln l ln identifier
                    rhs rn Heln Hl Hln Hc Hr Hrn) as Hbind.
      cbv zeta in Hbind. simpl in Hbind.
      set (key := bindingKey identifier (heap s) rhs rn) in *.
      destruct (SymbolTableStack.lookup key (hoistedScope s)) as [found|]
        eqn:Hlook.
      * run Hbind.
        destruct (IH keys' (S i)
                    (mkState (heap s) (hoistedScope s) (localScope s)
                       (encounteredExceptions s
                          ++ [IllegalReassignmentError identifier])))
          as (s' & extra & Hrun & Hheap & Hloc & Hexc & Hiff); [done..|].
        exists s', (IllegalReassignmentError identifier :: extra).
        split; [done|]. split; [done|]. split; [done|]. split.
        { rewrite Hexc. simpl. by rewrite <- app_assoc. }
        split; [done|]. intros [_ Hfree]. simpl in Hfree.
        rewrite Hfree in Hlook; [done | apply list_elem_of_here].
      * unfold scopeInsert in Hbind. simpl in Hbind.
        rewrite (insert_unbound _ _ _ Hlook) in Hbind. simpl in Hbind.
        run Hbind.
        destruct (IH keys' (S i)
                    (mkState (heap s)
                       (mkStack (<[key := rhs]> (top (hoistedScope s)))
                                (below (hoistedScope s)))
                       (localScope s) (encounteredExceptions s)))
          as (s' & extra & Hrun & Hheap & Hloc & Hexc & Hiff); [done..|].
        simpl in *.
        exists s', extra. split; [done|]. split; [done|]. split; [done|].
        split; [done|]. rewrite Hiff, NoDup_cons. split.
        -- intros [Hnd Hfree]. split; [split; [|done]|].
           ++ intros Hin. specialize (Hfree _ Hin).
              by rewrite (lookup_top_Some _ rhs) in Hfree
                by (simpl; apply lookup_insert_eq).
           ++ intros k [->|Hin]%elem_of_cons; [done|].
              destruct (decide (k = key)) as [->|Hne]; [done|].
              rewrite <- (Hfree _ Hin). symmetry.
              by apply (lookup_insert_top_ne k key rhs (hoistedScope s)).
        -- intros [[Hnotin Hnd] Hfree]. split; [done|]. intros k Hin.
           assert (k ≠ key) by (by intros ->).
           rewrite <- (Hfree k) by (by apply list_elem_of_further).
           by apply (lookup_insert_top_ne k key rhs (hoistedScope s)).
    + injection Hk as <-. simpl. by apply IH.
Qed.

(** The hoisting phase on a capsule whose top-level sequence holds no Enum
    node leaves the store of AST nodes and the local stack unchanged.  It
    appends no diagnostic if and only if the keys of the top-level
    Assignments are pairwise distinct and free in the hoisted stack on
    entry. *)
Lemma hoistNecessary_again ast s n listPtr ln els keys :
  heap s !! ast = Some n → value n = Some listPtr →
  heap s !! listPtr = Some ln → elementsOf ln = Some els →
  (∀ e, e ∈ els → isEnum (heap s) e = false) →
  mapM (topLevelKey (heap s)) els = Some keys →
  ∃ s', hoistNecessary ast s = Done tt s'
    ∧ heap s' = heap s
    ∧ localScope s' = localScope s
    ∧ (encounteredExceptions s' = encounteredExceptions s ↔
       NoDup (assignmentKeys keys)
       ∧ ∀ key, key ∈ assignmentKeys keys →
           SymbolTableStack.lookup key (hoistedScope s) = None).
Proof.
  intros Hn Hv Hln Hels Hnoenum Hkeys.
  set (s0 := setScope HoistedScope
               (SymbolTableStack.enterScope (getScope HoistedScope s)) s).
  destruct (hoistElements_without_enums els keys 0 s0 Hnoenum Hkeys)
    as (s1 & extra & Hrun & Hheap & Hloc & Hexc & Hiff).
  change (heap s0) with (heap s) in Hheap.
  change (localScope s0) with (localScope s) in Hloc.
  change (encounteredExceptions s0) with (encounteredExceptions s) in Hexc.
  assert (Hget : getElements ln = ret els).
  { unfold getElements, elementsOf in *. by destruct (class ln); simplify_eq. }
  exists s1. split; [|split; [done|split; [done|]]].
  - unfold hoistNecessary.
    run_deref Hn. rewrite Hv.
    run_deref Hln. rewrite Hget.
    unfold bind at 1, ret at 1. unfold bind at 1, scopeEnter. fold s0.
    run Hrun.
    apply (setElements_same _ _ ln); [by rewrite Hheap | done].
  - rewrite Hexc. etrans; [|etrans; [exact Hiff|]].
    + split; [|intros ->; by rewrite app_nil_r].
      intros Heq. rewrite <- (app_nil_r (encounteredExceptions s)) in Heq at 2.
      by apply app_inv_head in Heq.
    + simpl. split; intros [Hnd Hfree]; (split; [done|]);
        intros k Hk; specialize (Hfree k Hk);
        by rewrite lookup_enterScope in *.
Qed.

End Hoisting.

(** * The pass on concrete trees *)

Module Runs.
Import Sample.
#[local] Open Scope positive_scope.
#[local] Existing Instance env.

(** C8: substituting the use of [x] at address 9 (the right-hand side of
    [y: Number = x], whose parent is the assignment at address 6) creates
    the literal at address 19; its parent back-reference is the replaced
    identifier node 9 itself, the third constructor argument of
    LiteralInlinerPass.cpp:68, and not the assignment 6 that owns the
    position. *)
Theorem substituteIdentifiers_parent_is_replaced_identifier :
  ∃ s' lit,
    optimizeAST (env := env) 9 false xBoundOnTop = Done (Some 19) s'
    ∧ heap s' !! 19 = Some lit
    ∧ class lit = LiteralNode "5"
    ∧ parent lit = Some 9
    ∧ (parent <$> heap xBoundOnTop !! 9) = Some (Some 6)
    ∧ parent lit ≠ Some 6.
Proof.
  eexists _, _. split; [vm_compute; reflexivity|].
  split; [vm_compute; reflexivity|].
  repeat split; done.
Qed.

(** C9: remapping the type declaration at address 16, the annotation of
    [z: x = 7] whose type name [x] is bound to the Number literal 5, goes
    through the null result of the downcast at LiteralInlinerPass.cpp:159:
    the operation does not complete. *)
Theorem remapEnumTypeReferences_literal_binding_crashes :
  (class <$> heap xBoundOnTop !! 16) = Some (TypeDeclarationNode "x")
  ∧ lookupInScope "x" xBoundOnTop = Done (Some 5) xBoundOnTop
  ∧ (class <$> heap xBoundOnTop !! 5) = Some (LiteralNode "5")
  ∧ remapEnumTypeReferences 16 xBoundOnTop = Crash NullDereference
  ∧ optimizeAST (env := env) 16 false xBoundOnTop = Crash NullDereference.
Proof. repeat split; vm_compute; reflexivity. Qed.

(** The enum [Color] has the element [:red] twice: none of its keys is bound
    beforehand, yet after unpacking neither [Color] nor [Color.blue] is
    bound, and a diagnostic has been appended. *)
Lemma unpack_repeated_symbol :
  enumView capsuleHeap 15 = Some ("Color", ["red"; "green"; "red"; "blue"])
  ∧ Forall (λ key, SymbolTableStack.lookup key (hoistedScope capsuleStart) = None)
           ["Color.red"; "Color.green"; "Color.blue"; "Color"]
  ∧ ∃ s', unpackEnumElementsInScope (env := env) 15 HoistedScope capsuleStart
          = Done tt s'
      ∧ SymbolTableStack.lookup "Color" (hoistedScope s') = None
      ∧ SymbolTableStack.lookup "Color.blue" (hoistedScope s') = None
      ∧ encounteredExceptions s' = [IllegalReassignmentError "Color.red"].
Proof.
  split; [vm_compute; reflexivity|].
  split; [repeat constructor|].
  eexists. split; [vm_compute; reflexivity|].
  repeat split; vm_compute; reflexivity.
Qed.

(** The left-hand side [x] of [x: Number = 6] is an identifier whose name
    resolves to the Number literal 5, and it carries its type annotation in
    its [value] slot: the guard of LiteralInlinerPass.cpp:46 leaves it in
    place and creates no literal. *)
Lemma declaration_site_is_kept :
  (nodeType <$> heap xBoundOnTop !! 11) = Some IDENTIFIER
  ∧ (class <$> heap xBoundOnTop !! 11) = Some (IdentifierNode "x")
  ∧ resolveIdentifier "x" xBoundOnTop = Some 5
  ∧ (nodeType <$> heap xBoundOnTop !! 5) = Some NUMBER_LITERAL
  ∧ optimizeAST (env := env) 11 false xBoundOnTop = Done (Some 11) xBoundOnTop.
Proof. repeat split; vm_compute; reflexivity. Qed.

(** The second declaration of [x] in the block collides with the first one:
    the binding fails (a diagnostic is appended and the local stack keeps
    its binding of [x] to the literal 5), and the assignment is deleted all
    the same. *)
Lemma colliding_assignment_is_deleted :
  ∃ s', optimizeAST (env := env) 10 false xBoundOnTop = Done None s'
    ∧ encounteredExceptions s' = [IllegalReassignmentError "x"]
    ∧ localScope s' = localScope xBoundOnTop
    ∧ SymbolTableStack.lookup "x" (localScope s') = Some 5.
Proof.
  eexists. split; [vm_compute; reflexivity|].
  repeat split; vm_compute; reflexivity.
Qed.

(** Declaring [x] in an inner frame while only an outer frame of the same
    stack binds it raises the diagnostic. *)
Lemma outer_frame_binding_collides :
  top (localScope xBoundBelow) !! "x" = None
  ∧ ∃ s', bindIdentifierToScope (env := env) 10 LocalScope xBoundBelow
          = Done tt s'
      ∧ encounteredExceptions xBoundBelow = []
      ∧ encounteredExceptions s' = [IllegalReassignmentError "x"]
      ∧ top (localScope s') !! "x" = None.
Proof.
  split; [vm_compute; reflexivity|].
  eexists. split; [vm_compute; reflexivity|].
  repeat split; vm_compute; reflexivity.
Qed.

(** [Level] has two distinct elements and none of its keys is bound. *)
Lemma unpack_Level :
  ∃ s', unpackEnumElementsInScope (env := env) 3 HoistedScope capsuleStart
        = Done tt s'
    ∧ (∃ q, SymbolTableStack.lookup "Level.high" (hoistedScope s') = Some q
            ∧ isNumberLiteral (heap s') q 1)
    ∧ (∃ t, SymbolTableStack.lookup "Level" (hoistedScope s') = Some t
            ∧ isNumberType (heap s') t).
Proof.
  destruct (unpackEnumElementsInScope_binds_indices (env := env)
              3 HoistedScope capsuleStart "Level" ["low"; "high"])
    as (s' & Hrun & Hbound & Htype & _).
  - vm_compute; reflexivity.
  - compute_done.
  - apply Forall_forall. repeat constructor.
  - vm_compute; reflexivity.
  - exists s'. split; [exact Hrun|]. split; [|exact Htype].
    apply (Hbound 1%nat "high"). reflexivity.
Defined.

(** The two uses of [x] in the block each get their own copy of the
    literal 5. *)
Lemma substitute_both_uses_of_x :
  ∃ a a2 s1 s2,
    substituteIdentifiers (env := env) 9 xBoundOnTop = Done (Some a) s1
    ∧ substituteIdentifiers (env := env) 18 s1 = Done (Some a2) s2
    ∧ a ≠ a2 ∧ a ≠ 5 ∧ a2 ≠ 5
    ∧ (class <$> heap s2 !! 5) = Some (LiteralNode "5").
Proof.
  destruct (substituteIdentifiers_copies_binding (env := env)
              9 18 xBoundOnTop
              (node 9 IDENTIFIER (Some 6) None None None (IdentifierNode "x"))
              (node 18 IDENTIFIER (Some 1) None None None (IdentifierNode "x"))
              "x" 5
              (node 5 NUMBER_LITERAL (Some 2) None None None (LiteralNode "5"))
              "5")
    as (a & lit & s1 & a2 & lit2 & s2 & H1 & _ & _ & _ & _ & _ & _ & _ & _
        & H2 & _ & _ & _ & _ & Hfound & _ & Ha & Ha2 & Haa2 & _);
    try (vm_compute; reflexivity).
  exists a, a2, s1, s2. repeat split; try done. by rewrite Hfound.
Defined.

(** The first statement of the block is a literal assignment that is not
    the last statement: it is deleted. *)
Lemma first_statement_is_deleted :
  ∃ s', optimizeAST (env := env) 2 false blockStart = Done None s'.
Proof.
  destruct (optimizeAST_assignment_elision (env := env) 2 blockStart
              (node 2 ASSIGNMENT (Some 1) (Some 3) (Some 5) None PlainNode)
              3 (node 3 IDENTIFIER (Some 2) None None (Some 4) (IdentifierNode "x"))
              "x"
              4 (node 4 TYPE_DECLARATION (Some 3) None None None
                      (TypeDeclarationNode "Number"))
              "Number"
              5 (node 5 NUMBER_LITERAL (Some 2) None None None (LiteralNode "5"))
              1 (node 1 BLOCK None None None None (BlockNode [2; 6; 10; 14; 18])))
    as (r & s' & Hrun & _ & Hiff & _); try (vm_compute; reflexivity).
  - intros _.
    exists 18, (node 18 IDENTIFIER (Some 1) None None None (IdentifierNode "x")).
    split; [vm_compute; reflexivity|]. split; [vm_compute; reflexivity|].
    split; intros H; discriminate H.
  - exists s'. rewrite Hrun. f_equal. apply Hiff.
    split; [vm_compute; reflexivity|]. intros H; discriminate H.
Defined.

(** In the nested scope the second declaration of [x] collides with the
    binding of the outer frame. *)
Lemma bind_x_in_nested_scope :
  ∃ s', bindIdentifierToScope (env := env) 10 LocalScope xBoundBelow = Done tt s'
    ∧ encounteredExceptions s' = [IllegalReassignmentError "x"]
    ∧ localScope s' = localScope xBoundBelow.
Proof.
  destruct (bindIdentifierToScope_collision_iff_lookup (env := env)
              10 LocalScope xBoundBelow
              (node 10 ASSIGNMENT (Some 1) (Some 11) (Some 13) None PlainNode)
              11 (node 11 IDENTIFIER (Some 10) None None (Some 12)
                       (IdentifierNode "x"))
              "x"
              13 (node 13 NUMBER_LITERAL (Some 10) None None None (LiteralNode "6")))
    as (s' & Hrun & _ & _ & _ & Hcollide & _); try (vm_compute; reflexivity).
  exists s'. split; [exact Hrun|]. apply Hcollide.
  exists 5. vm_compute; reflexivity.
Defined.

(** Hoisting the sample capsule removes its two enums and keeps both
    declarations of [x]. *)
Lemma hoist_sample_capsule :
  ∃ s' ln', hoistNecessary (env := env) 1 capsuleStart = Done tt s'
    ∧ heap s' !! 2 = Some ln'
    ∧ elementsOf ln' = Some [7; 11].
Proof.
  destruct (hoistNecessary_removes_exactly_enums (env := env) 1 capsuleStart
              (node 1 CAPSULE None None None (Some 2) (CapsuleNode "Main"))
              2 (node 2 AST_NODE_LIST (Some 1) None None None
                      (ASTNodeList [3; 7; 11; 15]))
              [3; 7; 11; 15])
    as (s' & ln' & Hrun & Hln' & Hels & _); try (vm_compute; reflexivity).
  exists s', ln'. split; [exact Hrun|]. split; [exact Hln'|].
  rewrite Hels. vm_compute; reflexivity.
Defined.

(** Met inside a block, the enum [Color] is deleted although its unpacking
    stopped at the second [:red]. *)
Lemma nested_Color_is_deleted :
  ∃ s', optimizeAST (env := env) 15 false capsuleStart = Done None s'
    ∧ encounteredExceptions s' = [IllegalReassignmentError "Color.red"]
    ∧ SymbolTableStack.lookup "Color" (localScope s') = None
    ∧ SymbolTableStack.lookup "Color.blue" (localScope s') = None.
Proof.
  destruct (unpackEnumElementsInScope_stops_at_collision (env := env)
              15 LocalScope capsuleStart
              (node 15 ENUM (Some 2) None None None
                    (EnumNode (Some 16) [17; 18; 19; 20]))
              "Color" ["red"; "green"] "red" ["blue"])
    as (s' & _ & Hexc & _ & Hkeep & Hbase & _ & Hopt);
    try (vm_compute; reflexivity).
  - compute_done.
  - left. compute_done.
  - cbn [getScope] in Hbase, Hkeep.
    exists s'. split; [by apply Hopt|]. split; [exact Hexc|].
    split; [rewrite Hbase; vm_compute; reflexivity|].
    rewrite (Hkeep "Color.blue"); [vm_compute; reflexivity|].
    compute_done.
Defined.

End Runs.

(** * What the functions of the pass keep and never do *)

Section Inversion.
Context `{env : CompilerEnv}.

Lemma bind_inv {A B} (m : M A) (k : A → M B) s b s' :
  bind m k s = Done b s' → ∃ a s1, m s = Done a s1 ∧ k a s1 = Done b s'.
Proof. unfold bind. destruct (m s) as [a s1|]; [eauto | done]. Qed.

Lemma ret_inv {A} (a b : A) s s' : ret a s = Done b s' → b = a ∧ s' = s.
Proof. by intros [= <- <-]. Qed.

Lemma deref_inv p s n s' :
  deref p s = Done n s' → s' = s ∧ ∃ a, p = Some a ∧ heap s !! a = Some n.
Proof.
  unfold deref. destruct p as [a|]; [|done].
  destruct (heap s !! a) as [m|] eqn:Hm; [|done]. intros [= <- <-]. eauto.
Qed.

Lemma getIdentifier_inv n s name s' :
  getIdentifier n s = Done name s' → s' = s ∧ class n = IdentifierNode name.
Proof. unfold getIdentifier. destruct (class n); try done. by intros [= <- <-]. Qed.

Lemma getSymbol_inv n s sym s' :
  getSymbol n s = Done sym s' → s' = s ∧ class n = SymbolNode sym.
Proof. unfold getSymbol. destruct (class n); try done. by intros [= <- <-]. Qed.

Lemma getLiteralValue_inv n s v s' :
  getLiteralValue n s = Done v s' → s' = s ∧ class n = LiteralNode v.
Proof. unfold getLiteralValue. destruct (class n); try done. by intros [= <- <-]. Qed.

Lemma getType_inv n s t s' :
  getType n s = Done t s' → s' = s ∧ class n = TypeDeclarationNode t.
Proof. unfold getType. destruct (class n); try done. by intros [= <- <-]. Qed.

Lemma getElements_inv n s els s' :
  getElements n s = Done els s' → s' = s ∧ elementsOf n = Some els.
Proof.
  unfold getElements, elementsOf. destruct (class n); try done;
    by intros [= <- <-].
Qed.

Lemma substr1_inv sym s name s' :
  substr1 sym s = Done name s' → s' = s ∧ ∃ c, sym = String c name.
Proof. destruct sym as [|c sym]; [done|]. intros [= <- <-]. eauto. Qed.

Lemma grows_refl scope s : grows scope s s.
Proof. by repeat split. Qed.

Lemma grows_trans scope s1 s2 s3 :
  grows scope s1 s2 → grows scope s2 s3 → grows scope s1 s3.
Proof.
  intros (Hh & Ho & Hb & Ht & He) (Hh' & Ho' & Hb' & Ht' & He').
  repeat split; [by etrans | congruence | congruence | by etrans | by etrans].
Qed.

Lemma atMostOneMore_prefix {A} (l l' : list A) :
  atMostOneMore l l' → l `prefix_of` l'.
Proof. intros [->|[x ->]]; [done | by apply prefix_app_r]. Qed.

Lemma lookup_top_preserved key node (t t' : SymbolTableStack) :
  top t ⊆ top t' → top t !! key = Some node →
  SymbolTableStack.lookup key t' = Some node.
Proof.
  intros Hsub Hkey. apply lookup_top_Some. by eapply lookup_weaken.
Qed.

End Inversion.

Section Frames.
Context `{env : CompilerEnv}.

Lemma make_shared_inv n s a s' :
  make_shared n s = Done a s' →
  a = fresh (dom (heap s)) ∧ s' = setHeap (<[a := n]> (heap s)) s.
Proof. unfold make_shared. by intros [= <- <-]. Qed.

Lemma scopeInsert_grows scope key node s :
  grows scope s (setScope scope (SymbolTableStack.insert key node (getScope scope s)).2 s).
Proof.
  unfold grows. rewrite heap_setScope, getScope_setScope_other,
    getScope_setScope, exceptions_setScope.
  unfold SymbolTableStack.insert.
  destruct (top (getScope scope s) !! key) eqn:Hk; simpl;
    repeat split; try done.
  by apply insert_subseteq.
Qed.

Lemma addException_grows scope e s :
  grows scope s (mkState (heap s) (hoistedScope s) (localScope s)
                         (encounteredExceptions s ++ [e])).
Proof.
  unfold grows. simpl. repeat split; try done; try (by destruct scope).
  by apply prefix_app_r.
Qed.

Lemma setHeap_fresh_grows scope n s :
  grows scope s (setHeap (<[fresh (dom (heap s)) := n]> (heap s)) s).
Proof.
  unfold grows. simpl. repeat split; try done; try (by destruct scope).
  apply insert_subseteq, fresh_not_in_heap.
Qed.

Lemma atMostOneMore_refl {A} (l : list A) : atMostOneMore l l.
Proof. by left. Qed.

(** The binding rule, whenever it returns, has left the store as it was and
    has at most bound one key or appended one diagnostic. *)
Lemma bindIdentifierToScope_grows ast scope s s' :
  bindIdentifierToScope ast scope s = Done tt s' →
  heap s' = heap s
  ∧ grows scope s s'
  ∧ atMostOneMore (encounteredExceptions s) (encounteredExceptions s')
  ∧ (encounteredExceptions s' = encounteredExceptions s
     ∨ getScope scope s' = getScope scope s).
Proof.
  intros H. unfold bindIdentifierToScope in H.
  apply bind_inv in H as (n & s1 & [-> _]%deref_inv & H).
  apply bind_inv in H as (l & s1 & [-> _]%deref_inv & H).
  apply bind_inv in H as (identifier & s1 & [-> _]%getIdentifier_inv & H).
  apply bind_inv in H as (r & s1 & [-> _]%deref_inv & H).
  destruct (right n) as [rhs|]; [|done].
  assert (Hcase : ∀ key,
    (let! found := scopeLookup scope key in
     match found with
     | Some _ => addException (IllegalReassignmentError identifier)
     | None => scopeInsert scope key rhs
     end) s = Done tt s' →
    heap s' = heap s ∧ grows scope s s'
    ∧ atMostOneMore (encounteredExceptions s) (encounteredExceptions s')
    ∧ (encounteredExceptions s' = encounteredExceptions s
       ∨ getScope scope s' = getScope scope s)).
  { clear H. intros key H. unfold bind, scopeLookup in H.
    destruct (SymbolTableStack.lookup key (getScope scope s)) as [found|] eqn:Hl.
    - injection H as <-. split; [done|]. split; [apply addException_grows|].
      split; [right; eauto|]. right. by destruct scope.
    - unfold scopeInsert in H. injection H as <-.
      split; [apply heap_setScope|]. split; [apply scopeInsert_grows|].
      split; left; apply exceptions_setScope. }
  destruct (bool_decide (nodeType r = FUNCTION_DECLARATION)).
  - apply bind_inv in H as (h & s1 & [= <- <-] & H). by apply (Hcase _ H).
  - by apply (Hcase _ H).
Qed.

(** The loop of the unpacking, whenever it returns. *)
Lemma unpackEnumElements_grows base scope els :
  ∀ i s completed s',
  unpackEnumElements base scope els i s = Done completed s' →
  grows scope s s'
  ∧ (if completed then encounteredExceptions s' = encounteredExceptions s
     else ∃ key, encounteredExceptions s'
                 = encounteredExceptions s ++ [IllegalReassignmentError key])
  ∧ (∀ key node,
       SymbolTableStack.lookup key (getScope scope s) = Some node →
       SymbolTableStack.lookup key (getScope scope s') = Some node).
Proof.
  induction els as [|el els IH]; intros i s completed s' H.
  - injection H as <- <-. split; [apply grows_refl|]. by split.
  - cbn [unpackEnumElements] in H.
    apply bind_inv in H as (eln & s1 & [-> _]%deref_inv & H).
    apply bind_inv in H as (sym & s1 & [-> _]%getSymbol_inv & H).
    apply bind_inv in H as (name & s1 & [-> _]%substr1_inv & H).
    apply bind_inv in H as (found & s1 & [= <- <-] & H).
    destruct (SymbolTableStack.lookup _ (getScope scope s)) as [found|] eqn:Hl.
    + apply bind_inv in H as ([] & s1 & [= <-] & [= <- <-]).
      split; [apply addException_grows|]. split; [eauto|].
      intros k nd Hk. by destruct scope.
    + apply bind_inv in H as (lit & s1 & Hnew & H).
      unfold newLiteralNode in Hnew. apply make_shared_inv in Hnew as [-> ->].
      apply bind_inv in H as ([] & s2 & [= <-] & H).
      apply IH in H as (Hg & Hexc & Hkeep).
      set (n := mkNode NUMBER_LITERAL _ _ _ _ _ _) in *.
      set (s1 := setHeap _ s) in *.
      assert (Hscope : getScope scope s1 = getScope scope s) by (by destruct scope).
      split; [|split].
      * eapply grows_trans; [apply (setHeap_fresh_grows scope n s)|].
        eapply grows_trans; [|exact Hg]. apply scopeInsert_grows.
      * rewrite exceptions_setScope in Hexc. exact Hexc.
      * intros k nd Hk. apply Hkeep.
        rewrite getScope_setScope, Hscope, (insert_unbound _ _ _ Hl). simpl.
        destruct (decide (k = base +:+ "." +:+ name)) as [->|Hne]; [congruence|].
        by rewrite lookup_insert_top_ne.
Qed.

(** Unpacking, whenever it returns. *)
Lemma unpackEnumElementsInScope_grows node scope s s' :
  unpackEnumElementsInScope node scope s = Done tt s' →
  grows scope s s'
  ∧ atMostOneMore (encounteredExceptions s) (encounteredExceptions s').
Proof.
  intros H. unfold unpackEnumElementsInScope in H.
  apply bind_inv in H as (n & s1 & [-> _]%deref_inv & H).
  apply bind_inv in H as (ip & s1 & Hip & H).
  assert (s1 = s) as ->.
  { unfold getEnumIdentifier in Hip. destruct (class n); try done.
    by injection Hip as <- <-. }
  apply bind_inv in H as (idn & s1 & [-> _]%deref_inv & H).
  apply bind_inv in H as (base & s1 & [-> _]%getIdentifier_inv & H).
  apply bind_inv in H as (els & s1 & [-> _]%getElements_inv & H).
  apply bind_inv in H as (completed & s1 & Hloop & H).
  apply unpackEnumElements_grows in Hloop as (Hg & Hexc & _).
  destruct completed.
  - apply bind_inv in H as (t & s2 & Hnew & H).
    unfold newTypeDeclarationNode in Hnew.
    apply make_shared_inv in Hnew as [-> ->].
    unfold scopeInsert in H. injection H as <-. split.
    + eapply grows_trans; [exact Hg|].
      eapply grows_trans; [apply setHeap_fresh_grows|apply scopeInsert_grows].
    + left. by rewrite exceptions_setScope.
  - injection H as <-. split; [done|]. destruct Hexc as [key ->]. right. eauto.
Qed.

(** X3: the binding rule, whenever it returns, has left the store and the
    other stack as they were, has appended at most one diagnostic, and has
    kept every binding of the target stack: a key that resolved before
    resolves to the same node afterwards. *)
Theorem bindIdentifierToScope_keeps_bindings ast scope s s' :
  bindIdentifierToScope ast scope s = Done tt s' →
  heap s' = heap s
  ∧ getScope (otherScope scope) s' = getScope (otherScope scope) s
  ∧ atMostOneMore (encounteredExceptions s) (encounteredExceptions s')
  ∧ (∀ key node, SymbolTableStack.lookup key (getScope scope s) = Some node →
       SymbolTableStack.lookup key (getScope scope s') = Some node).
Proof.
  intros H. pose proof H as Hg.
  apply bindIdentifierToScope_grows in Hg as (Hheap & (_ & Ho & _) & Hexc & _).
  split; [done|]. split; [done|]. split; [done|].
  unfold bindIdentifierToScope in H.
  apply bind_inv in H as (n & s1 & [-> _]%deref_inv & H).
  apply bind_inv in H as (l & s1 & [-> _]%deref_inv & H).
  apply bind_inv in H as (identifier & s1 & [-> _]%getIdentifier_inv & H).
  apply bind_inv in H as (r & s1 & [-> _]%deref_inv & H).
  destruct (right n) as [rhs|]; [|done].
  assert (Hcase : ∀ key,
    (let! found := scopeLookup scope key in
     match found with
     | Some _ => addException (IllegalReassignmentError identifier)
     | None => scopeInsert scope key rhs
     end) s = Done tt s' →
    ∀ key node, SymbolTableStack.lookup key (getScope scope s) = Some node →
         SymbolTableStack.lookup key (getScope scope s') = Some node).
  { clear H. intros key H. unfold bind, scopeLookup in H.
    destruct (SymbolTableStack.lookup key (getScope scope s)) as [found|] eqn:Hl.
    - injection H as <-. intros k nd Hk. by destruct scope.
    - unfold scopeInsert in H. injection H as <-.
      intros k nd Hk. rewrite getScope_setScope, (insert_unbound _ _ _ Hl).
      simpl. destruct (decide (k = key)) as [->|Hne]; [congruence|].
      by rewrite lookup_insert_top_ne. }
  destruct (bool_decide (nodeType r = FUNCTION_DECLARATION)).
  - apply bind_inv in H as (h & s1 & [= <- <-] & H). by apply (Hcase _ H).
  - by apply (Hcase _ H).
Qed.

(** X6: unpacking an enum, whenever it returns, has only added nodes to the
    store, has left the other stack and the frames below the top one as they
    were, has appended at most one diagnostic, and has kept every binding of
    the target stack under a key other than the base identifier, and the
    binding of the base identifier when the top frame held it. *)
Theorem unpackEnumElementsInScope_keeps_bindings
    node scope s s' n ip els idn base :
  heap s !! node = Some n → class n = EnumNode (Some ip) els →
  heap s !! ip = Some idn → class idn = IdentifierNode base →
  unpackEnumElementsInScope node scope s = Done tt s' →
  heap s ⊆ heap s'
  ∧ getScope (otherScope scope) s' = getScope (otherScope scope) s
  ∧ below (getScope scope s') = below (getScope scope s)
  ∧ (encounteredExceptions s' = encounteredExceptions s
     ∨ ∃ key, encounteredExceptions s'
              = encounteredExceptions s ++ [IllegalReassignmentError key])
  ∧ (∀ key nd, key ≠ base →
       SymbolTableStack.lookup key (getScope scope s) = Some nd →
       SymbolTableStack.lookup key (getScope scope s') = Some nd)
  ∧ (∀ nd, top (getScope scope s) !! base = Some nd →
       SymbolTableStack.lookup base (getScope scope s') = Some nd).
Proof.
  intros Hn Hc Hip Hcid H. pose proof H as Hg.
  apply unpackEnumElementsInScope_grows in Hg as ((Hh & Ho & Hb & Ht & _) & Hexc).
  split; [done|]. split; [done|]. split; [done|].
  split; [destruct Hexc as [->|[[key] ->]]; eauto|].
  split; [|intros nd Hnd; by apply (lookup_top_preserved _ _ _ _ Ht)].
  unfold unpackEnumElementsInScope in H.
  rewrite (bind_Done _ _ _ _ _ (deref_Some _ _ _ Hn)) in H.
  unfold getEnumIdentifier, getElements in H. rewrite Hc in H.
  unfold bind at 1, ret at 1 in H.
  rewrite (bind_Done _ _ _ _ _ (deref_Some _ _ _ Hip)) in H.
  unfold getIdentifier in H. rewrite Hcid in H.
  unfold bind at 1, ret at 1 in H. unfold bind at 1, ret at 1 in H.
  apply bind_inv in H as (completed & s1 & Hloop & H).
  apply unpackEnumElements_grows in Hloop as (_ & _ & Hkeep).
  intros key nd Hne Hkey. specialize (Hkeep _ _ Hkey).
  destruct completed; [|by injection H as <-].
  apply bind_inv in H as (t & s2 & Hnew & H).
  unfold newTypeDeclarationNode in Hnew.
  apply make_shared_inv in Hnew as [-> ->].
  unfold scopeInsert in H. injection H as <-.
  rewrite getScope_setScope.
  set (s2 := setHeap _ s1).
  assert (Hscope : getScope scope s2 = getScope scope s1) by (by destruct scope).
  rewrite Hscope. unfold SymbolTableStack.insert.
  destruct (top (getScope scope s1) !! base); simpl; [done|].
  by rewrite lookup_insert_top_ne.
Qed.

(** What substitution does to an identifier occurrence that is not a
    declaration site. *)
Lemma substituteIdentifiers_eq ast s n name :
  heap s !! ast = Some n →
  valueIsTypeDeclaration (heap s) n = Some false →
  class n = IdentifierNode name →
  substituteIdentifiers ast s =
    match resolveIdentifier name s with
    | None => Done (Some ast) s
    | Some found =>
        match heap s !! found with
        | None => Crash NullDereference
        | Some fn =>
            if isLiteralType (nodeType fn) then
              match class fn with
              | LiteralNode v =>
                  let a := fresh (dom (heap s)) in
                  Done (Some a)
                    (setHeap (<[a := mkNode (nodeType fn) (generateId (heap s))
                                        (Some ast) None None None (LiteralNode v)]>
                                (heap s)) s)
              | _ => Crash NullDereference
              end
            else Done (Some ast) s
        end
    end.
Proof.
  intros Hn Hval Hc.
  unfold substituteIdentifiers. run_deref Hn.
  unfold valueIsTypeDeclaration in Hval. unfold bind at 1.
  assert (Hrest :
    (let! name := getIdentifier n in
     let! foundHoisted := scopeLookup HoistedScope name in
     let! foundInScope := scopeLookup LocalScope name in
     let foundIdentifier :=
       match foundInScope with Some _ => foundInScope | None => foundHoisted end in
     match foundIdentifier with
     | None => ret (Some ast)
     | Some found =>
         let! fn := deref (Some found) in
         if isLiteralType (nodeType fn) then
           let! v := getLiteralValue fn in
           let! lit := newLiteralNode (nodeType fn) v (Some ast) in
           ret (Some lit)
         else ret (Some ast)
     end) s =
    match resolveIdentifier name s with
    | None => Done (Some ast) s
    | Some found =>
        match heap s !! found with
        | None => Crash NullDereference
        | Some fn =>
            if isLiteralType (nodeType fn) then
              match class fn with
              | LiteralNode v =>
                  let a := fresh (dom (heap s)) in
                  Done (Some a)
                    (setHeap (<[a := mkNode (nodeType fn) (generateId (heap s))
                                        (Some ast) None None None (LiteralNode v)]>
                                (heap s)) s)
              | _ => Crash NullDereference
              end
            else Done (Some ast) s
        end
    end).
  { unfold bind, getIdentifier, scopeLookup, deref, resolveIdentifier.
    rewrite Hc. simpl.
    assert (Hfound : ∀ found,
      match match heap s !! found with
            | Some n0 => Done n0 s
            | None => Crash NullDereference
            end with
      | Done fn s' =>
          (if isLiteralType (nodeType fn)
           then λ s0, match getLiteralValue fn s0 with
                      | Done v s'0 =>
                          match newLiteralNode (nodeType fn) v (Some ast) s'0 with
                          | Done lit s'1 => ret (Some lit) s'1
                          | Crash f => Crash f
                          end
                      | Crash f => Crash f
                      end
           else ret (Some ast)) s'
      | Crash f => Crash f
      end =
      match heap s !! found with
      | None => Crash NullDereference
      | Some fn =>
          if isLiteralType (nodeType fn) then
            match class fn with
            | LiteralNode v =>
                Done (Some (fresh (dom (heap s))))
                  (setHeap (<[fresh (dom (heap s)) :=
                      mkNode (nodeType fn) (generateId (heap s))
                             (Some ast) None None None (LiteralNode v)]>
                              (heap s)) s)
            | _ => Crash NullDereference
            end
          else Done (Some ast) s
      end).
    { intros found. destruct (heap s !! found) as [fn|]; [|done].
      destruct (isLiteralType (nodeType fn)); [|done].
      unfold getLiteralValue. by destruct (class fn). }
    destruct (SymbolTableStack.lookup name (localScope s)) as [a|]; [apply Hfound|].
    destruct (SymbolTableStack.lookup name (hoistedScope s)) as [a|];
      [apply Hfound | done]. }
  destruct (value n) as [tv|].
  - unfold bind at 1, deref at 1.
    destruct (heap s !! tv) as [tn|]; [|done].
    injection Hval as Hval. unfold ret at 1. rewrite Hval. exact Hrest.
  - unfold ret at 1. exact Hrest.
Qed.

(** X1: an identifier occurrence is left alone, and with it the whole pass
    state, when it is a declaration site, when neither stack binds its name
    and when its name is bound to a node that is not a literal. *)
Theorem substituteIdentifiers_leaves_alone ast s n :
  heap s !! ast = Some n →
  (valueIsTypeDeclaration (heap s) n = Some true
   ∨ ∃ name, valueIsTypeDeclaration (heap s) n = Some false
       ∧ class n = IdentifierNode name
       ∧ (resolveIdentifier name s = None
          ∨ ∃ found fn, resolveIdentifier name s = Some found
              ∧ heap s !! found = Some fn
              ∧ isLiteralType (nodeType fn) = false)) →
  substituteIdentifiers ast s = Done (Some ast) s.
Proof.
  intros Hn [Hdecl|(name & Hval & Hc & Hres)].
  - unfold substituteIdentifiers. run_deref Hn.
    unfold valueIsTypeDeclaration in Hdecl. unfold bind at 1.
    destruct (value n) as [tv|]; [|done].
    unfold bind at 1, deref at 1.
    destruct (heap s !! tv) as [tn|]; [|done].
    injection Hdecl as Hdecl. unfold ret at 1. by rewrite Hdecl.
  - rewrite (substituteIdentifiers_eq _ _ _ _ Hn Hval Hc).
    destruct Hres as [->|(found & fn & -> & -> & ->)]; done.
Qed.

(** X2: a binding of the local stack shadows the hoisted one, whatever the
    hoisted stack binds the name to. *)
Theorem substituteIdentifiers_local_shadows_hoisted ast s n name a an :
  heap s !! ast = Some n →
  valueIsTypeDeclaration (heap s) n = Some false →
  class n = IdentifierNode name →
  SymbolTableStack.lookup name (localScope s) = Some a →
  heap s !! a = Some an →
  (isLiteralType (nodeType an) = false →
     substituteIdentifiers ast s = Done (Some ast) s)
  ∧ (∀ v, isLiteralType (nodeType an) = true → class an = LiteralNode v →
       ∃ c s', substituteIdentifiers ast s = Done (Some c) s'
         ∧ heap s !! c = None
         ∧ isLiteralCopy (heap s') c (nodeType an) v).
Proof.
  intros Hn Hval Hc Hloc Han.
  rewrite (substituteIdentifiers_eq _ _ _ _ Hn Hval Hc).
  unfold resolveIdentifier. rewrite Hloc, Han. split.
  - by intros ->.
  - intros v -> ->. eexists _, _. split; [reflexivity|].
    split; [apply fresh_not_in_heap|].
    eexists. split; [apply lookup_insert_eq | done].
Qed.

(** X4: applying the binding rule to the same assignment a second time
    always reports it, and changes nothing else. *)
Theorem bindIdentifierToScope_twice_reports
    ast scope s n l ln identifier rhs rn :
  heap s !! ast = Some n →
  left n = Some l → heap s !! l = Some ln →
  class ln = IdentifierNode identifier →
  right n = Some rhs → heap s !! rhs = Some rn →
  ∃ s1, bindIdentifierToScope ast scope s = Done tt s1
    ∧ bindIdentifierToScope ast scope s1
      = Done tt (mkState (heap s1) (hoistedScope s1) (localScope s1)
                   (encounteredExceptions s1
                      ++ [IllegalReassignmentError identifier])).
Proof.
  intros Hn Hl Hln Hc Hr Hrn.
  pose proof (bindIdentifierToScope_eq ast scope s n l ln identifier rhs rn
                Hn Hl Hln Hc Hr Hrn) as H1. cbv zeta in H1.
  set (key := bindingKey identifier (heap s) rhs rn) in *.
  assert (Hsecond : ∀ s1, heap s1 = heap s →
            is_Some (SymbolTableStack.lookup key (getScope scope s1)) →
            bindIdentifierToScope ast scope s1
            = Done tt (mkState (heap s1) (hoistedScope s1) (localScope s1)
                         (encounteredExceptions s1
                            ++ [IllegalReassignmentError identifier]))).
  { intros s1 Hheap [found Hfound].
    rewrite (bindIdentifierToScope_eq ast scope s1 n l ln identifier rhs rn)
      by (rewrite ?Hheap; done).
    cbv zeta. rewrite Hheap. fold key. rewrite Hfound.
    unfold addException. by rewrite Hheap. }
  destruct (SymbolTableStack.lookup key (getScope scope s)) as [found|] eqn:Hlook.
  - eexists. split; [exact H1|]. apply Hsecond; [done|].
    exists found. by destruct scope.
  - eexists. split; [exact H1|]. apply Hsecond; [apply heap_setScope|].
    rewrite getScope_setScope, (insert_unbound _ _ _ Hlook). simpl.
    exists rhs. apply lookup_top_Some. simpl. apply lookup_insert_eq.
Qed.

(** The remapping of a type declaration, whenever it returns, has changed
    at most the class part of the node it was given. *)
Lemma remapEnumTypeReferences_inv ast s s' :
  remapEnumTypeReferences ast s = Done tt s' →
  ∃ n t, heap s !! ast = Some n ∧ class n = TypeDeclarationNode t
    ∧ (s' = s
       ∨ ∃ found fn t',
           resolveIdentifier t s = Some found
           ∧ heap s !! found = Some fn ∧ class fn = TypeDeclarationNode t'
           ∧ s' = setHeap (<[ast := withClass n (TypeDeclarationNode t')]>
                             (heap s)) s).
Proof.
  intros H. pose proof H as H0. unfold remapEnumTypeReferences in H0.
  apply bind_inv in H0 as (n & s1 & [-> (a & Ha & Hn)]%deref_inv & H0).
  injection Ha as <-.
  apply bind_inv in H0 as (t & s1 & [-> Hc]%getType_inv & _).
  rewrite (remapEnumTypeReferences_cases _ _ _ _ Hn Hc) in H.
  exists n, t. split; [done|]. split; [done|].
  destruct (resolveIdentifier t s) as [found|] eqn:Hres;
    [|left; by injection H as <-].
  destruct (heap s !! found) as [fn|] eqn:Hfn; [|done]. simpl in H.
  destruct (class fn) eqn:Hcf; try done. injection H as <-.
  right. by eexists found, fn, _.
Qed.

(** X12: remapping a type declaration, whenever it returns, has replaced at
    most the type name of that one node: its node type, id, parent and
    children, every other node, both stacks and the collector are as
    before. *)
Theorem remapEnumTypeReferences_changes_only_type_name ast s s' :
  remapEnumTypeReferences ast s = Done tt s' →
  ∃ n t t',
    heap s !! ast = Some n ∧ class n = TypeDeclarationNode t
    ∧ heap s' = <[ast := withClass n (TypeDeclarationNode t')]> (heap s)
    ∧ hoistedScope s' = hoistedScope s ∧ localScope s' = localScope s
    ∧ encounteredExceptions s' = encounteredExceptions s.
Proof.
  intros (n & t & Hn & Hc & [->|(found & fn & t' & _ & _ & _ & ->)])
    %remapEnumTypeReferences_inv.
  - exists n, t, t. split; [done|]. split; [done|].
    rewrite <- Hc, withClass_class, insert_id by done. done.
  - by exists n, t, t'.
Qed.

(** Substitution, whenever it returns, has either left everything as it was
    or allocated one literal node. *)
Lemma substituteIdentifiers_inv ast s r s' :
  substituteIdentifiers ast s = Done r s' →
  (r = Some ast ∧ s' = s)
  ∨ ∃ fn v,
      isLiteralType (nodeType fn) = true
      ∧ r = Some (fresh (dom (heap s)))
      ∧ s' = setHeap (<[fresh (dom (heap s)) :=
                mkNode (nodeType fn) (generateId (heap s)) (Some ast)
                       None None None (LiteralNode v)]> (heap s)) s.
Proof.
  intros H. unfold substituteIdentifiers in H.
  apply bind_inv in H as (n & s1 & [-> _]%deref_inv & H).
  apply bind_inv in H as (isDecl & s1 & Hdecl & H).
  assert (s1 = s) as ->.
  { destruct (value n) as [tv|]; [|by injection Hdecl as <- <-].
    apply bind_inv in Hdecl as (vn & s2 & [-> _]%deref_inv & Hdecl).
    by injection Hdecl as <- <-. }
  destruct isDecl; [left; by injection H as <- <-|].
  apply bind_inv in H as (name & s1 & [-> _]%getIdentifier_inv & H).
  apply bind_inv in H as (fh & s1 & [= <- <-] & H).
  apply bind_inv in H as (fl & s1 & [= <- <-] & H).
  match type of H with match ?x with _ => _ end _ = _ =>
    destruct x as [found|]; [|left; by injection H as <- <-] end.
  apply bind_inv in H as (fn & s1 & [-> _]%deref_inv & H).
  destruct (isLiteralType (nodeType fn)) eqn:Hlit;
    [|left; by injection H as <- <-].
  apply bind_inv in H as (v & s1 & [-> _]%getLiteralValue_inv & H).
  apply bind_inv in H as (lit & s1 & Hnew & H).
  unfold newLiteralNode in Hnew. apply make_shared_inv in Hnew as [-> ->].
  injection H as <- <-. right. by exists fn, v.
Qed.

Lemma isLiteralAssignment_pure ast s b s' :
  isLiteralAssignment ast s = Done b s' → s' = s.
Proof.
  intros H. unfold isLiteralAssignment in H.
  apply bind_inv in H as (n & s1 & [-> _]%deref_inv & H).
  destruct (negb _); [by injection H as <- <-|].
  apply bind_inv in H as (l & s1 & [-> _]%deref_inv & H).
  apply bind_inv in H as (tn & s1 & [-> _]%deref_inv & H).
  apply bind_inv in H as (t & s1 & [-> _]%getType_inv & H).
  apply bind_inv in H as (r & s1 & [-> _]%deref_inv & H).
  by injection H as <- <-.
Qed.

Lemma isLastOfBlock_pure ast s b s' :
  isLastOfBlock ast s = Done b s' → s' = s.
Proof.
  intros H. unfold isLastOfBlock in H.
  apply bind_inv in H as (n & s1 & [-> _]%deref_inv & H).
  apply bind_inv in H as (par & s1 & [-> _]%deref_inv & H).
  destruct (bool_decide _); [|by injection H as <- <-].
  apply bind_inv in H as (els & s1 & Hels & H).
  assert (s1 = s) as ->.
  { unfold getBlockElements in Hels. destruct (class par); try done.
    by injection Hels as <- <-. }
  destruct (last els) as [e|]; [|done].
  apply bind_inv in H as (en & s1 & [-> _]%deref_inv & H).
  by injection H as <- <-.
Qed.

(** X13: the per-node step deletes only Enum nodes and Assignments that are
    not direct children of a capsule, and replaces only Identifier nodes,
    and those only by a newly allocated literal. *)
Theorem optimizeAST_deletes_and_replaces ast isCapsuleDirectChild s n r s' :
  heap s !! ast = Some n →
  optimizeAST ast isCapsuleDirectChild s = Done r s' →
  match r with
  | None => nodeType n = ENUM
            ∨ (nodeType n = ASSIGNMENT ∧ isCapsuleDirectChild = false)
  | Some a =>
      a = ast
      ∨ (nodeType n = IDENTIFIER ∧ heap s !! a = None
         ∧ ∃ t v, isLiteralType t = true ∧ isLiteralCopy (heap s') a t v)
  end.
Proof.
  intros Hn H. unfold optimizeAST in H.
  rewrite (bind_Done _ _ _ _ _ (deref_Some _ _ _ Hn)) in H.
  case_bool_decide as Hid.
  { apply substituteIdentifiers_inv in H as [[-> ->]|(fn & v & Hlit & -> & ->)];
      [by left|].
    right. split; [done|]. split; [apply fresh_not_in_heap|].
    exists (nodeType fn), v. split; [done|].
    eexists. split; [apply lookup_insert_eq | done]. }
  case_bool_decide as Htd.
  { apply bind_inv in H as ([] & s1 & _ & H). injection H as <- <-. by left. }
  case_bool_decide as Henum.
  { apply bind_inv in H as ([] & s1 & _ & H). injection H as <- <-. by left. }
  case_bool_decide as Hassign; simpl in H; [|injection H as <- <-; by left].
  destruct isCapsuleDirectChild; simpl in H; [injection H as <- <-; by left|].
  apply bind_inv in H as ([] & s1 & _ & H).
  apply bind_inv in H as (literal & s2 & _ & H).
  destruct literal; [|injection H as <- <-; by left].
  apply bind_inv in H as (isLast & s3 & _ & H).
  destruct isLast; injection H as <- <-; [by left | by right].
Qed.

(** X14: the per-node step, whenever it returns, has left the hoisted stack
    and every node other than the one it was given as they were, has
    pushed or popped no frame of the local stack and dropped none of its
    bindings, and has appended at most one diagnostic. *)
Theorem optimizeAST_frame ast isCapsuleDirectChild s r s' :
  optimizeAST ast isCapsuleDirectChild s = Done r s' →
  hoistedScope s' = hoistedScope s
  ∧ below (localScope s') = below (localScope s)
  ∧ top (localScope s) ⊆ top (localScope s')
  ∧ atMostOneMore (encounteredExceptions s) (encounteredExceptions s')
  ∧ (∀ a m, a ≠ ast → heap s !! a = Some m → heap s' !! a = Some m).
Proof.
  intros H. unfold optimizeAST in H.
  apply bind_inv in H as (n & s1 & [-> _]%deref_inv & H).
  assert (Hsame : hoistedScope s = hoistedScope s
    ∧ below (localScope s) = below (localScope s)
    ∧ top (localScope s) ⊆ top (localScope s)
    ∧ atMostOneMore (encounteredExceptions s) (encounteredExceptions s)
    ∧ (∀ a m, a ≠ ast → heap s !! a = Some m → heap s !! a = Some m)).
  { repeat split; try done. by left. }
  assert (Hgrows : ∀ s1, grows LocalScope s s1 →
    atMostOneMore (encounteredExceptions s) (encounteredExceptions s1) →
    hoistedScope s1 = hoistedScope s
    ∧ below (localScope s1) = below (localScope s)
    ∧ top (localScope s) ⊆ top (localScope s1)
    ∧ atMostOneMore (encounteredExceptions s) (encounteredExceptions s1)
    ∧ (∀ a m, a ≠ ast → heap s !! a = Some m → heap s1 !! a = Some m)).
  { intros s1 (Hh & Ho & Hb & Ht & _) Hexc. repeat split; try done.
    intros a m _ Ha. by eapply lookup_weaken. }
  case_bool_decide as Hid.
  { apply substituteIdentifiers_inv in H as [[-> ->]|(fn & v & Hlit & -> & ->)];
      [done|].
    apply Hgrows; [apply setHeap_fresh_grows | by left]. }
  case_bool_decide as Htd.
  { apply bind_inv in H as ([] & s1 & Hremap & H). injection H as <- <-.
    apply remapEnumTypeReferences_inv in Hremap
      as (m & t & Hm & Hc & [->|(found & fn & t' & _ & _ & _ & ->)]); [done|].
    simpl. repeat split; try done; [by left|].
    intros a k Hne Ha. by rewrite lookup_insert_ne. }
  case_bool_decide as Henum.
  { apply bind_inv in H as ([] & s1 & Hunpack & H). injection H as <- <-.
    apply unpackEnumElementsInScope_grows in Hunpack as [Hg Hexc].
    by apply Hgrows. }
  case_bool_decide as Hassign; simpl in H; [|by injection H as <- <-].
  destruct isCapsuleDirectChild; simpl in H; [by injection H as <- <-|].
  apply bind_inv in H as ([] & s1 & Hbind & H).
  apply bind_inv in H as (literal & s2 & ->%isLiteralAssignment_pure & H).
  apply bindIdentifierToScope_grows in Hbind as (_ & Hg & Hexc & _).
  destruct literal; [|injection H as <- <-; by apply Hgrows].
  apply bind_inv in H as (isLast & s3 & ->%isLastOfBlock_pure & H).
  destruct isLast; injection H as <- <-; by apply Hgrows.
Qed.

Lemma valueIsTypeDeclaration_mono (h h' : Heap) n b :
  h ⊆ h' → valueIsTypeDeclaration h n = Some b →
  valueIsTypeDeclaration h' n = Some b.
Proof.
  intros Hsub. unfold valueIsTypeDeclaration.
  destruct (value n) as [tv|]; [|done].
  destruct (h !! tv) as [tn|] eqn:Htn; [|done].
  by rewrite (lookup_weaken _ _ _ _ Htn Hsub).
Qed.

(** The per-node step on an Assignment whose children are in place, up to
    the test of its position. *)
Lemma optimizeAST_assignment_run
    ast s n l ln identifier tv tn declared rhs rn :
  heap s !! ast = Some n → nodeType n = ASSIGNMENT →
  left n = Some l → heap s !! l = Some ln →
  class ln = IdentifierNode identifier →
  value ln = Some tv → heap s !! tv = Some tn →
  class tn = TypeDeclarationNode declared →
  right n = Some rhs → heap s !! rhs = Some rn →
  ∃ s1, bindIdentifierToScope ast LocalScope s = Done tt s1
    ∧ heap s1 = heap s
    ∧ optimizeAST ast false s =
        if literalMatchesType rn declared
        then (let! isLast := isLastOfBlock ast in
              if isLast : bool then ret (Some ast) else ret None) s1
        else Done (Some ast) s1.
Proof.
  intros Hn Ht Hl Hln Hc Htv Htn Hct Hr Hrn.
  destruct (bindIdentifierToScope_completes
              ast LocalScope s n l ln identifier rhs rn Hn Hl Hln Hc Hr Hrn)
    as (s1 & Hbind & Hheap).
  exists s1. split; [done|]. split; [done|].
  assert (Hlit : isLiteralAssignment ast s1
                 = Done (literalMatchesType rn declared) s1).
  { apply (isLiteralAssignment_eq _ _ n l ln tv tn declared rhs);
      rewrite ?Hheap; done. }
  unfold optimizeAST. run_deref Hn. rewrite Ht. simpl.
  run Hbind. run Hlit. by destruct (literalMatchesType rn declared).
Qed.

(** X15: an Assignment without a parent: the position test of
    LiteralInlinerPass.cpp:33 is only reached for a literal assignment, which
    then goes through the null parent; any other assignment is bound and
    kept. *)
Theorem optimizeAST_assignment_without_parent
    ast s n l ln identifier tv tn declared rhs rn :
  heap s !! ast = Some n → nodeType n = ASSIGNMENT →
  left n = Some l → heap s !! l = Some ln →
  class ln = IdentifierNode identifier →
  value ln = Some tv → heap s !! tv = Some tn →
  class tn = TypeDeclarationNode declared →
  right n = Some rhs → heap s !! rhs = Some rn →
  parent n = None →
  (literalMatchesType rn declared = true →
     optimizeAST ast false s = Crash NullDereference)
  ∧ (literalMatchesType rn declared = false →
     ∃ s1, optimizeAST ast false s = Done (Some ast) s1
           ∧ bindIdentifierToScope ast LocalScope s = Done tt s1).
Proof.
  intros Hn Ht Hl Hln Hc Htv Htn Hct Hr Hrn Hp.
  destruct (optimizeAST_assignment_run ast s n l ln identifier tv tn declared
              rhs rn Hn Ht Hl Hln Hc Htv Htn Hct Hr Hrn)
    as (s1 & Hbind & Hheap & ->).
  split; intros ->; [|by exists s1].
  unfold bind, isLastOfBlock, bind, deref. by rewrite Hheap, Hn, Hp.
Qed.

(** X16: a literal assignment of a block that is deleted by the per-node step
    is not lost: a later use of its name is replaced by a copy of the
    literal. *)
Theorem elided_assignment_is_inlined
    ast s n l ln identifier tv tn declared rhs rn v par pn use un b :
  heap s !! ast = Some n → nodeType n = ASSIGNMENT →
  left n = Some l → heap s !! l = Some ln →
  class ln = IdentifierNode identifier →
  value ln = Some tv → heap s !! tv = Some tn →
  class tn = TypeDeclarationNode declared →
  right n = Some rhs → heap s !! rhs = Some rn →
  parent n = Some par → heap s !! par = Some pn →
  (nodeType pn = BLOCK →
   ∃ e en, finalStatementOf pn = Some e ∧ heap s !! e = Some en
           ∧ (id en = id n ↔ e = ast)) →
  finalStatementOf pn ≠ Some ast →
  literalMatchesType rn declared = true →
  class rn = LiteralNode v →
  SymbolTableStack.lookup identifier (localScope s) = None →
  heap s !! use = Some un → nodeType un = IDENTIFIER →
  class un = IdentifierNode identifier →
  valueIsTypeDeclaration (heap s) un = Some false →
  ∃ s1 c s2,
    optimizeAST ast false s = Done None s1
    ∧ heap s1 = heap s
    ∧ optimizeAST use b s1 = Done (Some c) s2
    ∧ heap s !! c = None
    ∧ isLiteralCopy (heap s2) c (nodeType rn) v
    ∧ encounteredExceptions s2 = encounteredExceptions s.
Proof.
  intros Hn Ht Hl Hln Hc Htv Htn Hct Hr Hrn Hp Hpn Hblock Hnotlast Hlit Hv
    Hfree Hun Htu Hcu Hvu.
  assert (HlitType : isLiteralType (nodeType rn) = true).
  { unfold literalMatchesType in Hlit. unfold isLiteralType.
    repeat case_bool_decide; simpl in *; try done. }
  assert (Hkey : bindingKey identifier (heap s) rhs rn = identifier).
  { unfold bindingKey. case_bool_decide as Hf; [|done].
    unfold isLiteralType in HlitType. rewrite Hf in HlitType. done. }
  destruct (optimizeAST_assignment_run ast s n l ln identifier tv tn declared
              rhs rn Hn Ht Hl Hln Hc Htv Htn Hct Hr Hrn)
    as (s1 & Hbind & Hheap & Hrun).
  rewrite Hlit in Hrun.
  rewrite (bindIdentifierToScope_eq _ _ _ _ _ _ _ _ _ Hn Hl Hln Hc Hr Hrn)
    in Hbind.
  cbv zeta in Hbind. rewrite Hkey in Hbind. simpl in Hbind.
  rewrite Hfree in Hbind. unfold scopeInsert in Hbind. simpl in Hbind.
  rewrite (insert_unbound _ _ _ Hfree) in Hbind. simpl in Hbind.
  injection Hbind as <-.
  set (s1 := mkState _ _ _ _) in *.
  assert (Hlast : isLastOfBlock ast s1 = Done false s1).
  { rewrite (isLastOfBlock_eq ast s1 n par pn Hn Hp Hpn Hblock).
    by rewrite bool_decide_eq_false_2. }
  rewrite (bind_Done _ _ _ _ _ Hlast) in Hrun.
  assert (Hres : resolveIdentifier identifier s1 = Some rhs).
  { unfold resolveIdentifier.
    rewrite (lookup_top_Some identifier rhs (localScope s1)); [done|].
    simpl. apply lookup_insert_eq. }
  pose proof (substituteIdentifiers_literal use s1 un identifier rhs rn v
                Hun Hvu Hcu Hres Hrn HlitType Hv) as Hsub.
  cbv zeta in Hsub.
  eexists s1, _, _. split; [exact Hrun|]. split; [done|]. split.
  { unfold optimizeAST. run (deref_Some use s1 un Hun).
    rewrite Htu. simpl. exact Hsub. }
  split; [apply fresh_not_in_heap|]. split; [|done].
  eexists. split; [apply lookup_insert_eq | done].
Qed.

(** Unpacking an enum whose element names are pairwise distinct and whose
    element keys are free. *)
Lemma unpackEnumElementsInScope_complete node scope s base names :
  enumView (heap s) node = Some (base, names) →
  NoDup names →
  (∀ name, name ∈ names →
     SymbolTableStack.lookup (enumKey base name) (getScope scope s) = None) →
  ∃ s', unpackEnumElementsInScope node scope s = Done tt s'
    ∧ heap s ⊆ heap s'
    ∧ encounteredExceptions s' = encounteredExceptions s
    ∧ getScope (otherScope scope) s' = getScope (otherScope scope) s
    ∧ below (getScope scope s') = below (getScope scope s)
    ∧ (∀ i name, names !! i = Some name →
         ∃ q, top (getScope scope s') !! enumKey base name = Some q
              ∧ isNumberLiteral (heap s') q i)
    ∧ (top (getScope scope s) !! base = None →
         ∃ t, top (getScope scope s') !! base = Some t
              ∧ isNumberType (heap s') t)
    ∧ (∀ q, top (getScope scope s) !! base = Some q →
         top (getScope scope s') !! base = Some q).
Proof.
  intros Hview Hnd Hfree.
  destruct (unpackEnumElementsInScope_eq _ scope _ _ _ Hview)
    as (els & Hall & ->).
  destruct (unpackEnumElements_prefix base scope els names 0 s Hall Hnd Hfree)
    as (s1 & Hrun & Hsub & Hexc & Hother & Hbelow & Hframe & Hbound).
  specialize (Hrun []). rewrite app_nil_r in Hrun. simpl in Hrun.
  run Hrun.
  assert (Hbase1 : top (getScope scope s1) !! base
                   = top (getScope scope s) !! base).
  { apply Hframe. intros (nm & Heq & _)%list_elem_of_fmap.
    by apply (enumKey_ne_base base nm). }
  unfold bind, newTypeDeclarationNode, make_shared, scopeInsert.
  set (t := fresh (dom (heap s1))).
  set (ty := mkNode TYPE_DECLARATION _ _ _ _ _ _).
  assert (Hscope : getScope scope (setHeap (<[t := ty]> (heap s1)) s1)
                   = getScope scope s1) by (by destruct scope).
  rewrite Hscope.
  eexists. split; [reflexivity|].
  rewrite getScope_setScope, heap_setScope, exceptions_setScope,
    getScope_setScope_other. simpl.
  assert (Hsub1 : heap s1 ⊆ <[t := ty]> (heap s1))
    by apply insert_subseteq, fresh_not_in_heap.
  split; [by etrans|]. split; [done|].
  split; [rewrite <- Hother; by destruct scope|].
  unfold SymbolTableStack.insert. rewrite Hbase1.
  destruct (top (getScope scope s) !! base) as [q0|] eqn:Hb0; simpl.
  - split; [done|]. split; [|split; [done|]].
    + intros i name Hi.
      destruct (Hbound i name Hi) as (q & Hq & qn & Hqn & Hlit).
      exists q. split; [done|]. exists qn. split; [|done].
      by apply (lookup_weaken _ _ _ _ Hqn Hsub1).
    + intros q [= <-]. by rewrite Hbase1.
  - split; [done|]. split; [|split; [|done]].
    + intros i name Hi.
      destruct (Hbound i name Hi) as (q & Hq & qn & Hqn & Hlit).
      exists q. split.
      * rewrite lookup_insert_ne; [done|].
        intros Heq. by apply (enumKey_ne_base base name).
      * exists qn. split; [|done]. by apply (lookup_weaken _ _ _ _ Hqn Hsub1).
    + intros _. exists t. split; [apply lookup_insert_eq|].
      exists ty. split; [apply lookup_insert_eq | done].
Qed.

(** X8: unpacking the same enum into the same stack a second time stops at
    its first element: one diagnostic, and nothing else changes. *)
Theorem unpackEnumElementsInScope_twice_reports
    node scope s base first names :
  enumView (heap s) node = Some (base, first :: names) →
  NoDup (first :: names) →
  (∀ name, name ∈ first :: names →
     SymbolTableStack.lookup (enumKey base name) (getScope scope s) = None) →
  ∃ s1, unpackEnumElementsInScope node scope s = Done tt s1
    ∧ encounteredExceptions s1 = encounteredExceptions s
    ∧ unpackEnumElementsInScope node scope s1
      = Done tt (mkState (heap s1) (hoistedScope s1) (localScope s1)
                   (encounteredExceptions s1
                      ++ [IllegalReassignmentError (enumKey base first)])).
Proof.
  intros Hview Hnd Hfree.
  destruct (unpackEnumElementsInScope_complete _ scope _ _ _ Hview Hnd Hfree)
    as (s1 & Hrun & Hsub & Hexc & _ & _ & Hbound & _).
  exists s1. split; [done|]. split; [done|].
  pose proof (enumView_mono _ _ _ _ Hsub Hview) as Hview1.
  destruct (unpackEnumElementsInScope_eq _ scope _ _ _ Hview1)
    as (els & Hall & ->).
  apply Forall2_cons_inv_r in Hall as (el & els' & Hel & _ & ->).
  destruct (Hbound 0 first eq_refl) as (q & Hq & _).
  by rewrite (bind_Done _ _ _ _ _
    (unpackEnumElements_collide base scope el els' 0 s1 first q Hel
       (lookup_top_Some _ _ _ Hq))).
Qed.

(** X9: an enum whose base identifier is already bound in the top frame of
    the target stack is unpacked without any diagnostic: its elements are
    bound to their indices and the earlier binding of the base identifier
    stays. *)
Theorem unpackEnumElementsInScope_bound_base_is_silent
    node scope s base names q :
  enumView (heap s) node = Some (base, names) →
  NoDup names →
  (∀ name, name ∈ names →
     SymbolTableStack.lookup (enumKey base name) (getScope scope s) = None) →
  top (getScope scope s) !! base = Some q →
  ∃ s', unpackEnumElementsInScope node scope s = Done tt s'
    ∧ encounteredExceptions s' = encounteredExceptions s
    ∧ SymbolTableStack.lookup base (getScope scope s') = Some q
    ∧ (∀ i name, names !! i = Some name →
         ∃ e, SymbolTableStack.lookup (enumKey base name) (getScope scope s')
              = Some e
              ∧ isNumberLiteral (heap s') e i).
Proof.
  intros Hview Hnd Hfree Hq.
  destruct (unpackEnumElementsInScope_complete _ scope _ _ _ Hview Hnd Hfree)
    as (s' & Hrun & _ & Hexc & _ & _ & Hbound & _ & Hkeep).
  exists s'. split; [done|]. split; [done|].
  split; [by apply lookup_top_Some, Hkeep|].
  intros i name Hi. destruct (Hbound i name Hi) as (e & He & Hlit).
  exists e. split; [by apply lookup_top_Some | done].
Qed.

(** X10: after an enum has been unpacked, a reference to one of its elements
    is replaced by a Number literal holding the element's index. *)
Theorem enum_element_reference_is_inlined
    node scope s base names i name use un :
  enumView (heap s) node = Some (base, names) →
  NoDup names →
  (∀ name, name ∈ names →
     SymbolTableStack.lookup (enumKey base name) (getScope scope s) = None) →
  names !! i = Some name →
  (scope = LocalScope
   ∨ SymbolTableStack.lookup (enumKey base name) (localScope s) = None) →
  heap s !! use = Some un →
  class un = IdentifierNode (enumKey base name) →
  valueIsTypeDeclaration (heap s) un = Some false →
  ∃ s1 c s2,
    unpackEnumElementsInScope node scope s = Done tt s1
    ∧ substituteIdentifiers use s1 = Done (Some c) s2
    ∧ heap s1 !! c = None
    ∧ isLiteralCopy (heap s2) c NUMBER_LITERAL (to_string i).
Proof.
  intros Hview Hnd Hfree Hi Hlocal Hun Hcu Hvu.
  destruct (unpackEnumElementsInScope_complete _ scope _ _ _ Hview Hnd Hfree)
    as (s1 & Hrun & Hsub & _ & Hother & _ & Hbound & _).
  destruct (Hbound i name Hi) as (q & Hq & qn & Hqn & Hty & Hcq).
  assert (Hres : resolveIdentifier (enumKey base name) s1 = Some q).
  { unfold resolveIdentifier. destruct scope; simpl in *.
    - destruct Hlocal as [?|Hlocal]; [done|].
      rewrite Hother, Hlocal. by apply lookup_top_Some.
    - by rewrite (lookup_top_Some _ _ _ Hq). }
  pose proof (substituteIdentifiers_literal use s1 un _ q qn (to_string i)
                (lookup_weaken _ _ _ _ Hun Hsub)
                (valueIsTypeDeclaration_mono _ _ _ _ Hsub Hvu)
                Hcu Hres Hqn) as Hsubst.
  rewrite Hty in Hsubst. specialize (Hsubst eq_refl Hcq). cbv zeta in Hsubst.
  eexists s1, _, _. split; [done|]. split; [exact Hsubst|].
  split; [apply fresh_not_in_heap|].
  eexists. split; [apply lookup_insert_eq | done].
Qed.

(** X11: after an enum has been unpacked, a type declaration naming the enum
    is rewritten to the primitive type NUMBER. *)
Theorem enum_type_reference_is_remapped
    node scope s base names td tn :
  enumView (heap s) node = Some (base, names) →
  NoDup names →
  (∀ name, name ∈ names →
     SymbolTableStack.lookup (enumKey base name) (getScope scope s) = None) →
  top (getScope scope s) !! base = None →
  (scope = LocalScope
   ∨ SymbolTableStack.lookup base (localScope s) = None) →
  heap s !! td = Some tn →
  class tn = TypeDeclarationNode base →
  ∃ s1 s2,
    unpackEnumElementsInScope node scope s = Done tt s1
    ∧ remapEnumTypeReferences td s1 = Done tt s2
    ∧ heap s2 !! td = Some (withClass tn (TypeDeclarationNode DataTypes_NUMBER)).
Proof.
  intros Hview Hnd Hfree Hbase Hlocal Htd Hc.
  destruct (unpackEnumElementsInScope_complete _ scope _ _ _ Hview Hnd Hfree)
    as (s1 & Hrun & Hsub & _ & Hother & _ & _ & Hty & _).
  destruct (Hty Hbase) as (t & Ht & ty & Hyt & _ & Hcty).
  assert (Hres : resolveIdentifier base s1 = Some t).
  { unfold resolveIdentifier. destruct scope; simpl in *.
    - destruct Hlocal as [?|Hlocal]; [done|].
      rewrite Hother, Hlocal. by apply lookup_top_Some.
    - by rewrite (lookup_top_Some _ _ _ Ht). }
  exists s1. eexists. split; [done|].
  rewrite (remapEnumTypeReferences_cases td s1 tn base
             (lookup_weaken _ _ _ _ Htd Hsub) Hc).
  rewrite Hres, Hyt. simpl. rewrite Hcty. split; [reflexivity|].
  simpl. apply lookup_insert_eq.
Qed.

(** What [unpackEnumElementsInScope] does before its loop, for an enum whose
    identifier is in place. *)
Lemma unpackEnumElementsInScope_prelude node scope s n ip els idn base :
  heap s !! node = Some n → class n = EnumNode (Some ip) els →
  heap s !! ip = Some idn → class idn = IdentifierNode base →
  unpackEnumElementsInScope node scope s
  = (let! completed := unpackEnumElements base scope els 0 in
     if completed : bool then
       let! t := newTypeDeclarationNode DataTypes_NUMBER None in
       scopeInsert scope base t
     else ret tt) s.
Proof.
  intros Hn Hc Hip Hcid. unfold unpackEnumElementsInScope. run_deref Hn.
  unfold getEnumIdentifier, getElements. rewrite Hc.
  unfold bind at 1, ret at 1. run_deref Hip.
  unfold getIdentifier. by rewrite Hcid.
Qed.

(** X7: an element whose symbol is the empty string makes [substr(1)] throw:
    unpacking does not return, whatever was bound for the elements before
    it. *)
Theorem unpackEnumElementsInScope_empty_symbol_throws
    node scope s n ip idn base els1 pre el eln els2 :
  heap s !! node = Some n →
  class n = EnumNode (Some ip) (els1 ++ el :: els2) →
  heap s !! ip = Some idn → class idn = IdentifierNode base →
  Forall2 (λ e name, symbolName (heap s) e = Some name) els1 pre →
  NoDup pre →
  (∀ name, name ∈ pre →
     SymbolTableStack.lookup (enumKey base name) (getScope scope s) = None) →
  heap s !! el = Some eln → class eln = SymbolNode "" →
  unpackEnumElementsInScope node scope s = Crash OutOfRange.
Proof.
  intros Hn Hc Hip Hcid Hall Hnd Hfree Hel Hsym.
  rewrite (unpackEnumElementsInScope_prelude _ _ _ _ _ _ _ _ Hn Hc Hip Hcid).
  destruct (unpackEnumElements_prefix base scope els1 pre 0 s Hall Hnd Hfree)
    as (s1 & Hrun & Hsub & _).
  unfold bind at 1. rewrite Hrun. cbn [unpackEnumElements].
  run (deref_Some el s1 eln (lookup_weaken _ _ _ _ Hel Hsub)).
  unfold getSymbol. rewrite Hsym. done.
Qed.

Lemma eraseAtIndices_sublist {A} (removeAtIndices : list nat) (v : list A) :
  eraseAtIndices removeAtIndices v `sublist_of` v.
Proof.
  unfold eraseAtIndices.
  induction removeAtIndices as [|j js IH]; [done|].
  rewrite reverse_cons, foldl_app. simpl.
  etrans; [apply sublist_delete | exact IH].
Qed.

(** The first loop of the hoisting, whenever it returns. *)
Lemma hoistElements_grows els :
  ∀ i s removed s',
  hoistElements els i s = Done removed s' → grows HoistedScope s s'.
Proof.
  induction els as [|el els IH]; intros i s removed s' H.
  - injection H as <- <-. apply grows_refl.
  - cbn [hoistElements] in H.
    apply bind_inv in H as (eln & s1 & [-> _]%deref_inv & H).
    destruct (bool_decide (nodeType eln = ENUM)).
    + apply bind_inv in H as ([] & s1 & [Hg _]%unpackEnumElementsInScope_grows & H).
      apply bind_inv in H as (rest & s2 & Hrest%IH & H).
      injection H as <- <-. by eapply grows_trans.
    + destruct (bool_decide (nodeType eln = ASSIGNMENT)).
      * apply bind_inv in H
          as ([] & s1 & (_ & Hg & _)%bindIdentifierToScope_grows & H).
        apply IH in H. by eapply grows_trans.
      * by apply IH in H.
Qed.

(** X17: the hoisting phase, whenever it returns, has pushed exactly one frame
    on the hoisted stack and popped none, has left the local stack and every
    node but the capsule's list as they were, has dropped no diagnostic, and
    has made the list a subsequence of what it was. *)
Theorem hoistNecessary_frame ast s s' :
  hoistNecessary ast s = Done tt s' →
  localScope s' = localScope s
  ∧ below (hoistedScope s') = top (hoistedScope s) :: below (hoistedScope s)
  ∧ encounteredExceptions s `prefix_of` encounteredExceptions s'
  ∧ ∃ n listPtr ln ln' els els',
      heap s !! ast = Some n ∧ value n = Some listPtr
      ∧ heap s !! listPtr = Some ln ∧ elementsOf ln = Some els
      ∧ heap s' !! listPtr = Some ln' ∧ elementsOf ln' = Some els'
      ∧ els' `sublist_of` els
      ∧ (∀ a m, a ≠ listPtr → heap s !! a = Some m → heap s' !! a = Some m).
Proof.
  intros H. unfold hoistNecessary in H.
  apply bind_inv in H as (n & s1 & [-> (a & Ha & Hn)]%deref_inv & H).
  injection Ha as <-.
  apply bind_inv in H as (ln & s1 & [-> (listPtr & Hv & Hln)]%deref_inv & H).
  apply bind_inv in H as (els & s1 & [-> Hels]%getElements_inv & H).
  apply bind_inv in H as ([] & s0 & [= <-] & H).
  apply bind_inv in H as (removed & s1 & Hloop & H).
  apply hoistElements_grows in Hloop as (Hh & Ho & Hb & Ht & He).
  simpl in Hh, Ho, Hb, He. rewrite Hv in H.
  pose proof (lookup_weaken _ _ _ _ Hln Hh) as Hln1.
  unfold setElements in H. rewrite Hln1 in H.
  assert (Hout : ∃ c, elementsOf (withClass ln c)
                      = Some (eraseAtIndices removed els)
                 ∧ s' = setHeap (<[listPtr := withClass ln c]> (heap s1)) s1).
  { unfold elementsOf in Hels.
    destruct (class ln); try done; injection H as <-;
      (eexists; split; [|reflexivity]; reflexivity). }
  destruct Hout as (c & Hels' & ->). simpl.
  split; [done|]. split; [done|]. split; [done|].
  exists n, listPtr, ln, (withClass ln c), els, (eraseAtIndices removed els).
  repeat split; try done.
  - apply lookup_insert_eq.
  - apply eraseAtIndices_sublist.
  - intros b m Hne Hb'. rewrite lookup_insert_ne by done.
    by eapply lookup_weaken.
Qed.

(** The first loop of the hoisting over declarations none of which is an
    Enum and whose keys are pairwise distinct and free: every Assignment is
    bound to its right-hand side. *)
Lemma hoistElements_binds_assignments els :
  ∀ keys i s,
  (∀ e, e ∈ els → isEnum (heap s) e = false) →
  mapM (topLevelKey (heap s)) els = Some keys →
  NoDup (assignmentKeys keys) →
  (∀ key, key ∈ assignmentKeys keys →
     SymbolTableStack.lookup key (hoistedScope s) = None) →
  ∃ s', hoistElements els i s = Done [] s'
    ∧ heap s' = heap s
    ∧ localScope s' = localScope s
    ∧ encounteredExceptions s' = encounteredExceptions s
    ∧ (∀ key nd, SymbolTableStack.lookup key (hoistedScope s) = Some nd →
         SymbolTableStack.lookup key (hoistedScope s') = Some nd)
    ∧ (∀ e n identifier key rhs,
         e ∈ els → heap s !! e = Some n → nodeType n = ASSIGNMENT →
         assignmentView (heap s) e = Some (identifier, key) →
         right n = Some rhs →
         SymbolTableStack.lookup key (hoistedScope s') = Some rhs).
Proof.
  induction els as [|el els IH]; intros keys i s Hnoenum Hkeys Hnd Hfree.
  - exists s. repeat split; try done. by intros ????? ?%elem_of_nil.
  - apply mapM_Some in Hkeys.
    apply Forall2_cons_inv_l in Hkeys as (k & keys' & Hk & Hkeys' & ->).
    apply mapM_Some in Hkeys'.
    assert (Hnoenum' : ∀ e, e ∈ els → isEnum (heap s) e = false).
    { intros e He. apply Hnoenum. by apply list_elem_of_further. }
    pose proof (Hnoenum el (list_elem_of_here _ _)) as Hel.
    unfold isEnum in Hel. unfold topLevelKey in Hk.
    destruct (heap s !! el) as [eln|] eqn:Heln; [|done].
    cbn [hoistElements]. run_deref Heln. rewrite Hel.
    destruct (bool_decide (nodeType eln = ASSIGNMENT)) eqn:Hassign.
    + destruct (assignmentView (heap s) el) as [[identifier key]|] eqn:Hview;
        [|done].
      injection Hk as <-. pose proof Hview as Hview0.
      unfold assignmentView in Hview. rewrite Heln in Hview.
      destruct (left eln) as [l|] eqn:Hl; [|done].
      destruct (right eln) as [rhs|] eqn:Hr; [|done].
      destruct (heap s !! l) as [ln|] eqn:Hln; [|done].
      destruct (heap s !! rhs) as [rn|] eqn:Hrn; [|done].
      destruct (class ln) as [| |ident| | | | | |] eqn:Hc; try done.
      injection Hview as -> <-.
      pose proof (bindIdentifierToScope_eq el HoistedScope s eln l ln identifier
                    rhs rn Heln Hl Hln Hc Hr Hrn) as Hbind.
      cbv zeta in Hbind. simpl in Hbind.
      set (key := bindingKey identifier (heap s) rhs rn) in *.
      unfold assignmentKeys in Hnd, Hfree. simpl in Hnd, Hfree.
      fold (assignmentKeys keys') in Hnd, Hfree.
      apply NoDup_cons in Hnd as [Hnotin Hnd].
      pose proof (Hfree key (list_elem_of_here _ _)) as Hlook.
      rewrite Hlook in Hbind. unfold scopeInsert in Hbind. simpl in Hbind.
      rewrite (insert_unbound _ _ _ Hlook) in Hbind. simpl in Hbind.
      run Hbind.
      set (s1 := mkState _ _ _ _) in *.
      assert (Hkeep1 : ∀ k nd,
                SymbolTableStack.lookup k (hoistedScope s) = Some nd →
                SymbolTableStack.lookup k (hoistedScope s1) = Some nd).
      { intros k nd Hk. simpl.
        destruct (decide (k = key)) as [->|Hne]; [congruence|].
        by rewrite (lookup_insert_top_ne k key rhs (hoistedScope s)). }
      destruct (IH keys' (S i) s1) as (s' & Hrun & Hheap & Hloc & Hexc & Hkeep
                                       & Hbound); [done..| |].
      { intros k Hin. simpl.
        assert (k ≠ key) by (by intros ->).
        rewrite (lookup_insert_top_ne k key rhs (hoistedScope s)) by done.
        apply Hfree. by apply list_elem_of_further. }
      exists s'. split; [done|]. split; [done|]. split; [done|].
      split; [done|]. split; [by auto|].
      intros e n identifier' key' rhs' [->|Hin]%elem_of_cons Hen Hty Hv Hrhs.
      * rewrite Heln in Hen. injection Hen as <-.
        rewrite Hview0 in Hv. injection Hv as <- <-.
        rewrite Hr in Hrhs. injection Hrhs as <-.
        apply Hkeep. apply lookup_top_Some. simpl. apply lookup_insert_eq.
      * by apply (Hbound e n identifier').
    + injection Hk as <-.
      destruct (IH keys' (S i) s) as (s' & Hrun & Hheap & Hloc & Hexc & Hkeep
                                      & Hbound); [done..|].
      exists s'. repeat split; try done.
      intros e n identifier key rhs [->|Hin]%elem_of_cons Hen Hty Hv Hrhs.
      * rewrite Heln in Hen. injection Hen as <-.
        by rewrite Hty, bool_decide_eq_true_2 in Hassign.
      * by apply (Hbound e n identifier).
Qed.

(** X18: forward visibility.  After hoisting a capsule without Enum nodes whose
    top-level keys are pairwise distinct, a use of the name of a top-level
    literal assignment, wherever the assignment stands in the capsule, is
    replaced by a copy of the literal, unless the local stack binds the
    name. *)
Theorem hoisted_constant_is_inlined
    ast s n listPtr ln els keys e en l idn identifier rhs rn v use un b :
  heap s !! ast = Some n → value n = Some listPtr →
  heap s !! listPtr = Some ln → elementsOf ln = Some els →
  (∀ e, e ∈ els → isEnum (heap s) e = false) →
  mapM (topLevelKey (heap s)) els = Some keys →
  NoDup (assignmentKeys keys) →
  (∀ key, key ∈ assignmentKeys keys →
     SymbolTableStack.lookup key (hoistedScope s) = None) →
  e ∈ els → heap s !! e = Some en → nodeType en = ASSIGNMENT →
  left en = Some l → heap s !! l = Some idn →
  class idn = IdentifierNode identifier →
  right en = Some rhs → heap s !! rhs = Some rn →
  isLiteralType (nodeType rn) = true → class rn = LiteralNode v →
  heap s !! use = Some un → nodeType un = IDENTIFIER →
  class un = IdentifierNode identifier →
  valueIsTypeDeclaration (heap s) un = Some false →
  SymbolTableStack.lookup identifier (localScope s) = None →
  ∃ s1 c s2,
    hoistNecessary ast s = Done tt s1
    ∧ heap s1 = heap s
    ∧ encounteredExceptions s1 = encounteredExceptions s
    ∧ optimizeAST use b s1 = Done (Some c) s2
    ∧ heap s !! c = None
    ∧ isLiteralCopy (heap s2) c (nodeType rn) v.
Proof.
  intros Hn Hv Hln Hels Hnoenum Hkeys Hnd Hfree He Hen Hty Hl Hidn Hc Hr Hrn
    Hlit Hcv Hun Htu Hcu Hvu Hlocal.
  set (s0 := setScope HoistedScope
               (SymbolTableStack.enterScope (getScope HoistedScope s)) s).
  destruct (hoistElements_binds_assignments els keys 0 s0 Hnoenum Hkeys Hnd)
    as (s1 & Hrun & Hheap & Hloc & Hexc & _ & Hbound).
  { intros key Hkey. simpl. rewrite lookup_enterScope. by apply Hfree. }
  change (heap s0) with (heap s) in Hheap, Hbound.
  change (localScope s0) with (localScope s) in Hloc.
  change (encounteredExceptions s0) with (encounteredExceptions s) in Hexc.
  assert (Hget : getElements ln = ret els).
  { unfold getElements, elementsOf in *. by destruct (class ln); simplify_eq. }
  assert (Hkey : bindingKey identifier (heap s) rhs rn = identifier).
  { unfold bindingKey. case_bool_decide as Hf; [|done].
    unfold isLiteralType in Hlit. by rewrite Hf in Hlit. }
  assert (Hview : assignmentView (heap s) e = Some (identifier, identifier)).
  { unfold assignmentView. by rewrite Hen, Hl, Hr, Hidn, Hrn, Hc, Hkey. }
  pose proof (Hbound e en identifier identifier rhs He Hen Hty Hview Hr)
    as Hlook.
  assert (Hres : resolveIdentifier identifier s1 = Some rhs).
  { unfold resolveIdentifier. by rewrite Hloc, Hlocal. }
  assert (Hun1 : heap s1 !! use = Some un) by (by rewrite Hheap).
  assert (Hvu1 : valueIsTypeDeclaration (heap s1) un = Some false)
    by (by rewrite Hheap).
  assert (Hrn1 : heap s1 !! rhs = Some rn) by (by rewrite Hheap).
  pose proof (substituteIdentifiers_literal use s1 un identifier rhs rn v
                Hun1 Hvu1 Hcu Hres Hrn1 Hlit Hcv) as Hsub.
  cbv zeta in Hsub.
  eexists s1, _, _. split.
  { unfold hoistNecessary. run_deref Hn. rewrite Hv. run_deref Hln.
    rewrite Hget. unfold bind at 1, ret at 1. unfold bind at 1, scopeEnter.
    fold s0. run Hrun.
    apply (setElements_same _ _ ln); [by rewrite Hheap | done]. }
  split; [done|]. split; [done|]. split.
  { unfold optimizeAST. run_deref Hun1. rewrite Htu. simpl. exact Hsub. }
  split; [rewrite <- Hheap; apply fresh_not_in_heap|].
  eexists. split; [apply lookup_insert_eq | done].
Qed.

(** X5: two function declarations assigned to the same name are both bound,
    without any diagnostic, as soon as their qualified identifiers differ. *)
Theorem bindIdentifierToScope_overloads_coexist
    a1 a2 scope s n1 n2 l1 l2 ln1 ln2 identifier rhs1 rhs2 rn1 rn2 :
  heap s !! a1 = Some n1 → left n1 = Some l1 → heap s !! l1 = Some ln1 →
  class ln1 = IdentifierNode identifier →
  right n1 = Some rhs1 → heap s !! rhs1 = Some rn1 →
  nodeType rn1 = FUNCTION_DECLARATION →
  heap s !! a2 = Some n2 → left n2 = Some l2 → heap s !! l2 = Some ln2 →
  class ln2 = IdentifierNode identifier →
  right n2 = Some rhs2 → heap s !! rhs2 = Some rn2 →
  nodeType rn2 = FUNCTION_DECLARATION →
  let key1 := getQualifiedFunctionIdentifier identifier (heap s) rhs1 in
  let key2 := getQualifiedFunctionIdentifier identifier (heap s) rhs2 in
  key1 ≠ key2 →
  SymbolTableStack.lookup key1 (getScope scope s) = None →
  SymbolTableStack.lookup key2 (getScope scope s) = None →
  ∃ s1 s2,
    bindIdentifierToScope a1 scope s = Done tt s1
    ∧ bindIdentifierToScope a2 scope s1 = Done tt s2
    ∧ encounteredExceptions s2 = encounteredExceptions s
    ∧ SymbolTableStack.lookup key1 (getScope scope s2) = Some rhs1
    ∧ SymbolTableStack.lookup key2 (getScope scope s2) = Some rhs2.
Proof.
  intros Hn1 Hl1 Hln1 Hc1 Hr1 Hrn1 Hf1 Hn2 Hl2 Hln2 Hc2 Hr2 Hrn2 Hf2
    key1 key2 Hne Hfree1 Hfree2.
  assert (Hk1 : bindingKey identifier (heap s) rhs1 rn1 = key1).
  { unfold bindingKey. by rewrite bool_decide_eq_true_2. }
  assert (Hk2 : bindingKey identifier (heap s) rhs2 rn2 = key2).
  { unfold bindingKey. by rewrite bool_decide_eq_true_2. }
  pose proof (bindIdentifierToScope_eq a1 scope s n1 l1 ln1 identifier rhs1 rn1
                Hn1 Hl1 Hln1 Hc1 Hr1 Hrn1) as H1.
  cbv zeta in H1. rewrite Hk1, Hfree1 in H1. unfold scopeInsert in H1.
  rewrite (insert_unbound _ _ _ Hfree1) in H1. simpl in H1.
  set (s1 := setScope scope _ s) in *.
  assert (Hheap : heap s1 = heap s) by apply heap_setScope.
  assert (Hscope1 : getScope scope s1
            = mkStack (<[key1 := rhs1]> (top (getScope scope s)))
                      (below (getScope scope s))) by apply getScope_setScope.
  assert (Hfree2' : SymbolTableStack.lookup key2 (getScope scope s1) = None).
  { rewrite Hscope1. rewrite lookup_insert_top_ne by done. exact Hfree2. }
  pose proof (bindIdentifierToScope_eq a2 scope s1 n2 l2 ln2 identifier rhs2 rn2)
    as H2.
  rewrite Hheap in H2. specialize (H2 Hn2 Hl2 Hln2 Hc2 Hr2 Hrn2).
  cbv zeta in H2. rewrite Hk2, Hfree2' in H2. unfold scopeInsert in H2.
  rewrite (insert_unbound _ _ _ Hfree2') in H2. simpl in H2.
  eexists s1, _. split; [exact H1|]. split; [exact H2|].
  rewrite exceptions_setScope, getScope_setScope, Hscope1. simpl.
  split; [apply exceptions_setScope|]. split.
  - apply lookup_top_Some. simpl. rewrite lookup_insert_ne by done.
    apply lookup_insert_eq.
  - apply lookup_top_Some. simpl. apply lookup_insert_eq.
Qed.

End Frames.

Section CapsuleJSON.
Context `{printer : NodePrinter}.

Lemma list_ascii_of_append (a b : string) :
  Stdlib.Strings.String.list_ascii_of_string (a +:+ b)
  = Stdlib.Strings.String.list_ascii_of_string a
    ++ Stdlib.Strings.String.list_ascii_of_string b.
Proof.
  induction a as [|c a IH]; [done|].
  change (String c a +:+ b) with (String c (a +:+ b)). simpl. by rewrite IH.
Qed.

Lemma append_inv_tail (a b c : string) : a +:+ c = b +:+ c → a = b.
Proof.
  intros H. apply (f_equal Stdlib.Strings.String.list_ascii_of_string) in H.
  rewrite !list_ascii_of_append in H. apply app_inv_tail in H.
  apply (f_equal Stdlib.Strings.String.string_of_list_ascii) in H.
  by rewrite !Stdlib.Strings.String.string_of_list_ascii_of_string in H.
Qed.

(** X19: the JSON text of a capsule determines its name: two capsules that
    differ only in their names are printed differently. *)
Theorem toJSON_tells_names_apart (h : Heap) (n : ASTNode) (name1 name2 : string) :
  name1 ≠ name2 → Capsule.toJSON h n name1 ≠ Capsule.toJSON h n name2.
Proof.
  unfold Capsule.toJSON. intros Hne H. apply Hne.
  repeat (apply (inj (String.app _)) in H).
  by apply append_inv_tail in H.
Qed.

End CapsuleJSON.

(** * The further properties on concrete trees *)

Module MoreRuns.
Import Sample.
#[local] Open Scope positive_scope.
#[local] Existing Instance env.

Lemma declaration_site_x_is_left_alone :
  substituteIdentifiers (env := env) 11 xBoundOnTop = Done (Some 11) xBoundOnTop.
Proof.
  apply (substituteIdentifiers_leaves_alone (env := env) 11 xBoundOnTop
           (node 11 IDENTIFIER (Some 10) None None (Some 12) (IdentifierNode "x")));
    [vm_compute; reflexivity | left; vm_compute; reflexivity].
Defined.

Lemma local_x_wins :
  ∃ c s', substituteIdentifiers (env := env) 9 xShadowed = Done (Some c) s'
    ∧ isLiteralCopy (heap s') c NUMBER_LITERAL "5".
Proof.
  destruct (substituteIdentifiers_local_shadows_hoisted (env := env)
              9 xShadowed
              (node 9 IDENTIFIER (Some 6) None None None (IdentifierNode "x"))
              "x" 5
              (node 5 NUMBER_LITERAL (Some 2) None None None (LiteralNode "5")))
    as [_ Hcopy]; try (vm_compute; reflexivity).
  destruct (Hcopy "5") as (c & s' & Hrun & _ & Hlit);
    try (vm_compute; reflexivity).
  exists c, s'. split; assumption.
Defined.

Lemma binding_y_keeps_x :
  ∃ s', bindIdentifierToScope (env := env) 6 LocalScope xBoundOnTop = Done tt s'
    ∧ SymbolTableStack.lookup "x" (localScope s') = Some 5.
Proof.
  assert (H : ∃ s', bindIdentifierToScope (env := env) 6 LocalScope xBoundOnTop
                    = Done tt s') by (eexists; vm_compute; reflexivity).
  destruct H as [s' H]. exists s'. split; [exact H|].
  destruct (bindIdentifierToScope_keeps_bindings _ _ _ _ H)
    as (_ & _ & _ & Hkeep).
  apply (Hkeep "x" 5). vm_compute; reflexivity.
Defined.

Lemma binding_x_twice :
  ∃ s1, bindIdentifierToScope (env := env) 2 LocalScope blockStart = Done tt s1
    ∧ bindIdentifierToScope (env := env) 2 LocalScope s1
      = Done tt (mkState (heap s1) (hoistedScope s1) (localScope s1)
                   (encounteredExceptions s1 ++ [IllegalReassignmentError "x"])%list).
Proof.
  apply (bindIdentifierToScope_twice_reports (env := env) 2 LocalScope blockStart
           (node 2 ASSIGNMENT (Some 1) (Some 3) (Some 5) None PlainNode)
           3 (node 3 IDENTIFIER (Some 2) None None (Some 4) (IdentifierNode "x"))
           "x"
           5 (node 5 NUMBER_LITERAL (Some 2) None None None (LiteralNode "5")));
    vm_compute; reflexivity.
Defined.

Lemma unpacking_Level_keeps_its_binding :
  ∃ s', unpackEnumElementsInScope (env := env) 3 HoistedScope levelBound
        = Done tt s'
    ∧ SymbolTableStack.lookup "Level" (hoistedScope s') = Some 7.
Proof.
  assert (H : ∃ s', unpackEnumElementsInScope (env := env) 3 HoistedScope
                      levelBound = Done tt s')
    by (eexists; vm_compute; reflexivity).
  destruct H as [s' H]. exists s'. split; [exact H|].
  destruct (unpackEnumElementsInScope_keeps_bindings (env := env)
              3 HoistedScope levelBound s'
              (node 3 ENUM None None None None (EnumNode (Some 4) [5; 6]))
              4 [5; 6]
              (node 4 IDENTIFIER (Some 3) None None None (IdentifierNode "Level"))
              "Level")
    as (_ & _ & _ & _ & _ & Hbase); try (vm_compute; reflexivity); [exact H|].
  apply (Hbase 7). vm_compute; reflexivity.
Defined.

Lemma unpacking_empty_symbol_throws :
  unpackEnumElementsInScope (env := env) 1 HoistedScope emptySymbolStart
  = Crash OutOfRange.
Proof.
  apply (unpackEnumElementsInScope_empty_symbol_throws (env := env)
           1 HoistedScope emptySymbolStart
           (node 1 ENUM None None None None (EnumNode (Some 2) [3; 4]))
           2 (node 2 IDENTIFIER (Some 1) None None None (IdentifierNode "E"))
           "E" [3] ["a"] 4
           (node 4 SYMBOL (Some 1) None None None (SymbolNode "")) []);
    try (vm_compute; reflexivity).
  - repeat constructor.
  - compute_done.
Defined.

Lemma unpacking_Level_twice :
  ∃ s1, unpackEnumElementsInScope (env := env) 3 HoistedScope enumUseStart
        = Done tt s1
    ∧ encounteredExceptions s1 = []
    ∧ unpackEnumElementsInScope (env := env) 3 HoistedScope s1
      = Done tt (mkState (heap s1) (hoistedScope s1) (localScope s1)
                   (encounteredExceptions s1
                      ++ [IllegalReassignmentError "Level.low"])%list).
Proof.
  apply (unpackEnumElementsInScope_twice_reports (env := env)
           3 HoistedScope enumUseStart "Level" "low" ["high"]);
    try (vm_compute; reflexivity).
  compute_done.
Defined.

Lemma unpacking_Level_over_its_name :
  ∃ s', unpackEnumElementsInScope (env := env) 3 HoistedScope levelBound
        = Done tt s'
    ∧ encounteredExceptions s' = []
    ∧ SymbolTableStack.lookup "Level" (hoistedScope s') = Some 7.
Proof.
  destruct (unpackEnumElementsInScope_bound_base_is_silent (env := env)
              3 HoistedScope levelBound "Level" ["low"; "high"] 7)
    as (s' & Hrun & Hexc & Hbase & _); try (vm_compute; reflexivity).
  - compute_done.
  - exists s'. repeat split; assumption.
Defined.

Lemma reference_to_Level_high :
  ∃ s1 c s2,
    unpackEnumElementsInScope (env := env) 3 HoistedScope enumUseStart
    = Done tt s1
    ∧ substituteIdentifiers (env := env) 7 s1 = Done (Some c) s2
    ∧ isLiteralCopy (heap s2) c NUMBER_LITERAL "1".
Proof.
  destruct (enum_element_reference_is_inlined (env := env)
              3 HoistedScope enumUseStart "Level" ["low"; "high"] 1%nat "high" 7
              (node 7 IDENTIFIER None None None None (IdentifierNode "Level.high")))
    as (s1 & c & s2 & H1 & H2 & _ & Hlit); try (vm_compute; reflexivity).
  - compute_done.
  - right. vm_compute; reflexivity.
  - exists s1, c, s2. repeat split; assumption.
Defined.

Lemma annotation_Level_becomes_Number :
  ∃ s1 s2,
    unpackEnumElementsInScope (env := env) 3 HoistedScope enumUseStart
    = Done tt s1
    ∧ remapEnumTypeReferences 8 s1 = Done tt s2
    ∧ (class <$> heap s2 !! 8) = Some (TypeDeclarationNode "Number").
Proof.
  destruct (enum_type_reference_is_remapped (env := env)
              3 HoistedScope enumUseStart "Level" ["low"; "high"] 8
              (node 8 TYPE_DECLARATION None None None None
                    (TypeDeclarationNode "Level")))
    as (s1 & s2 & H1 & H2 & Htd); try (vm_compute; reflexivity).
  - compute_done.
  - right. vm_compute; reflexivity.
  - exists s1, s2. split; [done|]. split; [done|]. by rewrite Htd.
Defined.

Lemma remapping_Number_changes_nothing :
  ∃ s', remapEnumTypeReferences 4 xBoundOnTop = Done tt s'
    ∧ localScope s' = localScope xBoundOnTop
    ∧ encounteredExceptions s' = [].
Proof.
  assert (H : ∃ s', remapEnumTypeReferences 4 xBoundOnTop = Done tt s')
    by (eexists; vm_compute; reflexivity).
  destruct H as [s' H]. exists s'. split; [exact H|].
  destruct (remapEnumTypeReferences_changes_only_type_name _ _ _ H)
    as (n & t & t' & _ & _ & _ & _ & Hloc & Hexc).
  by split.
Defined.

Lemma use_of_x_is_replaced_by_a_literal :
  ∃ s', optimizeAST (env := env) 9 false xBoundOnTop = Done (Some 19) s'
    ∧ ∃ t v, isLiteralType t = true ∧ isLiteralCopy (heap s') 19 t v.
Proof.
  assert (H : ∃ s', optimizeAST (env := env) 9 false xBoundOnTop
                    = Done (Some 19) s') by (eexists; vm_compute; reflexivity).
  destruct H as [s' H]. exists s'. split; [exact H|].
  destruct (optimizeAST_deletes_and_replaces (env := env) 9 false xBoundOnTop
              (node 9 IDENTIFIER (Some 6) None None None (IdentifierNode "x"))
              (Some 19) s' eq_refl H) as [Heq|(_ & _ & Hlit)];
    [discriminate Heq | exact Hlit].
Defined.

Lemma deleting_second_x_keeps_the_rest :
  ∃ s', optimizeAST (env := env) 10 false xBoundOnTop = Done None s'
    ∧ hoistedScope s' = hoistedScope xBoundOnTop
    ∧ heap s' !! 5 = heap xBoundOnTop !! 5.
Proof.
  assert (H : ∃ s', optimizeAST (env := env) 10 false xBoundOnTop
                    = Done None s') by (eexists; vm_compute; reflexivity).
  destruct H as [s' H]. exists s'. split; [exact H|].
  destruct (optimizeAST_frame (env := env) _ _ _ _ _ H)
    as (Hh & _ & _ & _ & Hkeep).
  split; [exact Hh|].
  rewrite (Hkeep 5 (node 5 NUMBER_LITERAL (Some 2) None None None
                          (LiteralNode "5"))); [vm_compute; reflexivity|..].
  - intros Heq; discriminate Heq.
  - vm_compute; reflexivity.
Defined.

Lemma orphan_literal_assignment_crashes :
  optimizeAST (env := env) 2 false orphanStart = Crash NullDereference.
Proof.
  apply (optimizeAST_assignment_without_parent (env := env) 2 orphanStart
           (node 2 ASSIGNMENT None (Some 3) (Some 5) None PlainNode)
           3 (node 3 IDENTIFIER (Some 2) None None (Some 4) (IdentifierNode "x"))
           "x"
           4 (node 4 TYPE_DECLARATION (Some 3) None None None
                   (TypeDeclarationNode "Number"))
           "Number"
           5 (node 5 NUMBER_LITERAL (Some 2) None None None (LiteralNode "5")));
    vm_compute; reflexivity.
Defined.

Lemma deleted_x_is_inlined :
  ∃ s1 c s2,
    optimizeAST (env := env) 2 false blockStart = Done None s1
    ∧ optimizeAST (env := env) 9 false s1 = Done (Some c) s2
    ∧ isLiteralCopy (heap s2) c NUMBER_LITERAL "5".
Proof.
  destruct (elided_assignment_is_inlined (env := env) 2 blockStart
              (node 2 ASSIGNMENT (Some 1) (Some 3) (Some 5) None PlainNode)
              3 (node 3 IDENTIFIER (Some 2) None None (Some 4) (IdentifierNode "x"))
              "x"
              4 (node 4 TYPE_DECLARATION (Some 3) None None None
                      (TypeDeclarationNode "Number"))
              "Number"
              5 (node 5 NUMBER_LITERAL (Some 2) None None None (LiteralNode "5"))
              "5"
              1 (node 1 BLOCK None None None None (BlockNode [2; 6; 10; 14; 18]))
              9 (node 9 IDENTIFIER (Some 6) None None None (IdentifierNode "x"))
              false)
    as (s1 & c & s2 & H1 & _ & H2 & _ & Hlit & _);
    try (vm_compute; reflexivity).
  - intros _.
    exists 18, (node 18 IDENTIFIER (Some 1) None None None (IdentifierNode "x")).
    split; [vm_compute; reflexivity|]. split; [vm_compute; reflexivity|].
    split; intros H; discriminate H.
  - intros H; discriminate H.
  - exists s1, c, s2. repeat split; assumption.
Defined.

Lemma hoisting_pushes_one_frame :
  ∃ s', hoistNecessary (env := env) 1 capsuleStart = Done tt s'
    ∧ localScope s' = SymbolTableStack.empty
    ∧ below (hoistedScope s') = [∅].
Proof.
  assert (H : ∃ s', hoistNecessary (env := env) 1 capsuleStart = Done tt s')
    by (eexists; vm_compute; reflexivity).
  destruct H as [s' H]. exists s'. split; [exact H|].
  destruct (hoistNecessary_frame (env := env) _ _ _ H) as (Hloc & Hbelow & _).
  by split.
Defined.

Lemma x_is_visible_before_its_declaration :
  ∃ s1 c s2,
    hoistNecessary (env := env) 1 forwardUseStart = Done tt s1
    ∧ optimizeAST (env := env) 10 false s1 = Done (Some c) s2
    ∧ isLiteralCopy (heap s2) c NUMBER_LITERAL "5".
Proof.
  destruct (hoisted_constant_is_inlined (env := env) 1 forwardUseStart
              (node 1 CAPSULE None None None (Some 2) (CapsuleNode "Main"))
              2 (node 2 AST_NODE_LIST (Some 1) None None None (ASTNodeList [7; 11]))
              [7; 11] [Some "y"; Some "x"]
              11 (node 11 ASSIGNMENT (Some 2) (Some 12) (Some 14) None PlainNode)
              12 (node 12 IDENTIFIER (Some 11) None None (Some 13)
                       (IdentifierNode "x"))
              "x"
              14 (node 14 NUMBER_LITERAL (Some 11) None None None (LiteralNode "5"))
              "5"
              10 (node 10 IDENTIFIER (Some 7) None None None (IdentifierNode "x"))
              false)
    as (s1 & c & s2 & H1 & _ & _ & H2 & _ & Hlit);
    try (vm_compute; reflexivity).
  - apply Forall_forall. repeat constructor.
  - compute_done.
  - compute_done.
  - exists s1, c, s2. repeat split; assumption.
Defined.

Lemma two_declarations_of_f :
  ∃ s1 s2,
    bindIdentifierToScope (env := envByAddress) 2 LocalScope overloadStart
    = Done tt s1
    ∧ bindIdentifierToScope (env := envByAddress) 5 LocalScope s1 = Done tt s2
    ∧ encounteredExceptions s2 = []
    ∧ SymbolTableStack.lookup "f4" (localScope s2) = Some 4
    ∧ SymbolTableStack.lookup "f7" (localScope s2) = Some 7.
Proof.
  apply (bindIdentifierToScope_overloads_coexist (env := envByAddress)
           2 5 LocalScope overloadStart
           (node 2 ASSIGNMENT (Some 1) (Some 3) (Some 4) None PlainNode)
           (node 5 ASSIGNMENT (Some 1) (Some 6) (Some 7) None PlainNode)
           3 6
           (node 3 IDENTIFIER (Some 2) None None None (IdentifierNode "f"))
           (node 6 IDENTIFIER (Some 5) None None None (IdentifierNode "f"))
           "f" 4 7
           (node 4 FUNCTION_DECLARATION (Some 2) None None None PlainNode)
           (node 7 FUNCTION_DECLARATION (Some 5) None None None PlainNode));
    try (vm_compute; reflexivity).
  compute_done.
Defined.

Lemma Main_and_Other_print_differently :
  Capsule.toJSON (printer := printer) ∅
    (node 1 CAPSULE None None None None (CapsuleNode "Main")) "Main"
  ≠ Capsule.toJSON (printer := printer) ∅
      (node 1 CAPSULE None None None None (CapsuleNode "Main")) "Other".
Proof.
  apply (toJSON_tells_names_apart (printer := printer)).
  intros H; discriminate H.
Defined.

End MoreRuns.

(** * Running the pass again *)

Section Rerun.
Context `{env : CompilerEnv}.

Lemma lookup_empty_stack key :
  SymbolTableStack.lookup key SymbolTableStack.empty = None.
Proof. reflexivity. Qed.

Lemma substituteIdentifiers_declaration_site ast s n :
  heap s !! ast = Some n →
  valueIsTypeDeclaration (heap s) n = Some true →
  substituteIdentifiers ast s = Done (Some ast) s.
Proof.
  intros Hn Hval. unfold substituteIdentifiers. run_deref Hn.
  unfold valueIsTypeDeclaration in Hval.
  destruct (value n) as [v|]; [|done].
  destruct (heap s !! v) as [vn|] eqn:Hvn; [|done].
  injection Hval as Hval. unfold bind at 1. run_deref Hvn.
  unfold ret at 1. by rewrite Hval.
Qed.

Lemma isLastOfBlock_last ast s n par pn e en :
  heap s !! ast = Some n → parent n = Some par → heap s !! par = Some pn →
  finalStatementOf pn = Some e → heap s !! e = Some en → id en = id n →
  isLastOfBlock ast s = Done true s.
Proof.
  intros Hn Hp Hpn Hlast Hen Hid.
  unfold isLastOfBlock, bind, deref, getBlockElements, finalStatementOf in *.
  rewrite Hn, Hp, Hpn.
  destruct (bool_decide (nodeType pn = BLOCK)); [|done].
  destruct (class pn); try done. simpl. rewrite Hlast, Hen.
  unfold ret. by rewrite bool_decide_eq_true_2.
Qed.

(** An idle action returns the reference it was given and leaves the store
    and the collector as they are. *)
Lemma step_idle s a :
  Idle s a →
  ∃ s1, step a s = Done (unchanged [a]) s1
    ∧ heap s1 = heap s
    ∧ encounteredExceptions s1 = encounteredExceptions s.
Proof.
  intros [ | | ast n b Hn H1 H2 H3 H4 | ast n Hn Ht | ast n b Hn Ht Hval
          | ast n name b Hn Ht Hval Hc Hres
          | ast n name found fn b Hn Ht Hval Hc Hres Hfn Hlit
          | ast n t b Hn Ht Hc Hres
          | ast n l ln identifier tv tn declared rhs rn
              Hn Ht Hl Hln Hc Htv Htn Hct Hr Hrn Hfree Hkeep ].
  - eexists. split; [reflexivity|]. split; [apply heap_setScope|].
    apply exceptions_setScope.
  - unfold step, bind, scopeExit.
    destruct (SymbolTableStack.exitScope _); eexists;
      (split; [reflexivity|]); simpl; done.
  - exists s. split; [|done].
    assert (Hs : optimizeAST ast b s = Done (Some ast) s).
    { unfold optimizeAST. run_deref Hn.
      by rewrite !bool_decide_eq_false_2 by done. }
    unfold step. by run Hs.
  - exists s. split; [|done].
    assert (Hs : optimizeAST ast true s = Done (Some ast) s).
    { unfold optimizeAST. run_deref Hn. by rewrite Ht. }
    unfold step. by run Hs.
  - exists s. split; [|done].
    assert (Hs : optimizeAST ast b s = Done (Some ast) s).
    { unfold optimizeAST. run_deref Hn. rewrite Ht. simpl.
      by apply substituteIdentifiers_declaration_site with n. }
    unfold step. by run Hs.
  - exists s. split; [|done].
    assert (Hs : optimizeAST ast b s = Done (Some ast) s).
    { unfold optimizeAST. run_deref Hn. rewrite Ht. simpl.
      rewrite (substituteIdentifiers_eq _ _ _ _ Hn Hval Hc). by rewrite Hres. }
    unfold step. by run Hs.
  - exists s. split; [|done].
    assert (Hs : optimizeAST ast b s = Done (Some ast) s).
    { unfold optimizeAST. run_deref Hn. rewrite Ht. simpl.
      rewrite (substituteIdentifiers_eq _ _ _ _ Hn Hval Hc).
      by rewrite Hres, Hfn, Hlit. }
    unfold step. by run Hs.
  - exists s. split; [|done].
    assert (Hs : optimizeAST ast b s = Done (Some ast) s).
    { unfold optimizeAST. run_deref Hn. rewrite Ht. simpl.
      assert (Hr : remapEnumTypeReferences ast s = Done tt s).
      { rewrite (remapEnumTypeReferences_cases _ _ _ _ Hn Hc).
        by rewrite Hres. }
      by run Hr. }
    unfold step. by run Hs.
  - destruct (optimizeAST_assignment_run ast s n l ln identifier tv tn declared
                rhs rn Hn Ht Hl Hln Hc Htv Htn Hct Hr Hrn)
      as (s1 & Hbind & Hheap & Hopt).
    assert (Hexc : encounteredExceptions s1 = encounteredExceptions s).
    { rewrite (bindIdentifierToScope_eq _ _ _ _ _ _ _ _ _ Hn Hl Hln Hc Hr Hrn)
        in Hbind.
      cbv zeta in Hbind. cbn [getScope] in Hbind. rewrite Hfree in Hbind.
      by injection Hbind as <-. }
    exists s1. split; [|done]. unfold step.
    assert (Hs : optimizeAST ast false s = Done (Some ast) s1).
    { rewrite Hopt. destruct Hkeep as [->|(par & pn & e & en & Hp & Hpn & Hlast
                                           & Hen & Hid)]; [done|].
      destruct (literalMatchesType rn declared); [|done].
      assert (Hl' : isLastOfBlock ast s1 = Done true s1).
      { apply (isLastOfBlock_last _ _ n par pn e en); rewrite ?Hheap; done. }
      by run Hl'. }
    by run Hs.
Qed.

Lemma traverse_idle actions s :
  IdleRun actions s →
  ∃ s1, traverse actions s = Done (unchanged actions) s1
    ∧ heap s1 = heap s
    ∧ encounteredExceptions s1 = encounteredExceptions s.
Proof.
  revert s. induction actions as [|a rest IH]; intros s Hidle.
  - by exists s.
  - destruct Hidle as [Ha Hrest].
    destruct (step_idle s a Ha) as (s1 & Hstep & Hheap & Hexc).
    destruct (IH s1 (Hrest _ _ Hstep)) as (s2 & Hrun & Hheap2 & Hexc2).
    exists s2. split; [|split; congruence].
    cbn [traverse]. run Hstep. run Hrun.
    unfold ret. f_equal. unfold unchanged. simpl. by rewrite app_nil_r.
Qed.

(** C6 (amended): running the pass a second time, from freshly derived
    stacks, on a tree it has already optimised (no Enum node among the
    top-level declarations or the visited nodes, no visited Assignment that
    is elidable) leaves the tree unchanged and appends no new diagnostic,
    whatever the order of the visits, provided that in that run no key is
    declared twice (the keys of the top-level Assignments are pairwise
    distinct, and every other Assignment finds its key free in the local
    stack), no visited identifier outside a declaration site resolves to a
    literal binding, and the name of no visited type declaration is bound.
    The run returns: every visit hands back the reference it was given, the
    store of nodes is the one the run started with, and so is the
    collector. *)
Theorem optimize_again h diagnostics capsule n listPtr ln els keys actions :
  h !! capsule = Some n → value n = Some listPtr →
  h !! listPtr = Some ln → elementsOf ln = Some els →
  (∀ e, e ∈ els → isEnum h e = false) →
  mapM (topLevelKey h) els = Some keys →
  NoDup (assignmentKeys keys) →
  (∀ s1, hoistNecessary capsule (freshRun h diagnostics) = Done tt s1 →
         IdleRun actions s1) →
  ∃ s2, optimize capsule actions (freshRun h diagnostics)
        = Done (unchanged actions) s2
    ∧ heap s2 = h
    ∧ encounteredExceptions s2 = diagnostics.
Proof.
  intros Hn Hv Hln Hels Hnoenum Hkeys Hnodup Hidle.
  destruct (hoistNecessary_again capsule (freshRun h diagnostics)
              n listPtr ln els keys Hn Hv Hln Hels Hnoenum Hkeys)
    as (s1 & Hhoist & Hheap & _ & Hiff).
  destruct (traverse_idle actions s1 (Hidle s1 Hhoist))
    as (s2 & Hrun & Hheap2 & Hexc2).
  exists s2. split; [|split].
  - unfold optimize. by run Hhoist.
  - by rewrite Hheap2, Hheap.
  - rewrite Hexc2. apply Hiff. split; [done|]. intros key _.
    apply lookup_empty_stack.
Qed.

End Rerun.

Module Reruns.
Import Sample.
#[local] Open Scope positive_scope.
#[local] Existing Instance env.

(** The next action of a traversal is idle by the given constructor; the run
    goes on from the state the action leaves. *)
Ltac next c :=
  cbn [IdleRun]; split;
  [ c
  | let r := fresh "r" in let s := fresh "s" in let H := fresh "H" in
    intros r s H; vm_compute in H; injection H as <- <- ].

Ltac top_level := eapply idle_capsule_assignment; vm_compute; reflexivity.
Ltac declaration := eapply idle_declaration_site; vm_compute; reflexivity.
Ltac unbound := eapply idle_unbound_identifier; vm_compute; reflexivity.
Ltac type_name := eapply idle_type_declaration; vm_compute; reflexivity.
Ltac other :=
  eapply idle_other; [vm_compute; reflexivity | vm_compute; discriminate ..].
Ltac not_literal :=
  eapply idle_assignment; [vm_compute; reflexivity .. | left; vm_compute; reflexivity].
Ltac last_statement :=
  eapply idle_assignment;
  [ vm_compute; reflexivity ..
  | right; eexists _, _, _, _; repeat split; vm_compute; reflexivity ].

(** The capsule with the block is left alone by a run: the keys [x] and [f]
    at top level and [y] and [z] in the block are distinct, [a] is bound
    nowhere, [z: Number = 7] is the last statement of the block. *)
Lemma settled_capsule_is_left_alone :
  ∃ s2, optimize 1 settledTraversal (freshRun settledHeap [])
        = Done (unchanged settledTraversal) s2
    ∧ heap s2 = settledHeap
    ∧ encounteredExceptions s2 = [].
Proof.
  refine (optimize_again (env := env) settledHeap [] 1
           (node 1 CAPSULE None None None (Some 2) (CapsuleNode "Main"))
           2 (node 2 AST_NODE_LIST (Some 1) None None None (ASTNodeList [3; 7]))
           [3; 7] [Some "x"; Some "f"] settledTraversal _ _ _ _ _ _ _ _).
  - vm_compute; reflexivity.
  - reflexivity.
  - vm_compute; reflexivity.
  - reflexivity.
  - apply Forall_forall. repeat constructor.
  - vm_compute; reflexivity.
  - compute_done.
  - intros s1 H. vm_compute in H. injection H as <-.
    unfold settledTraversal.
    next top_level. next declaration. next type_name. next other.
    next top_level. next declaration. next type_name. next other.
    next ltac:(apply idle_enter).
    next not_literal. next declaration. next type_name. next unbound.
    next last_statement. next declaration. next type_name. next other.
    next ltac:(apply idle_exit).
    exact I.
Defined.

(** Three trees on which a second run is no round trip.

    The capsule that declares [x] twice at top level holds, after its first
    run, no Enum node and no literal assignment; the second run leaves the
    tree alone and reports the second [x] once more.

    The capsule whose block declares [x] twice holds no Enum node and no
    literal assignment to begin with, and its top-level keys are distinct;
    every run reports the second [x] of the block again.

    In [capsule Main { y: Number = x  x: Number = 5  z: Number = y }] the
    first run replaces the [x] at address 6 by a literal created at address
    15 and leaves the [y] at address 14 alone, since [y] is bound to the
    identifier at address 6.  The tree it leaves holds no Enum node and only
    capsule-level Assignments.  In the second run [y] is bound to the
    literal at address 15, and the visit of address 14 hands back a literal
    created at address 16: the second run rewrites the tree. *)
Lemma second_run_is_no_round_trip :
  (∃ s1 s2,
     optimize 1 twiceDeclaredTraversal (freshRun twiceDeclaredHeap [])
     = Done (unchanged twiceDeclaredTraversal) s1
     ∧ (class <$> heap s1 !! 2) = Some (ASTNodeList [7; 11])
     ∧ encounteredExceptions s1 = [IllegalReassignmentError "x"]
     ∧ optimize 1 twiceDeclaredTraversal
         (freshRun (heap s1) (encounteredExceptions s1))
       = Done (unchanged twiceDeclaredTraversal) s2
     ∧ heap s2 = heap s1
     ∧ encounteredExceptions s2
       = [IllegalReassignmentError "x"; IllegalReassignmentError "x"])
  ∧ (∃ s1 s2,
       optimize 1 twiceInBlockTraversal (freshRun twiceInBlockHeap [])
       = Done (unchanged twiceInBlockTraversal) s1
       ∧ heap s1 = twiceInBlockHeap
       ∧ encounteredExceptions s1 = [IllegalReassignmentError "x"]
       ∧ optimize 1 twiceInBlockTraversal
           (freshRun (heap s1) (encounteredExceptions s1))
         = Done (unchanged twiceInBlockTraversal) s2
       ∧ heap s2 = heap s1
       ∧ encounteredExceptions s2
         = [IllegalReassignmentError "x"; IllegalReassignmentError "x"])
  ∧ (∃ s1 s2,
       optimize 1 chainTraversal (freshRun chainHeap [])
       = Done [Some 3; Some 4; Some 5; Some 15; Some 7; Some 8; Some 9;
               Some 10; Some 11; Some 12; Some 13; Some 14] s1
       ∧ encounteredExceptions s1 = []
       ∧ chainOptimizedHeap
         = <[3 := node 3 ASSIGNMENT (Some 2) (Some 4) (Some 15) None PlainNode]>
             (heap s1)
       ∧ optimize 1 chainOptimizedTraversal (freshRun chainOptimizedHeap [])
         = Done [Some 3; Some 4; Some 5; Some 15; Some 7; Some 8; Some 9;
                 Some 10; Some 11; Some 12; Some 13; Some 16] s2
       ∧ chainOptimizedHeap !! 16 = None
       ∧ isLiteralCopy (heap s2) 16 NUMBER_LITERAL "5").
Proof.
  split; [|split].
  - eexists _, _. split; [vm_compute; reflexivity|].
    repeat (split; [vm_compute; reflexivity|]). vm_compute; reflexivity.
  - eexists _, _. split; [vm_compute; reflexivity|].
    repeat (split; [vm_compute; reflexivity|]). vm_compute; reflexivity.
  - eexists _, _. split; [vm_compute; reflexivity|].
    repeat (split; [vm_compute; reflexivity|]).
    eexists. repeat split; vm_compute; reflexivity.
Qed.

End Reruns.
